(** * Galaxy-Simulator: generator, rotation model, orchestrator and optimizer

    A shallow embedding of
      - src/lib/galaxy/GalaxyGenerator.ts   (generateSpiralArms, addCentralBulge,
                                             calculateAngularVelocity)
      - src/lib/galaxy/GalaxyRenderer.ts    (generateGalaxy, updateStarPositions)
      - src/lib/galaxy/RenderingOptimizer.ts (getLODLevel, optimizeStarRendering)
      - the Svelte viewer                    (initializeRotationData,
                                             updateGalaxyRotation)

    Arithmetic is exact: a JavaScript [number] is a real, or [NaN].  Rounding
    (double and Float32Array precision) and overflow are not modelled. *)

From Stdlib Require Import Reals Lra Lia ZArith List Ascii String Bool.
Import ListNotations.
Open Scope R_scope.

(* ================================================================== *)
(** ** JavaScript numbers *)

Module JS.

(** A number the programs manipulate: a real or NaN.  The infinities are not
    represented, and a division by zero yields [NaN].  With finite
    configuration values the sources divide by a number that can be zero in
    three places only: [(armIndex * 2 * PI) / armCount], which is 0 / 0, NaN
    in JavaScript too; [3 / armCount], whose product is added to that NaN;
    and [finalRadius / galaxyRadius], which is only compared with [<], false
    for NaN and for +Infinity alike.  ([30 / radius] is evaluated for
    [radius >= 30] or NaN only.) *)
Inductive num : Type :=
| Fin (r : R)
| NaN.

Definition lift1 (f : R -> R) (a : num) : num :=
  match a with
  | Fin x => Fin (f x)
  | NaN => NaN
  end.

Definition lift2 (f : R -> R -> R) (a b : num) : num :=
  match a, b with
  | Fin x, Fin y => Fin (f x y)
  | _, _ => NaN
  end.

Definition add : num -> num -> num := lift2 Rplus.
Definition sub : num -> num -> num := lift2 Rminus.
Definition mul : num -> num -> num := lift2 Rmult.

Definition div (a b : num) : num :=
  match a, b with
  | Fin x, Fin y => if Req_dec_T y 0 then NaN else Fin (x / y)
  | _, _ => NaN
  end.

(** [a < b]: false as soon as an operand is NaN. *)
Definition lt (a b : num) : bool :=
  match a, b with
  | Fin x, Fin y => if Rlt_dec x y then true else false
  | _, _ => false
  end.

Definition gt (a b : num) : bool := lt b a.

Definition cos : num -> num := lift1 Rtrigo_def.cos.
Definition sin : num -> num := lift1 Rtrigo_def.sin.

(** [Math.sqrt]: NaN on a negative argument. *)
Definition sqrt (a : num) : num :=
  match a with
  | Fin x => if Rlt_dec x 0 then NaN else Fin (R_sqrt.sqrt x)
  | NaN => NaN
  end.

(** [Math.pow(a, e)] for a positive exponent [e] that is not an integer. *)
Definition pow (a : num) (e : R) : num :=
  match a with
  | Fin x =>
      if Rlt_dec 0 x then Fin (Rpower x e)
      else if Req_dec_T x 0 then Fin 0 else NaN
  | NaN => NaN
  end.

(** [Math.atan2(y, x)] on reals (signed zeros are not distinguished). *)
Definition Ratan2 (y x : R) : R :=
  if Rlt_dec 0 x then atan (y / x)
  else if Rlt_dec x 0 then
         (if Rle_dec 0 y then atan (y / x) + PI else atan (y / x) - PI)
  else if Rlt_dec 0 y then PI / 2
  else if Rlt_dec y 0 then - (PI / 2)
  else 0.

Definition atan2 : num -> num -> num := lift2 Ratan2.

(** [Math.floor] of a real, as an integer. *)
Definition floor (x : R) : Z := Zfloor x.

Definition isFinite (a : num) : Prop :=
  match a with
  | Fin _ => True
  | NaN => False
  end.

End JS.

Abbreviation num := JS.num.
Abbreviation Fin := JS.Fin.
Abbreviation NaN := JS.NaN.

Declare Scope js_scope.
Delimit Scope js_scope with js.
Infix ".+" := JS.add (at level 50, left associativity) : js_scope.
Infix ".-" := JS.sub (at level 50, left associativity) : js_scope.
Infix ".*" := JS.mul (at level 40, left associativity) : js_scope.
Infix "./" := JS.div (at level 40, left associativity) : js_scope.
Infix ".<" := JS.lt (at level 70, no associativity) : js_scope.
Infix ".>" := JS.gt (at level 70, no associativity) : js_scope.
Open Scope js_scope.

(** Reading a JavaScript array: an index out of range gives [undefined], which
    every arithmetic operation of the sources turns into NaN. *)
Definition get (a : list num) (i : nat) : num := nth i a NaN.

(** Writing a typed array in place: an index out of range is ignored. *)
Fixpoint set (a : list num) (i : nat) (v : num) : list num :=
  match a, i with
  | [], _ => []
  | _ :: t, O => v :: t
  | h :: t, S i' => h :: set t i' v
  end.

(* ================================================================== *)
(** ** THREE.Color *)

Record Color : Type := mkColor { cr : R; cg : R; cb : R }.

(** [new THREE.Color().lerpColors(c1, c2, alpha)] *)
Definition lerpColors (c1 c2 : Color) (alpha : R) : Color :=
  {| cr := cr c1 + (cr c2 - cr c1) * alpha;
     cg := cg c1 + (cg c2 - cg c1) * alpha;
     cb := cb c1 + (cb c2 - cb c1) * alpha |}.

(** [color.multiplyScalar(s)] *)
Definition multiplyScalar (c : Color) (s : R) : Color :=
  {| cr := cr c * s; cg := cg c * s; cb := cb c * s |}.

(* ================================================================== *)
(** ** Configuration (src/lib/types/galaxy.ts) *)

(** [brightness] is absent from the configurations of the generator's tests,
    hence optional; [starCount] bounds loops and is an integer. *)
Record GalaxyConfig : Type := mkConfig {
  starCount : Z;
  armCount : R;
  galaxyRadius : R;
  rotationSpeed : R;
  coreSize : R;
  starColors : list string;
  particleSize : R;
  brightness : option R
}.

(* ================================================================== *)
(** ** Randomness: [Math.random()] as draws from an oracle *)

(** A computation that consumes draws: it is given the index of the next draw
    and returns its result with the index after it. *)
Definition Rand (A : Type) : Type := (nat -> R) -> nat -> A * nat.

Definition ret {A : Type} (a : A) : Rand A := fun _ k => (a, k).

Definition bind {A B : Type} (m : Rand A) (f : A -> Rand B) : Rand B :=
  fun rnd k => let (a, k') := m rnd k in f a rnd k'.

Definition random : Rand R := fun rnd k => (rnd k, S k).

Notation "x <- m ;; f" := (bind m (fun x => f))
  (at level 61, m at next level, right associativity).

(** Every draw of [Math.random()] lies in [0, 1). *)
Definition unitDraws (rnd : nat -> R) : Prop := forall k, 0 <= rnd k < 1.

(* ================================================================== *)
(** ** GalaxyGenerator.ts *)

Module Generator.

(** The three arrays the generator returns. *)
Record StarData : Type := mkStarData {
  positions : list num;
  colors : list num;
  sizes : list num
}.

Definition push3 (a : list num) (x y z : num) : list num := a ++ [x; y; z].
Definition push (a : list num) (x : num) : list num := a ++ [x].

(** [config.brightness || 1.0]: zero and undefined are falsy. *)
Definition brightnessValue (config : GalaxyConfig) : R :=
  match brightness config with
  | Some b => if Req_dec_T b 0 then 1 else b
  | None => 1
  end.

Section Colors.

(** The constructors of THREE.Color, library code: from a hexadecimal literal,
    and from an entry of [starColors] ([None] when the index is out of range
    and the entry is [undefined]). *)
Variable hexColor : Z -> Color.
Variable styleColor : option string -> Color.

Definition pickStarColor (config : GalaxyConfig) : Rand Color :=
  u <- random ;;
  let colorIndex :=
    JS.floor (u * INR (List.length (starColors config))) in
  ret (styleColor (nth_error (starColors config) (Z.to_nat colorIndex))).

(** One iteration of the loop of [generateSpiralArms]. *)
Definition spiralStar (config : GalaxyConfig) (adjustedTightness : R)
    (acc : StarData) : Rand StarData :=
  u1 <- random ;;
  let armIndex := JS.floor (u1 * armCount config) in
  let armAngleOffset := Fin (IZR armIndex * 2 * PI) ./ Fin (armCount config) in
  u2 <- random ;;
  let radius := u2 * galaxyRadius config in
  let spiralAngle := armAngleOffset .+ Fin (radius * adjustedTightness) in
  u3 <- random ;;
  let angleVariation :=
    Fin ((u3 - 0.5) * 0.5) .* (Fin 3 ./ Fin (armCount config)) in
  u4 <- random ;;
  let radiusVariation := (u4 - 0.5) * 10 in
  let finalAngle := spiralAngle .+ angleVariation in
  let finalRadius := Rmax 0 (radius + radiusVariation) in
  let x := JS.cos finalAngle .* Fin finalRadius in
  let z := JS.sin finalAngle .* Fin finalRadius in
  u5 <- random ;;
  let y := (u5 - 0.5) * 5 * exp (- finalRadius / 30) in
  let positions' := push3 (positions acc) x (Fin y) z in
  let distanceRatio := Fin finalRadius ./ Fin (galaxyRadius config) in
  color <-
    (if distanceRatio .< Fin 0.3 then
       t <- random ;;
       ret (lerpColors (hexColor 0xffffff) (hexColor 0xffddaa) t)
     else if distanceRatio .< Fin 0.7 then
       pickStarColor config
     else
       u <- random ;;
       if Rlt_dec u 0.7 then
         c <- pickStarColor config ;;
         ret (multiplyScalar c 0.85)
       else
         t <- random ;;
         ret (lerpColors (hexColor 0xaaddff) (hexColor 0x6699cc) t)) ;;
  let color' := multiplyScalar color (brightnessValue config) in
  let colors' :=
    push3 (colors acc) (Fin (cr color')) (Fin (cg color')) (Fin (cb color')) in
  let baseSize := particleSize config in
  u6 <- random ;;
  let sizeVariation := u6 * 2 + 0.5 in
  let distanceSize :=
    if distanceRatio .< Fin 0.3 then 1.5
    else if distanceRatio .< Fin 0.7 then 1.2 else 1.0 in
  let finalSize := baseSize * sizeVariation * distanceSize in
  ret {| positions := positions'; colors := colors';
         sizes := push (sizes acc) (Fin finalSize) |}.

(** [for (let i = 0; i < n; i++) body]: the arrays are threaded through. *)
Fixpoint repeatM (n : nat) (body : StarData -> Rand StarData)
    (acc : StarData) : Rand StarData :=
  match n with
  | O => ret acc
  | S n' => acc' <- body acc ;; repeatM n' body acc'
  end.

Definition generateSpiralArms (config : GalaxyConfig) (tightness : R)
    : Rand StarData :=
  let adjustedTightness := tightness * (1 + (armCount config - 2) * 0.05) in
  repeatM (Z.to_nat (starCount config))
    (spiralStar config adjustedTightness)
    {| positions := []; colors := []; sizes := [] |}.

(** One iteration of the loop of [addCentralBulge]. *)
Definition bulgeStar (config : GalaxyConfig) (acc : StarData) : Rand StarData :=
  u1 <- random ;;
  u2 <- random ;;
  let radius := u1 * u2 * coreSize config in
  u3 <- random ;;
  let theta := u3 * 2 * PI in
  u4 <- random ;;
  let phi := acos (2 * u4 - 1) in
  let x := radius * sin phi * cos theta in
  let y := radius * cos phi * 0.3 in
  let z := radius * sin phi * sin theta in
  let positions' := push3 (positions acc) (Fin x) (Fin y) (Fin z) in
  t <- random ;;
  let color := lerpColors (hexColor 0xffaa66) (hexColor 0xff8844) t in
  let color' := multiplyScalar color (brightnessValue config) in
  let colors' :=
    push3 (colors acc) (Fin (cr color')) (Fin (cg color')) (Fin (cb color')) in
  u5 <- random ;;
  let bulgeSize := particleSize config * (1.5 + u5) in
  ret {| positions := positions'; colors := colors';
         sizes := push (sizes acc) (Fin bulgeSize) |}.

(** The arrays passed in are extended in place and returned. *)
Definition addCentralBulge (config : GalaxyConfig)
    (positions colors sizes : list num) (bulgeStars : Z) : Rand StarData :=
  repeatM (Z.to_nat bulgeStars) (bulgeStar config)
    {| positions := positions; colors := colors; sizes := sizes |}.

End Colors.

(** [calculateAngularVelocity(radius, rotationSpeed)] *)
Definition calculateAngularVelocity (radius : num) (rotationSpeed : R) : num :=
  let maxVelocity := Fin rotationSpeed in
  if radius .< Fin 10 then
    maxVelocity .* (radius ./ Fin 10)
  else if radius .< Fin 30 then
    maxVelocity
  else
    maxVelocity .* JS.pow (Fin 30 ./ radius) 0.3.

End Generator.

(* ================================================================== *)
(** ** Loops over an index *)

(** [for (let i = start; i < start + n; i++) s = body(i, s)] *)
Fixpoint forRange {S : Type} (start n : nat) (body : nat -> S -> S) (s : S) : S :=
  match n with
  | O => s
  | S n' => forRange (Datatypes.S start) n' body (body start s)
  end.

(** [positions.length / 3]; the arrays of the pipeline hold three entries per
    star, so the quotient is exact. *)
Definition starsIn (positions : list num) : nat := (List.length positions / 3)%nat.

(** [new Float32Array(n)]: [n] zeros. *)
Definition zeros (n : nat) : list num := repeat (Fin 0) n.

(* ================================================================== *)
(** ** GalaxyRenderer.ts: the orchestrator *)

Module Renderer.

(** The fields of the class that generation and rotation read and write. *)
Record state : Type := mkState {
  galaxyConfig : GalaxyConfig;
  positions : list num;
  colors : list num;
  sizes : list num;
  rotationRadii : list num;
  angularVelocities : list num
}.

(** The body of the loop "Calculate rotation data" of [generateGalaxy]. *)
Definition rotationDatum (config : GalaxyConfig) (positions : list num)
    (i : nat) (rv : list num * list num) : list num * list num :=
  let x := get positions (i * 3) in
  let z := get positions (i * 3 + 1) in
  let radius := JS.sqrt (x .* x .+ z .* z) in
  (set (fst rv) i radius,
   set (snd rv) i
     (Generator.calculateAngularVelocity radius (rotationSpeed config))).

Section Generation.

Variable hexColor : Z -> Color.
Variable styleColor : option string -> Color.

(** [generateGalaxy()], without the disposal of the previous scene objects. *)
Definition generateGalaxy (config : GalaxyConfig) : Rand state :=
  spiralData <- Generator.generateSpiralArms hexColor styleColor config 0.3 ;;
  let bulgeStars := JS.floor (IZR (starCount config) * 0.2) in
  galaxyData <-
    Generator.addCentralBulge hexColor config
      (Generator.positions spiralData) (Generator.colors spiralData)
      (Generator.sizes spiralData) bulgeStars ;;
  let positions := Generator.positions galaxyData in
  let totalStars := starsIn positions in
  let rv :=
    forRange 0 totalStars (rotationDatum config positions)
      (zeros totalStars, zeros totalStars) in
  ret {| galaxyConfig := config;
         positions := positions;
         colors := Generator.colors galaxyData;
         sizes := Generator.sizes galaxyData;
         rotationRadii := fst rv;
         angularVelocities := snd rv |}.

End Generation.

(** The body of the loop of [updateStarPositions(elapsedTime)]. *)
Definition updateStar (radii velocities : list num) (elapsedTime : R)
    (i : nat) (positions : list num) : list num :=
  let radius := get radii i in
  if radius .< Fin 0.1 then positions
  else
    let angularVelocity := get velocities i in
    let angle := Fin elapsedTime .* angularVelocity in
    let x := get positions (i * 3) in
    let z := get positions (i * 3 + 2) in
    let currentAngle := JS.atan2 z x in
    let newAngle := currentAngle .+ angle in
    let positions1 := set positions (i * 3) (JS.cos newAngle .* radius) in
    set positions1 (i * 3 + 2) (JS.sin newAngle .* radius).

Definition updateStarPositions (elapsedTime : R) (s : state) : state :=
  let totalStars := starsIn (positions s) in
  {| galaxyConfig := galaxyConfig s;
     positions :=
       forRange 0 totalStars
         (updateStar (rotationRadii s) (angularVelocities s) elapsedTime)
         (positions s);
     colors := colors s;
     sizes := sizes s;
     rotationRadii := rotationRadii s;
     angularVelocities := angularVelocities s |}.

(** The frames of [animate()]: one call of [updateStarPositions] per frame,
    with the clock's elapsed time since start at that frame. *)
Definition animate (frames : list R) (s : state) : state :=
  fold_left (fun s t => updateStarPositions t s) frames s.

End Renderer.

(* ================================================================== *)
(** ** The Svelte viewer: incremental rotation *)

Module Viewer.

(** The viewer's own copy of the rotation curve; it reads the rotation speed
    from the component's configuration. *)
Definition calculateAngularVelocity (galaxyConfig : GalaxyConfig)
    (radius : num) : num :=
  let maxVelocity := Fin (rotationSpeed galaxyConfig) in
  if radius .< Fin 10 then
    maxVelocity .* (radius ./ Fin 10)
  else if radius .< Fin 30 then
    maxVelocity
  else
    maxVelocity .* JS.pow (Fin 30 ./ radius) 0.3.

Record starData : Type := mkStarDataRot {
  originalPositions : list num;
  radii : list num;
  angles : list num;
  angularVelocities : list num
}.

(** The body of the loop of [initializeRotationData]. *)
Definition rotationDatum (galaxyConfig : GalaxyConfig) (positions : list num)
    (i : nat) (d : starData) : starData :=
  let x := get positions (i * 3) in
  let z := get positions (i * 3 + 2) in
  let radius := JS.sqrt (x .* x .+ z .* z) in
  let angle := JS.atan2 z x in
  {| originalPositions := originalPositions d;
     radii := set (radii d) i radius;
     angles := set (angles d) i angle;
     angularVelocities :=
       set (angularVelocities d) i
         (calculateAngularVelocity galaxyConfig radius) |}.

Definition initializeRotationData (galaxyConfig : GalaxyConfig)
    (positions : list num) : starData :=
  let starCount := starsIn positions in
  forRange 0 starCount (rotationDatum galaxyConfig positions)
    {| originalPositions := positions;
       radii := zeros starCount;
       angles := zeros starCount;
       angularVelocities := zeros starCount |}.

(** The body of the loop of [updateGalaxyRotation(deltaTime)]: the angle of
    star [i] is advanced in [starData.angles], then its x and z are rewritten
    in the geometry's position array. *)
Definition rotateStar (deltaTime : R) (i : nat)
    (s : starData * list num) : starData * list num :=
  let (d, positions) := s in
  let radius := get (radii d) i in
  let angularVelocity := get (angularVelocities d) i in
  let angles' :=
    set (angles d) i (get (angles d) i .+ angularVelocity .* Fin deltaTime) in
  let newX := JS.cos (get angles' i) .* radius in
  let newZ := JS.sin (get angles' i) .* radius in
  ({| originalPositions := originalPositions d;
      radii := radii d;
      angles := angles';
      angularVelocities := angularVelocities d |},
   set (set positions (i * 3) newX) (i * 3 + 2) newZ).

Definition updateGalaxyRotation (deltaTime : R)
    (s : starData * list num) : starData * list num :=
  forRange 0 (List.length (radii (fst s))) (rotateStar deltaTime) s.

(** Successive frames, each with its delta time. *)
Definition animate (deltas : list R) (s : starData * list num)
    : starData * list num :=
  fold_left (fun s dt => updateGalaxyRotation dt s) deltas s.

End Viewer.

(* ================================================================== *)
(** ** RenderingOptimizer.ts *)

Module Optimizer.

Record Vector3 : Type := mkVector3 { vx : num; vy : num; vz : num }.

(** [THREE.Vector3.distanceTo]: the Euclidean distance. *)
Definition distanceTo (p q : Vector3) : num :=
  let dx := vx p .- vx q in
  let dy := vy p .- vy q in
  let dz := vz p .- vz q in
  JS.sqrt (dx .* dx .+ dy .* dy .+ dz .* dz).

(** [this.lodDistances], set in the constructor. *)
Definition lodDistances : list R := [50; 100; 200; 400].

(** The loop of [getLODLevel], from index [i] on. *)
Fixpoint lodFrom (i : nat) (thresholds : list R) (distance : num) : nat :=
  match thresholds with
  | [] => i
  | t :: rest => if distance .< Fin t then i else lodFrom (S i) rest distance
  end.

Definition getLODLevel (distance : num) : nat := lodFrom 0 lodDistances distance.

(** What the optimizer keeps of a star. *)
Record entry : Type := mkEntry {
  position : Vector3;
  color : num * num * num;
  size : num;
  distance : num
}.

(** [starsByLOD]: a Map from LOD level to the stars pushed so far, the keys
    in insertion order. *)
Definition buckets : Type := list (nat * list entry).

Fixpoint pushTo (m : buckets) (level : nat) (e : entry) : buckets :=
  match m with
  | [] => [(level, [e])]
  | (l, es) :: rest =>
      if Nat.eqb l level then (l, es ++ [e]) :: rest
      else (l, es) :: pushTo rest level e
  end.

Fixpoint bucket (m : buckets) (level : nat) : list entry :=
  match m with
  | [] => []
  | (l, es) :: rest => if Nat.eqb l level then es else bucket rest level
  end.

Section Classification.

(** [this.frustum.containsPoint], library code, on the frustum of the frame. *)
Variable isPointVisible : Vector3 -> bool.
Variable cameraPosition : Vector3.

(** One iteration of "Process all stars": the LOD level the star is filed
    under, or [None] when the iteration is left by [continue]. *)
Definition classify (positions : list num) (i : nat) : option nat :=
  let x := get positions (i * 3) in
  let y := get positions (i * 3 + 1) in
  let z := get positions (i * 3 + 2) in
  let position := mkVector3 x y z in
  let distance := distanceTo position cameraPosition in
  if distance .> Fin (last lodDistances 0 * 2) then None
  else if negb (isPointVisible position) then None
  else Some (getLODLevel distance).

Definition processStar (positions colors sizes : list num) (i : nat)
    (starsByLOD : buckets) : buckets :=
  match classify positions i with
  | None => starsByLOD
  | Some lodLevel =>
      let position :=
        mkVector3 (get positions (i * 3)) (get positions (i * 3 + 1))
          (get positions (i * 3 + 2)) in
      pushTo starsByLOD lodLevel
        {| position := position;
           color := (get colors (i * 3), get colors (i * 3 + 1),
                     get colors (i * 3 + 2));
           size := get sizes i;
           distance := distanceTo position cameraPosition |}
  end.

(** [optimizeStarRendering], up to the map [starsByLOD] it builds from the
    stars; the sorting of each bucket and the instanced meshes are left
    out. *)
Definition optimizeStarRendering (positions colors sizes : list num) : buckets :=
  forRange 0 (starsIn positions) (processStar positions colors sizes) [].

End Classification.

End Optimizer.

(* ================================================================== *)
(** ** RenderingOptimizer.ts: the instanced meshes, frame after frame *)

Module Batches.

(** What is kept of a [THREE.InstancedMesh]: the segment count of its sphere
    geometry, the number of instances it was allocated for, its [count], and
    whether the scene is its parent.  Instance matrices and colors are left
    out. *)
Record InstancedMesh : Type := mkMesh {
  segments : nat;
  capacity : nat;
  count : nat;
  inScene : bool
}.

(** [this.instancedMeshes]: a Map from LOD level to mesh. *)
Definition meshes : Type := list (nat * InstancedMesh).

Fixpoint lookup (m : meshes) (lodLevel : nat) : option InstancedMesh :=
  match m with
  | [] => None
  | (l, mesh) :: rest => if Nat.eqb l lodLevel then Some mesh else lookup rest lodLevel
  end.

(** Mutation of the mesh stored at a level. *)
Fixpoint modify (m : meshes) (lodLevel : nat)
    (f : InstancedMesh -> InstancedMesh) : meshes :=
  match m with
  | [] => []
  | (l, mesh) :: rest =>
      if Nat.eqb l lodLevel then (l, f mesh) :: rest
      else (l, mesh) :: modify rest lodLevel f
  end.

(** The geometry chosen in [getInstancedMesh]: [SphereGeometry(1, n, n)]. *)
Definition geometrySegments (lodLevel : nat) : nat :=
  if Nat.eqb lodLevel 0 then 8
  else if Nat.eqb lodLevel 1 then 6
  else 4.

(** [getInstancedMesh(lodLevel, maxInstances)]: a mesh is created only when
    the level has none; a new mesh starts with [count = maxInstances],
    outside the scene. *)
Definition getInstancedMesh (m : meshes) (lodLevel maxInstances : nat) : meshes :=
  match lookup m lodLevel with
  | Some _ => m
  | None =>
      m ++ [(lodLevel,
             {| segments := geometrySegments lodLevel;
                capacity := maxInstances;
                count := maxInstances;
                inScene := false |})]
  end.

(** "Clear previous instanced meshes from scene". *)
Definition clearMeshes (m : meshes) : meshes :=
  map (fun lm : nat * InstancedMesh =>
         (fst lm,
          {| segments := segments (snd lm);
             capacity := capacity (snd lm);
             count := 0;
             inScene := false |})) m.

(** One iteration of [starsByLOD.forEach]. *)
Definition submit (m : meshes) (bucket : nat * list Optimizer.entry) : meshes :=
  let (lodLevel, stars) := bucket in
  let m1 := getInstancedMesh m lodLevel (List.length stars) in
  modify m1 lodLevel
    (fun mesh =>
       {| segments := segments mesh;
          capacity := capacity mesh;
          count := List.length stars;
          inScene := true |}).

(** [optimizeStarRendering], as a transformation of the instanced meshes. *)
Definition optimizeStarRendering (isPointVisible : Optimizer.Vector3 -> bool)
    (cameraPosition : Optimizer.Vector3) (positions colors sizes : list num)
    (m : meshes) : meshes :=
  fold_left submit
    (Optimizer.optimizeStarRendering isPointVisible cameraPosition
       positions colors sizes)
    (clearMeshes m).

End Batches.

(* ================================================================== *)
(** ** GalaxyRenderer.ts: the performance monitor *)

Module Performance.

(** The orchestrator with the fields the monitor writes: the low-performance
    flag and the pixel ratio given to the WebGL renderer. *)
Record state : Type := mkState {
  renderer : Renderer.state;
  lowPerformanceMode : bool;
  pixelRatio : R
}.

Section Generation.

Variable hexColor : Z -> Color.
Variable styleColor : option string -> Color.

(** [updateConfig(config)]: the configuration is replaced and the galaxy
    generated anew. *)
Definition updateConfig (config : GalaxyConfig) : Rand Renderer.state :=
  Renderer.generateGalaxy hexColor styleColor config.

(** [applyLowPerformanceSettings()] *)
Definition applyLowPerformanceSettings (s : state) : Rand state :=
  let galaxyConfig := Renderer.galaxyConfig (renderer s) in
  if (10000 <? starCount galaxyConfig)%Z then
    let newConfig :=
      {| starCount := JS.floor (IZR (starCount galaxyConfig) * 0.5);
         armCount := armCount galaxyConfig;
         galaxyRadius := galaxyRadius galaxyConfig;
         rotationSpeed := rotationSpeed galaxyConfig;
         coreSize := coreSize galaxyConfig;
         starColors := starColors galaxyConfig;
         particleSize := particleSize galaxyConfig;
         brightness := brightness galaxyConfig |} in
    r <- updateConfig newConfig ;;
    ret {| renderer := r;
           lowPerformanceMode := lowPerformanceMode s;
           pixelRatio := 1 |}
  else
    ret {| renderer := renderer s;
           lowPerformanceMode := lowPerformanceMode s;
           pixelRatio := 1 |}.

(** [applyNormalPerformanceSettings()] *)
Definition applyNormalPerformanceSettings (devicePixelRatio : R) (s : state)
    : state :=
  {| renderer := renderer s;
     lowPerformanceMode := lowPerformanceMode s;
     pixelRatio := Rmin devicePixelRatio 2 |}.

(** The callback [monitorPerformance] gives to [setInterval]; [fps] is the
    value of [this.fps] when it runs. *)
Definition check (devicePixelRatio fps : R) (s : state) : Rand state :=
  if (if Rlt_dec fps 30 then true else false) && negb (lowPerformanceMode s) then
    applyLowPerformanceSettings
      {| renderer := renderer s;
         lowPerformanceMode := true;
         pixelRatio := pixelRatio s |}
  else if (if Rlt_dec 45 fps then true else false) && lowPerformanceMode s then
    ret (applyNormalPerformanceSettings devicePixelRatio
           {| renderer := renderer s;
              lowPerformanceMode := false;
              pixelRatio := pixelRatio s |})
  else ret s.

(** The successive runs of the callback, each with the frame rate it reads. *)
Fixpoint monitorPerformance (devicePixelRatio : R) (rates : list R)
    (s : state) : Rand state :=
  match rates with
  | [] => ret s
  | fps :: rest =>
      s' <- check devicePixelRatio fps s ;;
      monitorPerformance devicePixelRatio rest s'
  end.

End Generation.

End Performance.

(* ================================================================== *)
(** ** The Svelte viewer: generation of the galaxy *)

Module ViewerGalaxy.

Import Generator.

Section Colors.

Variable hexColor : Z -> Color.
Variable styleColor : option string -> Color.

(** One iteration of the loop of the viewer's [generateSpiralArms]: no
    brightness is applied, and the outer region only has the cool blues. *)
Definition spiralStar (galaxyConfig : GalaxyConfig) (armCount tightness : R)
    (acc : StarData) : Rand StarData :=
  u1 <- random ;;
  let armIndex := JS.floor (u1 * armCount) in
  let armAngleOffset := Fin (IZR armIndex * 2 * PI) ./ Fin armCount in
  u2 <- random ;;
  let radius := u2 * galaxyRadius galaxyConfig in
  let adjustedTightness := tightness * (1 + (armCount - 2) * 0.05) in
  let spiralAngle := armAngleOffset .+ Fin (radius * adjustedTightness) in
  u3 <- random ;;
  let angleVariation := Fin ((u3 - 0.5) * 0.5) .* (Fin 3 ./ Fin armCount) in
  u4 <- random ;;
  let radiusVariation := (u4 - 0.5) * 10 in
  let finalAngle := spiralAngle .+ angleVariation in
  let finalRadius := Rmax 0 (radius + radiusVariation) in
  let x := JS.cos finalAngle .* Fin finalRadius in
  let z := JS.sin finalAngle .* Fin finalRadius in
  u5 <- random ;;
  let y := (u5 - 0.5) * 5 * exp (- finalRadius / 30) in
  let positions' := push3 (positions acc) x (Fin y) z in
  let distanceRatio := Fin finalRadius ./ Fin (galaxyRadius galaxyConfig) in
  color <-
    (if distanceRatio .< Fin 0.3 then
       t <- random ;;
       ret (lerpColors (hexColor 0xffffff) (hexColor 0xffddaa) t)
     else if distanceRatio .< Fin 0.7 then
       u <- random ;;
       let colorIndex :=
         JS.floor (u * INR (List.length (starColors galaxyConfig))) in
       ret (styleColor (nth_error (starColors galaxyConfig)
                          (Z.to_nat colorIndex)))
     else
       t <- random ;;
       ret (lerpColors (hexColor 0xaaddff) (hexColor 0x6699cc) t)) ;;
  let colors' :=
    push3 (colors acc) (Fin (cr color)) (Fin (cg color)) (Fin (cb color)) in
  let baseSize := particleSize galaxyConfig in
  u6 <- random ;;
  let sizeVariation := u6 * 2 + 0.5 in
  let distanceSize :=
    if distanceRatio .< Fin 0.3 then 1.5
    else if distanceRatio .< Fin 0.7 then 1.2 else 1.0 in
  let finalSize := baseSize * sizeVariation * distanceSize in
  ret {| positions := positions'; colors := colors';
         sizes := push (sizes acc) (Fin finalSize) |}.

Definition generateSpiralArms (galaxyConfig : GalaxyConfig)
    (armCount tightness : R) : Rand StarData :=
  repeatM (Z.to_nat (starCount galaxyConfig))
    (spiralStar galaxyConfig armCount tightness)
    {| positions := []; colors := []; sizes := [] |}.

(** One iteration of the loop of the viewer's [addCentralBulge]. *)
Definition bulgeStar (galaxyConfig : GalaxyConfig) (acc : StarData)
    : Rand StarData :=
  u1 <- random ;;
  u2 <- random ;;
  let radius := u1 * u2 * coreSize galaxyConfig in
  u3 <- random ;;
  let theta := u3 * 2 * PI in
  u4 <- random ;;
  let phi := acos (2 * u4 - 1) in
  let x := radius * sin phi * cos theta in
  let y := radius * cos phi * 0.3 in
  let z := radius * sin phi * sin theta in
  let positions' := push3 (positions acc) (Fin x) (Fin y) (Fin z) in
  t <- random ;;
  let color := lerpColors (hexColor 0xffaa66) (hexColor 0xff8844) t in
  let colors' :=
    push3 (colors acc) (Fin (cr color)) (Fin (cg color)) (Fin (cb color)) in
  u5 <- random ;;
  let bulgeSize := particleSize galaxyConfig * (1.5 + u5) in
  ret {| positions := positions'; colors := colors';
         sizes := push (sizes acc) (Fin bulgeSize) |}.

Definition addCentralBulge (galaxyConfig : GalaxyConfig)
    (positions colors sizes : list num) (bulgeStars : Z) : Rand StarData :=
  repeatM (Z.to_nat bulgeStars) (bulgeStar galaxyConfig)
    {| positions := positions; colors := colors; sizes := sizes |}.

(** The star arrays of [createGalaxy]: the spiral arms for the configured
    arm count and default tightness, then the bulge with its default of 5000
    stars. *)
Definition createGalaxy (galaxyConfig : GalaxyConfig) : Rand StarData :=
  d <- generateSpiralArms galaxyConfig (armCount galaxyConfig) 0.3 ;;
  addCentralBulge galaxyConfig (positions d) (colors d) (sizes d) 5000.

End Colors.

(** [Math.random()] inside a loop over an index. *)
Fixpoint forRangeM {S : Type} (start n : nat) (body : nat -> S -> Rand S)
    (s : S) : Rand S :=
  match n with
  | O => ret s
  | Datatypes.S n' => s' <- body start s ;; forRangeM (Datatypes.S start) n' body s'
  end.

(** [galaxyConfig.brightness] as a number: NaN when the field is absent. *)
Definition brightnessNumber (galaxyConfig : GalaxyConfig) : num :=
  match brightness galaxyConfig with
  | Some b => Fin b
  | None => NaN
  end.

(** The body of the loop of [addStarBrightnessVariation]; the state is the
    color array of the geometry and the brightness array. *)
Definition brightenStar (galaxyConfig : GalaxyConfig) (positions : list num)
    (i : nat) (s : list num * list num) : Rand (list num * list num) :=
  let (colors, brightness) := s in
  let x := get positions (i * 3) in
  let z := get positions (i * 3 + 2) in
  let radius := JS.sqrt (x .* x .+ z .* z) in
  let baseBrightness :=
    if radius .< Fin (coreSize galaxyConfig) then 1.5
    else if radius .> Fin (galaxyRadius galaxyConfig * 0.7) then 0.6
    else 1.0 in
  u <- random ;;
  let variation := 0.3 + u * 0.7 in
  let brightness' :=
    set brightness i
      (Fin (baseBrightness * variation) .* brightnessNumber galaxyConfig) in
  let brightnessFactor := get brightness' i in
  let colors1 := set colors (i * 3) (get colors (i * 3) .* brightnessFactor) in
  let colors2 :=
    set colors1 (i * 3 + 1) (get colors1 (i * 3 + 1) .* brightnessFactor) in
  let colors3 :=
    set colors2 (i * 3 + 2) (get colors2 (i * 3 + 2) .* brightnessFactor) in
  ret (colors3, brightness').

(** [addStarBrightnessVariation(geometry)]: the colors of the geometry after
    the call, and the brightness array it returns. *)
Definition addStarBrightnessVariation (galaxyConfig : GalaxyConfig)
    (positions colors : list num) : Rand (list num * list num) :=
  let starCount := starsIn positions in
  forRangeM 0 starCount (brightenStar galaxyConfig positions)
    (colors, zeros starCount).

End ViewerGalaxy.

(* ================================================================== *)
(** ** The Svelte viewer: the frame loop and its performance levels *)

Module ViewerLoop.

Inductive level : Type := high | medium | low.

Definition level_eqb (a b : level) : bool :=
  match a, b with
  | high, high | medium, medium | low, low => true
  | _, _ => false
  end.

(** The performance counters of the component, with the two settings the
    performance level drives: the pixel ratio of the renderer and the point
    size of the galaxy's material (both exist once the scene is set up). *)
Record monitor : Type := mkMonitor {
  frameCount : Z;
  lastFpsTime : R;
  currentFps : R;
  performanceLevel : level;
  pixelRatio : R;
  materialSize : R
}.

Section Component.

Variable galaxyConfig : GalaxyConfig.
Variable devicePixelRatio : R.

Definition applyPerformanceSettings (m : monitor) : monitor :=
  match performanceLevel m with
  | low =>
      {| frameCount := frameCount m; lastFpsTime := lastFpsTime m;
         currentFps := currentFps m; performanceLevel := performanceLevel m;
         pixelRatio := Rmin (devicePixelRatio * 0.5) 1;
         materialSize := particleSize galaxyConfig * 0.7 |}
  | medium =>
      {| frameCount := frameCount m; lastFpsTime := lastFpsTime m;
         currentFps := currentFps m; performanceLevel := performanceLevel m;
         pixelRatio := Rmin (devicePixelRatio * 0.75) 1.5;
         materialSize := particleSize galaxyConfig * 0.85 |}
  | high =>
      {| frameCount := frameCount m; lastFpsTime := lastFpsTime m;
         currentFps := currentFps m; performanceLevel := performanceLevel m;
         pixelRatio := Rmin devicePixelRatio 2;
         materialSize := particleSize galaxyConfig |}
  end.

Definition adjustPerformanceLevel (m : monitor) : monitor :=
  let previousLevel := performanceLevel m in
  let performanceLevel' :=
    if Rlt_dec (currentFps m) 20 then low
    else if Rlt_dec (currentFps m) 40 then medium
    else high in
  let m' :=
    {| frameCount := frameCount m; lastFpsTime := lastFpsTime m;
       currentFps := currentFps m; performanceLevel := performanceLevel';
       pixelRatio := pixelRatio m; materialSize := materialSize m |} in
  if level_eqb previousLevel performanceLevel' then m'
  else applyPerformanceSettings m'.

(** [Math.round] *)
Definition round (x : R) : Z := JS.floor (x + 0.5).

Definition updatePerformanceMetrics (currentTime : R) (m : monitor) : monitor :=
  let frameCount' := (frameCount m + 1)%Z in
  if Rle_dec 1000 (currentTime - lastFpsTime m) then
    adjustPerformanceLevel
      {| frameCount := 0; lastFpsTime := currentTime;
         currentFps :=
           IZR (round (IZR frameCount' * 1000 / (currentTime - lastFpsTime m)));
         performanceLevel := performanceLevel m;
         pixelRatio := pixelRatio m; materialSize := materialSize m |}
  else
    {| frameCount := frameCount'; lastFpsTime := lastFpsTime m;
       currentFps := currentFps m; performanceLevel := performanceLevel m;
       pixelRatio := pixelRatio m; materialSize := materialSize m |}.

(** The pixel ratio [handleResize] sets (its changes to the camera and to
    the size of the canvas are left out). *)
Definition handleResize (m : monitor) : monitor :=
  let pixelRatio' :=
    match performanceLevel m with
    | medium => Rmin (devicePixelRatio * 0.75) 1.5
    | low => Rmin (devicePixelRatio * 0.5) 1
    | high => Rmin devicePixelRatio 2
    end in
  {| frameCount := frameCount m; lastFpsTime := lastFpsTime m;
     currentFps := currentFps m; performanceLevel := performanceLevel m;
     pixelRatio := pixelRatio'; materialSize := materialSize m |}.

(** The state the frame loop works on: the time of the previous frame, the
    performance counters, and the rotation data with the position array of
    the geometry. *)
Record loop : Type := mkLoop {
  lastTime : R;
  counters : monitor;
  galaxy : Viewer.starData * list num
}.

(** One call of [animate(currentTime)]. *)
Definition animate (currentTime : R) (l : loop) : loop :=
  let deltaTime := (currentTime - lastTime l) * 0.001 in
  {| lastTime := currentTime;
     counters := updatePerformanceMetrics currentTime (counters l);
     galaxy :=
       if Rlt_dec 0 deltaTime then Viewer.updateGalaxyRotation deltaTime (galaxy l)
       else galaxy l |}.

(** What happens to the component after its scene is set up: animation
    frames, each with its time stamp, and resizes of the window. *)
Inductive event : Type :=
  | Frame (currentTime : R)
  | Resize.

Definition handle (l : loop) (e : event) : loop :=
  match e with
  | Frame currentTime => animate currentTime l
  | Resize =>
      {| lastTime := lastTime l; counters := handleResize (counters l);
         galaxy := galaxy l |}
  end.

Definition run (events : list event) (l : loop) : loop :=
  fold_left handle events l.

End Component.

End ViewerLoop.

(* ================================================================== *)
(** ** The Svelte viewer: device detection and cosmic dust *)

Module ViewerSetup.

(** What [detectDeviceCapabilities] reads from the browser: the result of
    [checkWebGLSupport()], whether the second canvas gives a context, the
    user-agent test, [navigator.deviceMemory] (undefined in some browsers),
    the renderer string (empty when unavailable), and the screen size. *)
Record device : Type := mkDevice {
  hasWebGL : bool;
  glContext : bool;
  isMobile : bool;
  memory : option R;
  gpuInfo : string;
  screenWidth : R;
  screenHeight : R
}.

(** [s.includes(sub)] *)
Definition includes (s sub : string) : bool :=
  match String.index 0 sub s with
  | Some _ => true
  | None => false
  end.

(** [memory && memory < bound]: an undefined or zero memory is falsy. *)
Definition memoryBelow (memory : option R) (bound : R) : bool :=
  match memory with
  | Some m =>
      if Req_dec_T m 0 then false
      else if Rlt_dec m bound then true else false
  | None => false
  end.

(** The performance level and the configuration after
    [detectDeviceCapabilities()]. *)
Definition detectDeviceCapabilities (d : device) (galaxyConfig : GalaxyConfig)
    : ViewerLoop.level * GalaxyConfig :=
  if negb (hasWebGL d) then (ViewerLoop.low, galaxyConfig)
  else if negb (glContext d) then (ViewerLoop.low, galaxyConfig)
  else
    let screenResolution := screenWidth d * screenHeight d in
    let isHighRes := if Rlt_dec 2073600 screenResolution then true else false in
    if isMobile d || memoryBelow (memory d) 2 || includes (gpuInfo d) "Intel"
       || (if Rlt_dec screenResolution 1000000 then true else false) then
      (ViewerLoop.low,
       {| starCount := Z.min (starCount galaxyConfig) 10000;
          armCount := armCount galaxyConfig;
          galaxyRadius := galaxyRadius galaxyConfig;
          rotationSpeed := rotationSpeed galaxyConfig;
          coreSize := coreSize galaxyConfig;
          starColors := starColors galaxyConfig;
          particleSize := Rmax (particleSize galaxyConfig) 0.15;
          brightness := brightness galaxyConfig |})
    else if memoryBelow (memory d) 8 || isHighRes || isMobile d then
      (ViewerLoop.medium,
       {| starCount := Z.min (starCount galaxyConfig) 20000;
          armCount := armCount galaxyConfig;
          galaxyRadius := galaxyRadius galaxyConfig;
          rotationSpeed := rotationSpeed galaxyConfig;
          coreSize := coreSize galaxyConfig;
          starColors := starColors galaxyConfig;
          particleSize := particleSize galaxyConfig;
          brightness := brightness galaxyConfig |})
    else (ViewerLoop.high, galaxyConfig).

(** The arrays [createCosmicDust] fills. *)
Record DustData : Type := mkDustData {
  dustPositions : list num;
  dustColors : list num
}.

Section Colors.

Variable hexColor : Z -> Color.

(** One iteration of the loop of [createCosmicDust]. *)
Definition dustParticle (galaxyConfig : GalaxyConfig) (acc : DustData)
    : Rand DustData :=
  u1 <- random ;;
  let armIndex := JS.floor (u1 * armCount galaxyConfig) in
  let armAngleOffset :=
    Fin (IZR armIndex * 2 * PI) ./ Fin (armCount galaxyConfig) in
  u2 <- random ;;
  let radius := u2 * galaxyRadius galaxyConfig * 1.2 in
  let spiralAngle := armAngleOffset .+ Fin (radius * 0.2) in
  u3 <- random ;;
  let angleVariation := (u3 - 0.5) * 1.5 in
  u4 <- random ;;
  let radiusVariation := (u4 - 0.5) * 20 in
  let finalAngle := spiralAngle .+ Fin angleVariation in
  let finalRadius := Rmax 0 (radius + radiusVariation) in
  let x := JS.cos finalAngle .* Fin finalRadius in
  let z := JS.sin finalAngle .* Fin finalRadius in
  u5 <- random ;;
  let y := (u5 - 0.5) * 15 * exp (- finalRadius / 50) in
  let dustPositions' := Generator.push3 (dustPositions acc) x (Fin y) z in
  t <- random ;;
  let dustColor := lerpColors (hexColor 0x4466ff) (hexColor 0x8844ff) t in
  ret {| dustPositions := dustPositions';
         dustColors :=
           Generator.push3 (dustColors acc) (Fin (cr dustColor))
             (Fin (cg dustColor)) (Fin (cb dustColor)) |}.

Fixpoint repeatDust (n : nat) (body : DustData -> Rand DustData)
    (acc : DustData) : Rand DustData :=
  match n with
  | O => ret acc
  | S n' => acc' <- body acc ;; repeatDust n' body acc'
  end.

Definition createCosmicDust (galaxyConfig : GalaxyConfig) : Rand DustData :=
  let dustCount := JS.floor (IZR (starCount galaxyConfig) * 0.1) in
  repeatDust (Z.to_nat dustCount) (dustParticle galaxyConfig)
    {| dustPositions := []; dustColors := [] |}.

End Colors.

End ViewerSetup.

(* ================================================================== *)
(** * Vocabulary of the statements *)

Import Generator.

(** ** The rotation curve of the specification *)

(** The rotation curve in the specification's words. *)
Definition angularVelocitySpec (radius rotationSpeed : R) : R :=
  if Rlt_dec radius 10 then rotationSpeed * (radius / 10)
  else if Rlt_dec radius 30 then rotationSpeed
  else rotationSpeed * Rpower (30 / radius) 0.3.

(** ** The generator's arrays, star by star *)

(** The seven numbers a loop iteration pushes. *)
Record star : Type := mkStar {
  sx : num; sy : num; sz : num;
  sred : num; sgreen : num; sblue : num;
  ssize : num
}.

Definition appendStar (acc : StarData) (s : star) : StarData :=
  {| positions := push3 (positions acc) (sx s) (sy s) (sz s);
     colors := push3 (colors acc) (sred s) (sgreen s) (sblue s);
     sizes := push (sizes acc) (ssize s) |}.

Definition appendStars (acc : StarData) (l : list star) : StarData :=
  fold_left appendStar l acc.

Definition noStars : StarData := {| positions := []; colors := []; sizes := [] |}.

Definition firstStar (d : StarData) : star :=
  {| sx := get (positions d) 0; sy := get (positions d) 1;
     sz := get (positions d) 2;
     sred := get (colors d) 0; sgreen := get (colors d) 1;
     sblue := get (colors d) 2;
     ssize := get (sizes d) 0 |}.

(** A loop body that pushes one star onto whatever arrays it is given, the
    star and the draws consumed not depending on those arrays. *)
Definition appendsOne (body : StarData -> Rand StarData) : Prop :=
  forall acc rnd k,
    body acc rnd k
    = (appendStar acc (firstStar (fst (body noStars rnd k))),
       snd (body noStars rnd k)).

(** The stars [n] iterations push, and the index of the draw after them. *)
Fixpoint starsOf (body : StarData -> Rand StarData) (n : nat)
    (rnd : nat -> R) (k : nat) : list star * nat :=
  match n with
  | O => ([], k)
  | S n' =>
      let (d, k') := body noStars rnd k in
      let (l, k'') := starsOf body n' rnd k' in
      (firstStar d :: l, k'')
  end.

Definition xyz (s : star) : list num := [sx s; sy s; sz s].
Definition rgb (s : star) : list num := [sred s; sgreen s; sblue s].

Definition nanStar : star := mkStar NaN NaN NaN NaN NaN NaN NaN.

(** ** Distances *)

(** Distance of a point from the origin. *)
Definition norm3 (x y z : R) : R := sqrt (x * x + y * y + z * z).

(** Distance of a point from the vertical (y) axis. *)
Definition axisDistance (x z : R) : R := sqrt (x * x + z * z).

(** What holds of a star of the bulge. *)
Definition bulgeStarOk (config : GalaxyConfig) (s : star) : Prop :=
  exists x y z size,
    sx s = Fin x /\ sy s = Fin y /\ sz s = Fin z /\ ssize s = Fin size
    /\ norm3 x y z <= coreSize config * 1.2
    /\ particleSize config < size.

(** ** The polar coordinates of a spiral-arm star *)

(** The radius of the star generated from draw [k] on, after jitter and
    clamping. *)
Definition finalRadiusAt (config : GalaxyConfig) (rnd : nat -> R) (k : nat) : R :=
  Rmax 0 (rnd (S k) * galaxyRadius config + (rnd (S (S (S k))) - 0.5) * 10).

(** Its angle. *)
Definition finalAngleAt (config : GalaxyConfig) (t : R) (rnd : nat -> R)
    (k : nat) : num :=
  Fin (IZR (JS.floor (rnd k * armCount config)) * 2 * PI) ./ Fin (armCount config)
  .+ Fin (rnd (S k) * galaxyRadius config * t)
  .+ Fin ((rnd (S (S k)) - 0.5) * 0.5) .* (Fin 3 ./ Fin (armCount config)).

(** ** Variants of a configuration, scaled colours *)

(** [{ ...config, brightness: b }] *)
Definition withBrightness (config : GalaxyConfig) (b : option R) : GalaxyConfig :=
  {| starCount := starCount config;
     armCount := armCount config;
     galaxyRadius := galaxyRadius config;
     rotationSpeed := rotationSpeed config;
     coreSize := coreSize config;
     starColors := starColors config;
     particleSize := particleSize config;
     brightness := b |}.



(** ** Concrete colours, configurations and draws *)

(** [THREE.Color.setHex]: the three bytes of the literal, each over 255. *)
Definition hexRGB (h : Z) : Color :=
  {| cr := IZR (Z.land (Z.shiftr h 16) 255) / 255;
     cg := IZR (Z.land (Z.shiftr h 8) 255) / 255;
     cb := IZR (Z.land h 255) / 255 |}.

Definition hexDigit (c : Ascii.ascii) : option Z :=
  let n := Z.of_nat (Ascii.nat_of_ascii c) in
  if ((48 <=? n) && (n <=? 57))%Z then Some (n - 48)%Z
  else if ((97 <=? n) && (n <=? 102))%Z then Some (n - 87)%Z
  else if ((65 <=? n) && (n <=? 70))%Z then Some (n - 55)%Z
  else None.

Fixpoint parseHex (s : string) (acc : Z) : option Z :=
  match s with
  | EmptyString => Some acc
  | String c s' =>
      match hexDigit c with
      | Some d => parseHex s' (16 * acc + d)%Z
      | None => None
      end
  end.

(** [new THREE.Color(style)] for the "#rrggbb" strings of the configuration;
    anything else, [undefined] included, leaves the colour white. *)
Definition styleRGB (style : option string) : Color :=
  match style with
  | Some (String "#"%char digits) =>
      match parseHex digits 0 with
      | Some h => hexRGB h
      | None => hexRGB 0xffffff
      end
  | _ => hexRGB 0xffffff
  end.

(** [DEFAULT_GALAXY_CONFIG] of src/lib/types/galaxy.ts. *)
Definition DEFAULT_GALAXY_CONFIG : GalaxyConfig :=
  {| starCount := 25000;
     armCount := 4;
     galaxyRadius := 100;
     rotationSpeed := 0.1;
     coreSize := 3.5;
     starColors := ["#ffffff"%string; "#ffddaa"%string; "#aaddff"%string];
     particleSize := 0.1;
     brightness := Some 1.0 |}.

(** [{ ...DEFAULT_GALAXY_CONFIG, starCount: n }] *)
Definition withStarCount (config : GalaxyConfig) (n : Z) : GalaxyConfig :=
  {| starCount := n;
     armCount := armCount config;
     galaxyRadius := galaxyRadius config;
     rotationSpeed := rotationSpeed config;
     coreSize := coreSize config;
     starColors := starColors config;
     particleSize := particleSize config;
     brightness := brightness config |}.

Definition withArmCount (config : GalaxyConfig) (a : R) : GalaxyConfig :=
  {| starCount := starCount config;
     armCount := a;
     galaxyRadius := galaxyRadius config;
     rotationSpeed := rotationSpeed config;
     coreSize := coreSize config;
     starColors := starColors config;
     particleSize := particleSize config;
     brightness := brightness config |}.

Definition withGalaxyRadius (config : GalaxyConfig) (r : R) : GalaxyConfig :=
  {| starCount := starCount config;
     armCount := armCount config;
     galaxyRadius := r;
     rotationSpeed := rotationSpeed config;
     coreSize := coreSize config;
     starColors := starColors config;
     particleSize := particleSize config;
     brightness := brightness config |}.

(** The draws listed, then 0.5 for ever. *)
Definition drawsOf (l : list R) : nat -> R := fun k => nth k l 0.5.

Definition halves : nat -> R := drawsOf [].

(** ** A galaxy of one star *)

(** The default configuration with a single star, and the draws that put it
    on the x axis at radius 4: arm 0, base radius 0, no angular jitter,
    radial jitter +4; [u5] is the draw of the vertical displacement. *)
Definition oneStarConfig : GalaxyConfig := withStarCount DEFAULT_GALAXY_CONFIG 1.

Definition oneStarDraws (u5 : R) : nat -> R := drawsOf [0; 0; 0.5; 0.9; u5].

Definition oneStarGalaxy (u5 : R) : Renderer.state :=
  fst (Renderer.generateGalaxy hexRGB styleRGB oneStarConfig (oneStarDraws u5) 0%nat).

(** The height of that star. *)
Definition oneStarY (u5 : R) : R := (u5 - 0.5) * 5 * exp (- 4 / 30).

(** The radius the orchestrator stores for that star. *)
Definition oneStarRadius (u5 : R) : R := sqrt (4 * 4 + oneStarY u5 * oneStarY u5).

(** ** Frames *)

(** The x and z a frame gives a star, from its stored radius and angular
    velocity and its current x and z. *)
Definition rotated (radius w : num) (t : R) (x z : num) : num * num :=
  if radius .< Fin 0.1 then (x, z)
  else (JS.cos (JS.atan2 z x .+ Fin t .* w) .* radius,
        JS.sin (JS.atan2 z x .+ Fin t .* w) .* radius).

(** Total time of a list of frame deltas. *)
Definition totalTime (deltas : list R) : R := fold_right Rplus 0 deltas.

(** Star [i] of a viewer state: within the arrays, with stored radius [rho],
    angular velocity [w] and current angle [theta]. *)
Definition viewerStar (s : Viewer.starData * list num) (i : nat)
    (rho w theta : R) : Prop :=
  (i < List.length (Viewer.radii (fst s)))%nat
  /\ List.length (Viewer.angles (fst s)) = List.length (Viewer.radii (fst s))
  /\ (3 * List.length (Viewer.radii (fst s)) <= List.length (snd s))%nat
  /\ get (Viewer.radii (fst s)) i = Fin rho
  /\ get (Viewer.angularVelocities (fst s)) i = Fin w
  /\ get (Viewer.angles (fst s)) i = Fin theta.

(** Rotation of [(x, z)] about the vertical axis by the angle [a]. *)
Definition rotX (a x z : R) : R := x * cos a - z * sin a.
Definition rotZ (a x z : R) : R := z * cos a + x * sin a.

(** Star [i] of an orchestrator state: within the arrays, at [(x, _, z)],
    moved by the frames (stored radius at least 0.1), its stored radius being
    its distance to the axis. *)
Definition movingStar (s : Renderer.state) (i : nat) (x z w : R) : Prop :=
  (i < starsIn (Renderer.positions s))%nat
  /\ get (Renderer.positions s) (i * 3) = Fin x
  /\ get (Renderer.positions s) (i * 3 + 2) = Fin z
  /\ get (Renderer.rotationRadii s) i = Fin (axisDistance x z)
  /\ 0.1 <= axisDistance x z
  /\ get (Renderer.angularVelocities s) i = Fin w.

(** ** Frustum planes and bucket entries *)

(** [THREE.Plane] and [THREE.Frustum.containsPoint], library code: a point is
    inside when it is not at a negative distance from any plane. *)
Record Plane : Type := mkPlane { nx : R; ny : R; nz : R; constant : R }.

Definition distanceToPoint (pl : Plane) (p : Optimizer.Vector3) : num :=
  Fin (nx pl) .* Optimizer.vx p .+ Fin (ny pl) .* Optimizer.vy p
  .+ Fin (nz pl) .* Optimizer.vz p .+ Fin (constant pl).

Definition containsPoint (planes : list Plane) (p : Optimizer.Vector3) : bool :=
  forallb (fun pl => negb (distanceToPoint pl p .< Fin 0)) planes.

(** The near plane of a camera at [(cx, cy, cz)] that looks down the negative
    z axis, [near] in front of it. *)
Definition nearPlane (cz near : R) : Plane :=
  {| nx := 0; ny := 0; nz := -1; constant := cz - near |}.

(** The entry [processStar] files for star [i]. *)
Definition entryOf (cameraPosition : Optimizer.Vector3)
    (positions colors sizes : list num) (i : nat) : Optimizer.entry :=
  let position :=
    Optimizer.mkVector3 (get positions (i * 3)) (get positions (i * 3 + 1))
      (get positions (i * 3 + 2)) in
  {| Optimizer.position := position;
     Optimizer.color := (get colors (i * 3), get colors (i * 3 + 1),
                         get colors (i * 3 + 2));
     Optimizer.size := get sizes i;
     Optimizer.distance := Optimizer.distanceTo position cameraPosition |}.

Definition filedAt (c : option nat) (level : nat) : bool :=
  match c with
  | Some l => Nat.eqb l level
  | None => false
  end.

(** A camera on the z axis at distance 100, looking at the origin, with the
    near distance 0.1 of the orchestrator's camera; of its frustum, the near
    plane. *)
Definition axisCamera : Optimizer.Vector3 :=
  Optimizer.mkVector3 (Fin 0) (Fin 0) (Fin 100).

Definition axisFrustum : Optimizer.Vector3 -> bool :=
  containsPoint [nearPlane 100 0.1].

(** ** Reading a star back from the arrays *)

(** Star [i] of the arrays, counted from the offsets [p], [c] and [s] in
    positions, colors and sizes. *)
Definition starAtFrom (d : StarData) (p c s i : nat) : star :=
  {| sx := get (positions d) (p + i * 3);
     sy := get (positions d) (p + (i * 3 + 1));
     sz := get (positions d) (p + (i * 3 + 2));
     sred := get (colors d) (c + i * 3);
     sgreen := get (colors d) (c + (i * 3 + 1));
     sblue := get (colors d) (c + (i * 3 + 2));
     ssize := get (sizes d) (s + i) |}.

Definition starAt (d : StarData) (i : nat) : star := starAtFrom d 0 0 0 i.

(** ** The mesh of a level after a frame *)

(** The mesh a level has once [n] stars have been submitted for it, from the
    mesh it had before. *)
Definition submitted (lodLevel : nat) (old : option Batches.InstancedMesh)
    (n : nat) : Batches.InstancedMesh :=
  match old with
  | Some mesh =>
      {| Batches.segments := Batches.segments mesh;
         Batches.capacity := Batches.capacity mesh;
         Batches.count := n;
         Batches.inScene := true |}
  | None =>
      {| Batches.segments := Batches.geometrySegments lodLevel;
         Batches.capacity := n;
         Batches.count := n;
         Batches.inScene := true |}
  end.

(** The mesh left by "Clear previous instanced meshes from scene". *)
Definition cleared (mesh : Batches.InstancedMesh) : Batches.InstancedMesh :=
  {| Batches.segments := Batches.segments mesh;
     Batches.capacity := Batches.capacity mesh;
     Batches.count := 0;
     Batches.inScene := false |}.

(** The inputs of a frame of the optimizer. *)
Record frameInput : Type := mkFrameInput {
  fVisible : Optimizer.Vector3 -> bool;
  fCamera : Optimizer.Vector3;
  fPositions : list num;
  fColors : list num;
  fSizes : list num
}.

Definition optimizerFrames (inputs : list frameInput) (m : Batches.meshes)
    : Batches.meshes :=
  fold_left
    (fun m f =>
       Batches.optimizeStarRendering (fVisible f) (fCamera f) (fPositions f)
         (fColors f) (fSizes f) m)
    inputs m.

(** ** Configurations that differ in the star count only *)

Definition sameButStarCount (c c' : GalaxyConfig) : Prop :=
  armCount c' = armCount c /\ galaxyRadius c' = galaxyRadius c
  /\ rotationSpeed c' = rotationSpeed c /\ coreSize c' = coreSize c
  /\ starColors c' = starColors c /\ particleSize c' = particleSize c
  /\ brightness c' = brightness c.

(** What a run of the callback keeps and changes. *)
Definition monitorStep (s s' : Performance.state) (k k' : nat) : Prop :=
  let c := Renderer.galaxyConfig (Performance.renderer s) in
  let c' := Renderer.galaxyConfig (Performance.renderer s') in
  sameButStarCount c c'
  /\ (starCount c' <= starCount c)%Z
  /\ ((starCount c <= 10000)%Z ->
      Performance.renderer s' = Performance.renderer s /\ k' = k)
  /\ ((10000 < starCount c)%Z -> (5000 <= starCount c')%Z)
  /\ ((Performance.lowPerformanceMode s = true -> Performance.pixelRatio s = 1) ->
      Performance.lowPerformanceMode s' = true -> Performance.pixelRatio s' = 1).

(** ** The viewer's frame loop *)

(** The time stamps of the animation frames among the events. *)
Definition frameTimes (events : list ViewerLoop.event) : list R :=
  flat_map (fun e => match e with
                     | ViewerLoop.Frame t => [t]
                     | ViewerLoop.Resize => []
                     end) events.

(** Time stamps that never go back, from [t0] on. *)
Fixpoint ascending (t0 : R) (times : list R) : Prop :=
  match times with
  | [] => True
  | t :: rest => t0 <= t /\ ascending t rest
  end.

(** Star [i] of a viewer state stands at the angle [theta] of its circle of
    radius [rho]. *)
Definition viewerStarAt (s : Viewer.starData * list num) (i : nat)
    (rho w theta : R) : Prop :=
  viewerStar s i rho w theta
  /\ get (snd s) (i * 3) = Fin (cos theta * rho)
  /\ get (snd s) (i * 3 + 2) = Fin (sin theta * rho).

(** The settings of a performance level are in force: the pixel ratio is the
    one a resize would set, the point size the one of the level. *)
Definition settled (galaxyConfig : GalaxyConfig) (devicePixelRatio : R)
    (m : ViewerLoop.monitor) : Prop :=
  ViewerLoop.pixelRatio m
  = ViewerLoop.pixelRatio (ViewerLoop.handleResize devicePixelRatio m)
  /\ ViewerLoop.materialSize m
     = ViewerLoop.materialSize
         (ViewerLoop.applyPerformanceSettings galaxyConfig devicePixelRatio m).

(** ** The brightness variation of the viewer *)

(** What [addStarBrightnessVariation] leaves for star [i], the draws starting
    at [k]: a brightness that is a base of 0.6, 1 or 1.5 times a variation in
    [0.3, 1) times the configured brightness, and the star's color times it. *)
Definition brightened (galaxyConfig : GalaxyConfig) (rnd : nat -> R) (k : nat)
    (colors colors' brightness : list num) (i : nat) : Prop :=
  exists base,
    (base = 0.6 \/ base = 1 \/ base = 1.5)
    /\ get brightness i
       = Fin (base * (0.3 + rnd (k + i)%nat * 0.7))
         .* ViewerGalaxy.brightnessNumber galaxyConfig
    /\ get colors' (i * 3) = get colors (i * 3) .* get brightness i
    /\ get colors' (i * 3 + 1) = get colors (i * 3 + 1) .* get brightness i
    /\ get colors' (i * 3 + 2) = get colors (i * 3 + 2) .* get brightness i.

(** ** Arrays of triples *)

(** Every triple [(a[3i], a[3i+1], a[3i+2])] of an array satisfies [P]. *)
Fixpoint triples (P : num -> num -> num -> Prop) (a : list num) : Prop :=
  match a with
  | [] => True
  | x :: y :: z :: rest => P x y z /\ triples P rest
  | _ => False
  end.

(** A dust particle of a galaxy of radius [R]: real coordinates, less than
    [1.2 R + 10] from the vertical axis, at a height of at most
    [7.5 exp(-d / 50)] for its distance [d] to the axis. *)
Definition dustParticleOk (galaxyConfig : GalaxyConfig) (x y z : num) : Prop :=
  exists x' y' z',
    x = Fin x' /\ y = Fin y' /\ z = Fin z'
    /\ axisDistance x' z' < galaxyRadius galaxyConfig * 1.2 + 10
    /\ Rabs y' <= 7.5 * exp (- axisDistance x' z' / 50)
    /\ Rabs y' <= 7.5.

(** ** Colors before the brightness is applied *)









(* ================================================================== *)
(** * Properties *)

(** ** Arithmetic on [num] *)

(** Decimal literals as quotients of integers, for [ring] and [field]. *)
Ltac decimals := cbv [Q2R QArith_base.Qnum QArith_base.Qden] in *.

Lemma lt_fin (x y : R) : (Fin x .< Fin y) = true <-> x < y.
Proof.
  unfold JS.lt. destruct (Rlt_dec x y); split; intros H;
    try assumption; try reflexivity; [discriminate | contradiction].
Qed.

Lemma lt_fin_true (x y : R) : x < y -> (Fin x .< Fin y) = true.
Proof. apply lt_fin. Qed.

Lemma lt_fin_false (x y : R) : y <= x -> (Fin x .< Fin y) = false.
Proof.
  intros H. unfold JS.lt. destruct (Rlt_dec x y); [lra | reflexivity].
Qed.

Lemma div_fin (x y : R) : y <> 0 -> Fin x ./ Fin y = Fin (x / y).
Proof.
  intros H. unfold JS.div. destruct (Req_dec_T y 0); [contradiction | reflexivity].
Qed.

Lemma div_zero (x : R) : Fin x ./ Fin 0 = NaN.
Proof.
  unfold JS.div. destruct (Req_dec_T 0 0) as [_ | H]; [reflexivity | now elim H].
Qed.

Lemma sqrt_fin (x : R) : 0 <= x -> JS.sqrt (Fin x) = Fin (sqrt x).
Proof.
  intros H. unfold JS.sqrt. destruct (Rlt_dec x 0); [lra | reflexivity].
Qed.

Lemma pow_fin (x e : R) : 0 < x -> JS.pow (Fin x) e = Fin (Rpower x e).
Proof.
  intros H. unfold JS.pow. destruct (Rlt_dec 0 x); [reflexivity | lra].
Qed.

(** ** The rotation curve *)

Lemma calculateAngularVelocity_fin (r s : R) :
  Generator.calculateAngularVelocity (Fin r) s = Fin (angularVelocitySpec r s).
Proof.
  unfold Generator.calculateAngularVelocity, angularVelocitySpec.
  destruct (Rlt_dec r 10) as [H10 | H10].
  - rewrite lt_fin_true by assumption. rewrite div_fin by lra. reflexivity.
  - rewrite lt_fin_false by lra.
    destruct (Rlt_dec r 30) as [H30 | H30].
    + rewrite lt_fin_true by assumption. reflexivity.
    + rewrite lt_fin_false by lra. rewrite div_fin by lra.
      rewrite pow_fin; [reflexivity |].
      apply Rdiv_lt_0_compat; lra.
Qed.

Lemma viewer_calculateAngularVelocity (config : GalaxyConfig) (radius : num) :
  Viewer.calculateAngularVelocity config radius
  = Generator.calculateAngularVelocity radius (rotationSpeed config).
Proof. reflexivity. Qed.

Lemma outer_factor_decreasing (r1 r2 : R) :
  30 <= r1 -> r1 < r2 -> Rpower (30 / r2) 0.3 < Rpower (30 / r1) 0.3.
Proof.
  intros H1 H2. apply Rlt_Rpower_l; [lra |]. split.
  - apply Rdiv_lt_0_compat; lra.
  - unfold Rdiv. apply Rmult_lt_compat_l; [lra |].
    apply Rinv_lt_contravar; [| assumption].
    apply Rmult_lt_0_compat; lra.
Qed.

Lemma Rpower_pos (x y : R) : 0 < Rpower x y.
Proof. unfold Rpower. apply exp_pos. Qed.

(** C4. [calculateAngularVelocity] is the piecewise curve of the
    specification: [rotationSpeed * (radius / 10)] below 10 (so 0 at radius
    0), [rotationSpeed] on [10, 30), [rotationSpeed * (30 / radius) ^ 0.3]
    from 30 on; for a positive rotation speed it is strictly decreasing and
    nonzero on radius >= 30; for a fixed radius it is linear in the rotation
    speed. *)
Theorem calculateAngularVelocity_piecewise :
  (forall r s, Generator.calculateAngularVelocity (Fin r) s
               = Fin (angularVelocitySpec r s))
  /\ (forall r s, r < 10 ->
        Generator.calculateAngularVelocity (Fin r) s = Fin (s * (r / 10)))
  /\ (forall s, Generator.calculateAngularVelocity (Fin 0) s = Fin 0)
  /\ (forall r s, 10 <= r < 30 ->
        Generator.calculateAngularVelocity (Fin r) s = Fin s)
  /\ (forall r s, 30 <= r ->
        Generator.calculateAngularVelocity (Fin r) s
        = Fin (s * Rpower (30 / r) 0.3))
  /\ (forall r1 r2 s, 0 < s -> 30 <= r1 -> r1 < r2 ->
        exists v1 v2,
          Generator.calculateAngularVelocity (Fin r1) s = Fin v1
          /\ Generator.calculateAngularVelocity (Fin r2) s = Fin v2
          /\ v2 < v1 /\ 0 < v2)
  /\ (forall r s1 s2 a b,
        Generator.calculateAngularVelocity (Fin r) (a * s1 + b * s2)
        = Fin a .* Generator.calculateAngularVelocity (Fin r) s1
          .+ Fin b .* Generator.calculateAngularVelocity (Fin r) s2).
Proof.
  refine (conj _ (conj _ (conj _ (conj _ (conj _ (conj _ _)))))).
  - apply calculateAngularVelocity_fin.
  - intros r s H. rewrite calculateAngularVelocity_fin.
    unfold angularVelocitySpec. destruct (Rlt_dec r 10); [reflexivity | lra].
  - intros s. rewrite calculateAngularVelocity_fin.
    unfold angularVelocitySpec. destruct (Rlt_dec 0 10); [f_equal; lra | lra].
  - intros r s [H1 H2]. rewrite calculateAngularVelocity_fin.
    unfold angularVelocitySpec.
    destruct (Rlt_dec r 10); [lra |]. destruct (Rlt_dec r 30); [reflexivity | lra].
  - intros r s H. rewrite calculateAngularVelocity_fin.
    unfold angularVelocitySpec.
    destruct (Rlt_dec r 10); [lra |]. destruct (Rlt_dec r 30); [lra | reflexivity].
  - intros r1 r2 s Hs H1 H2.
    exists (s * Rpower (30 / r1) 0.3), (s * Rpower (30 / r2) 0.3).
    rewrite !calculateAngularVelocity_fin. unfold angularVelocitySpec.
    destruct (Rlt_dec r1 10); [lra |]. destruct (Rlt_dec r1 30); [lra |].
    destruct (Rlt_dec r2 10); [lra |]. destruct (Rlt_dec r2 30); [lra |].
    split; [reflexivity |]. split; [reflexivity |]. split.
    + apply Rmult_lt_compat_l; [assumption |].
      apply outer_factor_decreasing; assumption.
    + apply Rmult_lt_0_compat; [assumption | apply Rpower_pos].
  - intros r s1 s2 a b. rewrite !calculateAngularVelocity_fin. simpl.
    f_equal. unfold angularVelocitySpec.
    destruct (Rlt_dec r 10); [lra |]. destruct (Rlt_dec r 30); lra.
Qed.

(** The curve at radius 40 and 80 with the default rotation speed, as in the
    repository's test of the outer region. *)
Lemma calculateAngularVelocity_piecewise_witness :
  exists v1 v2,
    Generator.calculateAngularVelocity (Fin 40) 0.1 = Fin v1
    /\ Generator.calculateAngularVelocity (Fin 80) 0.1 = Fin v2
    /\ v2 < v1 /\ 0 < v2.
Proof.
  destruct calculateAngularVelocity_piecewise as (_ & _ & _ & _ & _ & H & _).
  apply (H 40 80 0.1); lra.
Defined.

(* ================================================================== *)
(** ** The generator's arrays, star by star *)

Lemma repeatM_stars (body : StarData -> Rand StarData) :
  appendsOne body ->
  forall n acc rnd k,
    repeatM n body acc rnd k
    = (appendStars acc (fst (starsOf body n rnd k)),
       snd (starsOf body n rnd k)).
Proof.
  intros Hb. induction n as [| n IH]; intros acc rnd k; simpl.
  - reflexivity.
  - unfold bind. rewrite Hb.
    destruct (body noStars rnd k) as [d k'] eqn:Ed. simpl.
    rewrite IH. destruct (starsOf body n rnd k') as [l k'']. reflexivity.
Qed.

Lemma starsOf_length body n rnd k :
  List.length (fst (starsOf body n rnd k)) = n.
Proof.
  revert k. induction n as [| n IH]; intros k; simpl; [reflexivity |].
  destruct (body noStars rnd k) as [d k']. specialize (IH k').
  destruct (starsOf body n rnd k'). simpl in *. now rewrite IH.
Qed.

Lemma starsOf_Forall body (P : star -> Prop) rnd :
  (forall k, P (firstStar (fst (body noStars rnd k)))) ->
  forall n k, Forall P (fst (starsOf body n rnd k)).
Proof.
  intros HP. induction n as [| n IH]; intros k; simpl; [constructor |].
  specialize (HP k). destruct (body noStars rnd k) as [d k'].
  specialize (IH k'). destruct (starsOf body n rnd k'). simpl in *.
  constructor; assumption.
Qed.

Lemma appendStars_positions l : forall acc,
  positions (appendStars acc l) = positions acc ++ flat_map xyz l.
Proof.
  induction l as [| s l IH]; intros acc; simpl.
  - now rewrite app_nil_r.
  - rewrite IH. simpl. unfold push3. now rewrite <- app_assoc.
Qed.

Lemma appendStars_colors l : forall acc,
  colors (appendStars acc l) = colors acc ++ flat_map rgb l.
Proof.
  induction l as [| s l IH]; intros acc; simpl.
  - now rewrite app_nil_r.
  - rewrite IH. simpl. unfold push3. now rewrite <- app_assoc.
Qed.

Lemma appendStars_sizes l : forall acc,
  sizes (appendStars acc l) = sizes acc ++ map ssize l.
Proof.
  induction l as [| s l IH]; intros acc; simpl.
  - now rewrite app_nil_r.
  - rewrite IH. simpl. unfold push. now rewrite <- app_assoc.
Qed.

Lemma flat_map_xyz_length l : List.length (flat_map xyz l) = (3 * List.length l)%nat.
Proof. induction l; simpl; lia. Qed.

Lemma flat_map_rgb_length l : List.length (flat_map rgb l) = (3 * List.length l)%nat.
Proof. induction l; simpl; lia. Qed.

Lemma get_app_r (a b : list num) (i : nat) :
  get (a ++ b) (List.length a + i) = get b i.
Proof.
  unfold get. rewrite app_nth2 by lia. f_equal. lia.
Qed.

Lemma get_app_l (a b : list num) (i : nat) :
  (i < List.length a)%nat -> get (a ++ b) i = get a i.
Proof. intros H. unfold get. now apply app_nth1. Qed.

Lemma get_xyz l : forall i, (i < List.length l)%nat ->
  get (flat_map xyz l) (i * 3) = sx (nth i l nanStar)
  /\ get (flat_map xyz l) (i * 3 + 1) = sy (nth i l nanStar)
  /\ get (flat_map xyz l) (i * 3 + 2) = sz (nth i l nanStar).
Proof.
  induction l as [| s l IH]; intros i Hi; simpl in Hi; [lia |].
  destruct i as [| i].
  - simpl. auto.
  - assert (Hi' : (i < List.length l)%nat) by lia.
    destruct (IH i Hi') as (Hx & Hy & Hz).
    replace (S i * 3)%nat with (3 + i * 3)%nat by lia.
    simpl. unfold get in *. simpl in *. auto.
Qed.

Lemma get_rgb l : forall i, (i < List.length l)%nat ->
  get (flat_map rgb l) (i * 3) = sred (nth i l nanStar)
  /\ get (flat_map rgb l) (i * 3 + 1) = sgreen (nth i l nanStar)
  /\ get (flat_map rgb l) (i * 3 + 2) = sblue (nth i l nanStar).
Proof.
  induction l as [| s l IH]; intros i Hi; simpl in Hi; [lia |].
  destruct i as [| i].
  - simpl. auto.
  - assert (Hi' : (i < List.length l)%nat) by lia.
    destruct (IH i Hi') as (Hx & Hy & Hz).
    replace (S i * 3)%nat with (3 + i * 3)%nat by lia.
    simpl. unfold get in *. simpl in *. auto.
Qed.

Lemma get_sizes l i : (i < List.length l)%nat ->
  get (map ssize l) i = ssize (nth i l nanStar).
Proof.
  intros Hi. unfold get.
  rewrite (nth_indep _ NaN (ssize nanStar)) by now rewrite length_map.
  apply map_nth.
Qed.

Lemma bulgeStar_appendsOne hexColor config :
  appendsOne (bulgeStar hexColor config).
Proof. intros acc rnd k. reflexivity. Qed.

Lemma spiralStar_appendsOne hexColor styleColor config t :
  appendsOne (spiralStar hexColor styleColor config t).
Proof.
  intros acc rnd k.
  cbv [spiralStar bind ret random pickStarColor].
  repeat match goal with
         | |- context [if ?c then _ else _] => destruct c
         end; reflexivity.
Qed.

(* ================================================================== *)
(** ** addCentralBulge *)

Lemma sqrt_le_bound (a b : R) : 0 <= b -> a <= b * b -> sqrt a <= b.
Proof.
  intros Hb Ha. rewrite <- (sqrt_square b Hb).
  apply sqrt_le_1_alt. assumption.
Qed.

Lemma sin_cos_sq (t : R) : sin t * sin t + cos t * cos t = 1.
Proof. generalize (sin2_cos2 t). unfold Rsqr. auto. Qed.

Lemma bulgeStar_ok hexColor config rnd :
  unitDraws rnd -> 0 <= coreSize config -> 0 < particleSize config ->
  forall k,
    bulgeStarOk config (firstStar (fst (bulgeStar hexColor config noStars rnd k))).
Proof.
  intros Hr Hc Hp k.
  cbv [bulgeStar bind ret random firstStar fst positions sizes colors
       push3 push get app nth sx sy sz ssize bulgeStarOk].
  do 4 eexists. do 4 (split; [reflexivity |]).
  pose proof (Hr k) as H1. pose proof (Hr (S k)) as H2.
  pose proof (Hr (S (S (S (S (S k)))))) as H5.
  set (r := rnd k * rnd (S k) * coreSize config).
  set (phi := acos (2 * rnd (S (S (S k))) - 1)).
  set (theta := rnd (S (S k)) * 2 * PI).
  assert (Hr0 : 0 <= r <= coreSize config).
  { unfold r. split.
    - apply Rmult_le_pos; [apply Rmult_le_pos |]; lra.
    - assert (rnd k * rnd (S k) <= 1) by nra.
      assert (0 <= rnd k * rnd (S k)) by nra. nra. }
  split.
  - unfold norm3. apply sqrt_le_bound; [lra |].
    pose proof (sin_cos_sq phi) as Hphi. pose proof (sin_cos_sq theta) as Hth.
    replace (r * sin phi * cos theta * (r * sin phi * cos theta)
             + r * cos phi * 0.3 * (r * cos phi * 0.3)
             + r * sin phi * sin theta * (r * sin phi * sin theta))
      with (r * r * (sin phi * sin phi * (sin theta * sin theta + cos theta * cos theta)
                     + 0.09 * (cos phi * cos phi))) by (decimals; field).
    rewrite Hth.
    assert (0 <= cos phi * cos phi) by nra.
    assert (0 <= sin phi * sin phi) by nra.
    assert (sin phi * sin phi * 1 + 0.09 * (cos phi * cos phi) <= 1) by lra.
    assert (0 <= r * r) by nra.
    assert (r * r <= coreSize config * coreSize config) by nra.
    nra.
  - nra.
Qed.

(** C8. [addCentralBulge] appends exactly [N] stars: the arrays passed in are
    prefixes of the arrays returned, which are longer by 3N, 3N and N; every
    appended star is finite, within [coreSize * 1.2] of the origin and
    strictly larger than [particleSize]; with N = 0 nothing changes and no
    random number is drawn. *)
Theorem addCentralBulge_appends hexColor config ps cs ss (N : Z) rnd k :
  unitDraws rnd -> 0 <= coreSize config -> 0 < particleSize config ->
  (0 <= N)%Z ->
  let out := fst (addCentralBulge hexColor config ps cs ss N rnd k) in
  (exists ps' cs' ss',
      positions out = ps ++ ps' /\ colors out = cs ++ cs'
      /\ sizes out = ss ++ ss'
      /\ Z.of_nat (List.length ps') = (3 * N)%Z
      /\ Z.of_nat (List.length cs') = (3 * N)%Z
      /\ Z.of_nat (List.length ss') = N)
  /\ (forall i, (Z.of_nat i < N)%Z ->
        exists x y z size,
          get (positions out) (List.length ps + i * 3) = Fin x
          /\ get (positions out) (List.length ps + (i * 3 + 1)) = Fin y
          /\ get (positions out) (List.length ps + (i * 3 + 2)) = Fin z
          /\ get (sizes out) (List.length ss + i) = Fin size
          /\ norm3 x y z <= coreSize config * 1.2
          /\ particleSize config < size)
  /\ (N = 0%Z ->
        addCentralBulge hexColor config ps cs ss N rnd k
        = ({| positions := ps; colors := cs; sizes := ss |}, k)).
Proof.
  intros Hr Hc Hp HN out.
  unfold addCentralBulge in *.
  pose proof (repeatM_stars _ (bulgeStar_appendsOne hexColor config)
                (Z.to_nat N) {| positions := ps; colors := cs; sizes := ss |}
                rnd k) as Hrun.
  pose proof (starsOf_length (bulgeStar hexColor config) (Z.to_nat N) rnd k) as Hlen.
  pose proof (starsOf_Forall (bulgeStar hexColor config) (bulgeStarOk config) rnd
                (bulgeStar_ok hexColor config rnd Hr Hc Hp) (Z.to_nat N) k) as Hall.
  subst out. rewrite Hrun. simpl fst.
  set (l := fst (starsOf (bulgeStar hexColor config) (Z.to_nat N) rnd k)) in *.
  rewrite appendStars_positions, appendStars_colors, appendStars_sizes.
  cbn [positions colors sizes].
  split; [| split].
  - exists (flat_map xyz l), (flat_map rgb l), (map ssize l).
    rewrite flat_map_xyz_length, flat_map_rgb_length, length_map, Hlen.
    repeat split; lia.
  - intros i Hi. assert (Hi' : (i < List.length l)%nat) by lia.
    rewrite Forall_forall in Hall.
    destruct (Hall (nth i l nanStar) (nth_In l nanStar Hi'))
      as (x & y & z & size & Hx & Hy & Hz & Hs & Hd & Hsz).
    exists x, y, z, size.
    rewrite !get_app_r.
    destruct (get_xyz l i Hi') as (Gx & Gy & Gz).
    rewrite Gx, Gy, Gz, (get_sizes l i Hi'), Hx, Hy, Hz, Hs.
    repeat split; assumption.
  - intros ->. reflexivity.
Qed.

(* ================================================================== *)
(** ** generateSpiralArms *)

Lemma spiralStar_positions hexColor styleColor config t acc rnd k :
  positions (fst (spiralStar hexColor styleColor config t acc rnd k))
  = push3 (positions acc)
      (JS.cos (finalAngleAt config t rnd k) .* Fin (finalRadiusAt config rnd k))
      (Fin ((rnd (S (S (S (S k)))) - 0.5) * 5
            * exp (- finalRadiusAt config rnd k / 30)))
      (JS.sin (finalAngleAt config t rnd k) .* Fin (finalRadiusAt config rnd k)).
Proof.
  cbv [spiralStar bind ret random pickStarColor].
  repeat match goal with
         | |- context [if ?c then _ else _] => destruct c
         end; reflexivity.
Qed.

Lemma spiralStar_colors_sizes_finite hexColor styleColor config t rnd k :
  let s := firstStar (fst (spiralStar hexColor styleColor config t noStars rnd k)) in
  JS.isFinite (sred s) /\ JS.isFinite (sgreen s) /\ JS.isFinite (sblue s)
  /\ JS.isFinite (ssize s).
Proof.
  cbv [spiralStar bind ret random pickStarColor].
  repeat match goal with
         | |- context [if ?c then _ else _] => destruct c
         end; simpl; auto.
Qed.

Lemma finalAngleAt_finite config t rnd k :
  armCount config <> 0 -> exists a, finalAngleAt config t rnd k = Fin a.
Proof.
  intros H. unfold finalAngleAt. rewrite !div_fin by assumption.
  simpl. eexists. reflexivity.
Qed.

Lemma finalAngleAt_zero config t rnd k :
  armCount config = 0 -> finalAngleAt config t rnd k = NaN.
Proof.
  intros H. unfold finalAngleAt. rewrite H, !div_zero. reflexivity.
Qed.

Lemma finalRadiusAt_bounds config rnd k :
  unitDraws rnd -> 0 < galaxyRadius config ->
  0 <= finalRadiusAt config rnd k < galaxyRadius config + 5.
Proof.
  intros Hr Hg. unfold finalRadiusAt.
  pose proof (Hr (S k)) as H2. pose proof (Hr (S (S (S k)))) as H4.
  split; [apply Rmax_l |].
  apply Rmax_lub_lt; [lra | nra].
Qed.

Lemma axisDistance_polar (a r : R) : 0 <= r -> axisDistance (cos a * r) (sin a * r) = r.
Proof.
  intros Hr. unfold axisDistance.
  replace (cos a * r * (cos a * r) + sin a * r * (sin a * r))
    with ((sin a * sin a + cos a * cos a) * (r * r)) by ring.
  rewrite sin_cos_sq, Rmult_1_l. now apply sqrt_square.
Qed.

(** The position of the star generated from draw [k] on. *)
Lemma spiralStar_first hexColor styleColor config t rnd k :
  let s := firstStar (fst (spiralStar hexColor styleColor config t noStars rnd k)) in
  sx s = JS.cos (finalAngleAt config t rnd k) .* Fin (finalRadiusAt config rnd k)
  /\ (exists y, sy s = Fin y)
  /\ sz s = JS.sin (finalAngleAt config t rnd k) .* Fin (finalRadiusAt config rnd k).
Proof.
  cbv zeta. unfold firstStar. rewrite spiralStar_positions. cbn.
  split; [reflexivity | split; [eexists |]; reflexivity].
Qed.

Lemma generateSpiralArms_stars hexColor styleColor config t rnd k :
  generateSpiralArms hexColor styleColor config t rnd k
  = (appendStars noStars
       (fst (starsOf (spiralStar hexColor styleColor config
                        (t * (1 + (armCount config - 2) * 0.05)))
               (Z.to_nat (starCount config)) rnd k)),
     snd (starsOf (spiralStar hexColor styleColor config
                     (t * (1 + (armCount config - 2) * 0.05)))
            (Z.to_nat (starCount config)) rnd k)).
Proof.
  unfold generateSpiralArms.
  now rewrite (repeatM_stars _ (spiralStar_appendsOne _ _ _ _)).
Qed.

Lemma addCentralBulge_stars hexColor config ps cs ss N rnd k :
  addCentralBulge hexColor config ps cs ss N rnd k
  = (appendStars {| positions := ps; colors := cs; sizes := ss |}
       (fst (starsOf (bulgeStar hexColor config) (Z.to_nat N) rnd k)),
     snd (starsOf (bulgeStar hexColor config) (Z.to_nat N) rnd k)).
Proof.
  unfold addCentralBulge.
  now rewrite (repeatM_stars _ (bulgeStar_appendsOne _ _)).
Qed.

Lemma generateSpiralArms_positions_length hexColor styleColor config t rnd k :
  List.length (positions (fst (generateSpiralArms hexColor styleColor config t rnd k)))
  = (3 * Z.to_nat (starCount config))%nat.
Proof.
  rewrite generateSpiralArms_stars. cbn [fst]. rewrite appendStars_positions.
  cbn [positions noStars app]. now rewrite flat_map_xyz_length, starsOf_length.
Qed.

(** C9. [generateSpiralArms] returns [3 * starCount] positions,
    [3 * starCount] colors and [starCount] sizes (empty arrays for
    [starCount = 0]), whatever the other fields of the configuration; and
    [addCentralBulge] keeps positions and colors three times as long as
    sizes. *)
Theorem parallel_array_lengths hexColor styleColor config t rnd k :
  (0 <= starCount config)%Z ->
  let out := fst (generateSpiralArms hexColor styleColor config t rnd k) in
  Z.of_nat (List.length (positions out)) = (3 * starCount config)%Z
  /\ Z.of_nat (List.length (colors out)) = (3 * starCount config)%Z
  /\ Z.of_nat (List.length (sizes out)) = starCount config
  /\ (starCount config = 0%Z -> out = noStars)
  /\ (forall ps cs ss N k',
        List.length ps = (3 * List.length ss)%nat ->
        List.length cs = (3 * List.length ss)%nat ->
        let out' := fst (addCentralBulge hexColor config ps cs ss N rnd k') in
        List.length (positions out') = (3 * List.length (sizes out'))%nat
        /\ List.length (colors out') = (3 * List.length (sizes out'))%nat).
Proof.
  intros Hn out. subst out. rewrite generateSpiralArms_stars. cbn [fst].
  rewrite appendStars_positions, appendStars_colors, appendStars_sizes.
  cbn [positions colors sizes noStars app].
  rewrite flat_map_xyz_length, flat_map_rgb_length, length_map, starsOf_length.
  split; [lia |]. split; [lia |]. split; [lia |]. split.
  - intros H0. rewrite H0. reflexivity.
  - intros ps cs ss N k' Hp Hc. cbv zeta.
    rewrite addCentralBulge_stars. cbn [fst].
    rewrite appendStars_positions, appendStars_colors, appendStars_sizes.
    cbn [positions colors sizes].
    rewrite !length_app, flat_map_xyz_length, flat_map_rgb_length, length_map.
    lia.
Qed.

Lemma Forall_xyz (P : num -> Prop) l :
  Forall (fun s => P (sx s) /\ P (sy s) /\ P (sz s)) l -> Forall P (flat_map xyz l).
Proof.
  induction 1 as [| s l (Hx & Hy & Hz) _ IH]; simpl; [constructor |].
  repeat constructor; assumption.
Qed.

Lemma Forall_rgb (P : num -> Prop) l :
  Forall (fun s => P (sred s) /\ P (sgreen s) /\ P (sblue s)) l ->
  Forall P (flat_map rgb l).
Proof.
  induction 1 as [| s l (Hx & Hy & Hz) _ IH]; simpl; [constructor |].
  repeat constructor; assumption.
Qed.

Lemma Forall_ssize (P : num -> Prop) l :
  Forall (fun s => P (ssize s)) l -> Forall P (map ssize l).
Proof.
  induction 1; simpl; constructor; assumption.
Qed.

(** C5 (amended). [generateSpiralArms] does not guard [armCount]: both
    quotients are taken by [armCount] as configured.  Whatever [armCount]
    is, the arrays keep their lengths, three positions, three colors and one
    size for each of the [starCount] stars, and every color and size is
    finite.  Whenever [armCount] is not zero, negative values included, the
    x, y and z of every star are finite; when it is zero, the x and z of
    every star are NaN and its y is finite. *)
Theorem generateSpiralArms_armCount hexColor styleColor config t rnd k :
  let out := fst (generateSpiralArms hexColor styleColor config t rnd k) in
  let n := Z.to_nat (starCount config) in
  (List.length (positions out) = (3 * n)%nat
   /\ List.length (colors out) = (3 * n)%nat
   /\ List.length (sizes out) = n)
  /\ (armCount config <> 0 ->
      Forall JS.isFinite (positions out)
      /\ forall i, (i < n)%nat ->
           exists x y z,
             get (positions out) (i * 3) = Fin x
             /\ get (positions out) (i * 3 + 1) = Fin y
             /\ get (positions out) (i * 3 + 2) = Fin z)
  /\ (armCount config = 0 ->
      forall i, (i < n)%nat ->
        get (positions out) (i * 3) = NaN
        /\ (exists y, get (positions out) (i * 3 + 1) = Fin y)
        /\ get (positions out) (i * 3 + 2) = NaN)
  /\ Forall JS.isFinite (colors out)
  /\ Forall JS.isFinite (sizes out)
  /\ (forall i, (i < n)%nat ->
        exists r g b size,
          get (colors out) (i * 3) = Fin r
          /\ get (colors out) (i * 3 + 1) = Fin g
          /\ get (colors out) (i * 3 + 2) = Fin b
          /\ get (sizes out) i = Fin size).
Proof.
  intros out n. subst out. rewrite generateSpiralArms_stars. cbn [fst].
  rewrite appendStars_positions, appendStars_colors, appendStars_sizes.
  cbn [positions colors sizes noStars app].
  set (t' := t * (1 + (armCount config - 2) * 0.05)).
  set (body := spiralStar hexColor styleColor config t').
  fold n.
  pose proof (starsOf_length body n rnd k) as Hlen.
  set (l := fst (starsOf body n rnd k)) in *.
  assert (Hy : Forall (fun s => exists y, sy s = Fin y) l).
  { apply starsOf_Forall. intros j.
    destruct (spiralStar_first hexColor styleColor config t' rnd j)
      as (_ & Hy & _). exact Hy. }
  assert (Hcs : Forall (fun s => JS.isFinite (sred s) /\ JS.isFinite (sgreen s)
                                 /\ JS.isFinite (sblue s)
                                 /\ JS.isFinite (ssize s)) l).
  { apply starsOf_Forall. intros j.
    apply (spiralStar_colors_sizes_finite hexColor styleColor config t' rnd j). }
  refine (conj _ (conj _ (conj _ (conj _ (conj _ _))))).
  - rewrite flat_map_xyz_length, flat_map_rgb_length, length_map, Hlen.
    auto.
  - intros Ha.
    assert (Hall : Forall (fun s => JS.isFinite (sx s) /\ JS.isFinite (sy s)
                                    /\ JS.isFinite (sz s)) l).
    { apply starsOf_Forall. intros j.
      destruct (spiralStar_first hexColor styleColor config t' rnd j)
        as (Hx & (y & Hyj) & Hz).
      destruct (finalAngleAt_finite config t' rnd j Ha) as (a & Hfa).
      unfold body. rewrite Hx, Hyj, Hz, Hfa. simpl. auto. }
    split; [now apply Forall_xyz |].
    intros i Hi. assert (Hi' : (i < List.length l)%nat) by lia.
    destruct (get_xyz l i Hi') as (Gx & Gy & Gz). rewrite Gx, Gy, Gz.
    rewrite Forall_forall in Hall.
    destruct (Hall _ (nth_In l nanStar Hi')) as (Fx & Fy & Fz).
    destruct (sx (nth i l nanStar)) as [x |]; [| contradiction].
    destruct (sy (nth i l nanStar)) as [y |]; [| contradiction].
    destruct (sz (nth i l nanStar)) as [z |]; [| contradiction].
    now exists x, y, z.
  - intros Ha i Hi. assert (Hi' : (i < List.length l)%nat) by lia.
    destruct (get_xyz l i Hi') as (Gx & Gy & Gz). rewrite Gx, Gy, Gz.
    assert (Hall : Forall (fun s => sx s = NaN /\ sz s = NaN) l).
    { apply starsOf_Forall. intros j.
      destruct (spiralStar_first hexColor styleColor config t' rnd j)
        as (Hx & _ & Hz).
      unfold body. rewrite Hx, Hz, (finalAngleAt_zero config t' rnd j Ha).
      split; reflexivity. }
    rewrite Forall_forall in Hall, Hy.
    destruct (Hall _ (nth_In l nanStar Hi')) as (Ex & Ez).
    refine (conj Ex (conj _ Ez)). apply Hy. now apply nth_In.
  - apply Forall_rgb. eapply Forall_impl; [| exact Hcs].
    intros s (H1 & H2 & H3 & _). auto.
  - apply Forall_ssize. eapply Forall_impl; [| exact Hcs].
    intros s (_ & _ & _ & H4). exact H4.
  - intros i Hi. assert (Hi' : (i < List.length l)%nat) by lia.
    destruct (get_rgb l i Hi') as (Gr & Gg & Gb).
    rewrite Gr, Gg, Gb, (get_sizes l i Hi').
    rewrite Forall_forall in Hcs.
    destruct (Hcs _ (nth_In l nanStar Hi')) as (Fr & Fg & Fb & Fs).
    destruct (sred (nth i l nanStar)) as [r |]; [| contradiction].
    destruct (sgreen (nth i l nanStar)) as [g |]; [| contradiction].
    destruct (sblue (nth i l nanStar)) as [b |]; [| contradiction].
    destruct (ssize (nth i l nanStar)) as [size |]; [| contradiction].
    now exists r, g, b, size.
Qed.

(** C7 (amended). For a positive [galaxyRadius] and a nonzero [armCount],
    every star of [generateSpiralArms] lies at distance less than
    [galaxyRadius + 5] from the vertical axis, hence within
    [galaxyRadius * 1.2] as soon as [galaxyRadius >= 25]. *)
Theorem generateSpiralArms_axis_distance hexColor styleColor config t rnd k :
  unitDraws rnd -> 0 < galaxyRadius config -> armCount config <> 0 ->
  let out := fst (generateSpiralArms hexColor styleColor config t rnd k) in
  forall i, (Z.of_nat i < starCount config)%Z ->
    exists x z,
      get (positions out) (i * 3) = Fin x
      /\ get (positions out) (i * 3 + 2) = Fin z
      /\ axisDistance x z < galaxyRadius config + 5
      /\ (25 <= galaxyRadius config ->
          axisDistance x z <= galaxyRadius config * 1.2).
Proof.
  intros Hr Hg Ha out i Hi. subst out. rewrite generateSpiralArms_stars.
  cbn [fst]. rewrite appendStars_positions. cbn [positions noStars app].
  set (t' := t * (1 + (armCount config - 2) * 0.05)).
  set (body := spiralStar hexColor styleColor config t').
  set (n := Z.to_nat (starCount config)).
  pose proof (starsOf_length body n rnd k) as Hlen.
  assert (Hi' : (i < List.length (fst (starsOf body n rnd k)))%nat)
    by (rewrite Hlen; unfold n; lia).
  destruct (get_xyz _ i Hi') as (Gx & _ & Gz). rewrite Gx, Gz.
  assert (Hall : Forall (fun s => exists x z,
                           sx s = Fin x /\ sz s = Fin z
                           /\ axisDistance x z < galaxyRadius config + 5)
                   (fst (starsOf body n rnd k))).
  { apply starsOf_Forall. intros j.
    destruct (spiralStar_first hexColor styleColor config t' rnd j)
      as (Hx & _ & Hz).
    destruct (finalAngleAt_finite config t' rnd j Ha) as (a & Hfa).
    destruct (finalRadiusAt_bounds config rnd j Hr Hg) as (Hlo & Hhi).
    unfold body. rewrite Hx, Hz, Hfa. simpl.
    do 2 eexists. split; [reflexivity |]. split; [reflexivity |].
    now rewrite axisDistance_polar. }
  rewrite Forall_forall in Hall.
  destruct (Hall _ (nth_In _ nanStar Hi')) as (x & z & Hx & Hz & Hd).
  exists x, z. repeat split; try assumption. intros H25. lra.
Qed.

(* ================================================================== *)
(** ** Brightness *)

Ltac unfold_config :=
  cbv [withBrightness brightnessValue starCount armCount galaxyRadius
       rotationSpeed coreSize starColors particleSize brightness].

Ltac split_ifs :=
  repeat match goal with
         | |- context [if ?c then _ else _] => destruct c
         end.

Lemma brightnessValue_falsy config :
  brightnessValue (withBrightness config (Some 0)) = 1
  /\ brightnessValue (withBrightness config None) = 1
  /\ brightnessValue (withBrightness config (Some 1)) = 1.
Proof.
  unfold_config. split_ifs; repeat split; try reflexivity; lra.
Qed.






















(* ================================================================== *)
(** ** Concrete configurations, colours and draws *)

Lemma halves_unit : unitDraws halves.
Proof. intros k. unfold halves, drawsOf. destruct k; simpl; lra. Qed.

Lemma drawsOf_unit (l : list R) :
  Forall (fun u => 0 <= u < 1) l -> unitDraws (drawsOf l).
Proof.
  intros H k. unfold drawsOf. revert k.
  induction H as [| u l Hu _ IH]; intros k.
  - destruct k; simpl; lra.
  - destruct k; simpl; [exact Hu | apply IH].
Qed.

Lemma starsOf_one body rnd k :
  fst (starsOf body 1 rnd k) = [firstStar (fst (body noStars rnd k))].
Proof. simpl. destruct (body noStars rnd k). reflexivity. Qed.

(** C8, witness: two bulge stars appended to empty arrays. *)
Lemma addCentralBulge_appends_witness :
  let out := fst (addCentralBulge hexRGB DEFAULT_GALAXY_CONFIG [] [] [] 2 halves 0%nat) in
  (exists ps' cs' ss',
      positions out = [] ++ ps' /\ colors out = [] ++ cs'
      /\ sizes out = [] ++ ss'
      /\ Z.of_nat (List.length ps') = (3 * 2)%Z
      /\ Z.of_nat (List.length cs') = (3 * 2)%Z
      /\ Z.of_nat (List.length ss') = 2%Z)
  /\ (forall i, (Z.of_nat i < 2)%Z ->
        exists x y z size,
          get (positions out) (0 + i * 3) = Fin x
          /\ get (positions out) (0 + (i * 3 + 1)) = Fin y
          /\ get (positions out) (0 + (i * 3 + 2)) = Fin z
          /\ get (sizes out) (0 + i) = Fin size
          /\ norm3 x y z <= 3.5 * 1.2
          /\ 0.1 < size)
  /\ (2%Z = 0%Z ->
        addCentralBulge hexRGB DEFAULT_GALAXY_CONFIG [] [] [] 2 halves 0%nat
        = ({| positions := []; colors := []; sizes := [] |}, 0%nat)).
Proof.
  apply (addCentralBulge_appends hexRGB DEFAULT_GALAXY_CONFIG [] [] [] 2 halves 0%nat).
  - exact halves_unit.
  - simpl. lra.
  - simpl. lra.
  - lia.
Defined.

(** C9, witness: three stars of the default galaxy. *)
Lemma parallel_array_lengths_witness :
  let config := withStarCount DEFAULT_GALAXY_CONFIG 3 in
  let out := fst (generateSpiralArms hexRGB styleRGB config 0.3 halves 0%nat) in
  List.length (positions out) = 9%nat
  /\ List.length (colors out) = 9%nat
  /\ List.length (sizes out) = 3%nat.
Proof.
  intros config out.
  destruct (parallel_array_lengths hexRGB styleRGB config 0.3 halves 0%nat)
    as (Hp & Hc & Hs & _).
  - simpl. lia.
  - fold out in Hp, Hc, Hs. simpl starCount in *. lia.
Defined.

(** C5, counterexample: with [armCount = 0] the x and z of the star are NaN. *)
Lemma generateSpiralArms_armCount_zero :
  let config := withArmCount (withStarCount DEFAULT_GALAXY_CONFIG 1) 0 in
  let out := fst (generateSpiralArms hexRGB styleRGB config 0.3 halves 0%nat) in
  armCount config <= 0 /\ (0 <= starCount config)%Z /\ unitDraws halves
  /\ get (positions out) 0 = NaN /\ get (positions out) 2 = NaN
  /\ ~ Forall JS.isFinite (positions out).
Proof.
  intros config out.
  assert (Hx : get (positions out) 0 = NaN /\ get (positions out) 2 = NaN).
  { subst out. rewrite generateSpiralArms_stars. cbn [fst].
    rewrite appendStars_positions. cbn [positions noStars app].
    change (Z.to_nat (starCount config)) with 1%nat.
    rewrite starsOf_one. cbn [flat_map xyz app get nth].
    match goal with
    | |- context [spiralStar ?h ?s ?c ?t noStars ?r ?k] =>
        destruct (spiralStar_first h s c t r k) as (Ex & _ & Ez)
    end.
    rewrite Ex, Ez, finalAngleAt_zero by reflexivity. split; reflexivity. }
  destruct Hx as (Hx & Hz).
  split; [simpl; lra |]. split; [simpl; lia |]. split; [exact halves_unit |].
  split; [exact Hx |]. split; [exact Hz |].
  intros Hall. rewrite Forall_forall in Hall.
  assert (Hin : In (get (positions out) 0) (positions out)).
  { unfold get. apply nth_In. subst out.
    rewrite generateSpiralArms_positions_length. simpl. lia. }
  specialize (Hall _ Hin). rewrite Hx in Hall. exact Hall.
Qed.

(** C5, witness: four arms, two stars: six positions, six colors and two
    sizes, every entry finite. *)
Lemma generateSpiralArms_armCount_witness :
  let config := withStarCount DEFAULT_GALAXY_CONFIG 2 in
  let out := fst (generateSpiralArms hexRGB styleRGB config 0.3 halves 0%nat) in
  (List.length (positions out) = 6%nat /\ List.length (colors out) = 6%nat
   /\ List.length (sizes out) = 2%nat)
  /\ Forall JS.isFinite (positions out)
  /\ (exists x y z,
        get (positions out) 3 = Fin x /\ get (positions out) 4 = Fin y
        /\ get (positions out) 5 = Fin z)
  /\ Forall JS.isFinite (colors out)
  /\ Forall JS.isFinite (sizes out).
Proof.
  intros config out.
  destruct (generateSpiralArms_armCount hexRGB styleRGB config 0.3 halves 0%nat)
    as (Hl & Hp & _ & Hc & Hs & _).
  assert (Ha : armCount config <> 0) by (simpl; lra).
  destruct (Hp Ha) as (Hfin & Hall).
  refine (conj Hl (conj Hfin (conj _ (conj Hc Hs)))).
  apply (Hall 1%nat). simpl. lia.
Defined.

(** C7, counterexample: with [galaxyRadius = 10] a star drawn at radius 9
    with jitter 4 lies at distance 13 from the axis, beyond 10 * 1.2. *)
Lemma generateSpiralArms_axis_distance_small_galaxy :
  let config := withGalaxyRadius (withStarCount DEFAULT_GALAXY_CONFIG 1) 10 in
  let rnd := drawsOf [0.5; 0.9; 0.5; 0.9] in
  let out := fst (generateSpiralArms hexRGB styleRGB config 0.3 rnd 0%nat) in
  0 < galaxyRadius config /\ 1 <= armCount config /\ unitDraws rnd
  /\ exists x z,
       get (positions out) 0 = Fin x /\ get (positions out) 2 = Fin z
       /\ axisDistance x z = 13
       /\ ~ axisDistance x z <= galaxyRadius config * 1.2.
Proof.
  intros config rnd out.
  split; [simpl; lra |]. split; [simpl; lra |]. split.
  { apply drawsOf_unit. repeat constructor; lra. }
  subst out. rewrite generateSpiralArms_stars. cbn [fst].
  rewrite appendStars_positions. cbn [positions noStars app].
  change (Z.to_nat (starCount config)) with 1%nat.
  rewrite starsOf_one. cbn [flat_map xyz app get nth].
  match goal with
  | |- context [spiralStar ?h ?s ?c ?t noStars ?r ?k] =>
      destruct (spiralStar_first h s c t r k) as (Ex & _ & Ez);
      destruct (finalAngleAt_finite c t r k) as (a & Ea)
  end.
  { simpl. lra. }
  rewrite Ex, Ez, Ea.
  assert (Er : finalRadiusAt config rnd 0 = 13).
  { unfold finalRadiusAt, rnd, drawsOf. cbn [nth galaxyRadius config withGalaxyRadius].
    rewrite Rmax_right; lra. }
  rewrite Er. simpl.
  exists (cos a * 13), (sin a * 13).
  split; [reflexivity |]. split; [reflexivity |].
  rewrite axisDistance_polar by lra. split; [reflexivity | lra].
Qed.

(** C7, witness: the default galaxy, radius 100. *)
Lemma generateSpiralArms_axis_distance_witness :
  let config := withStarCount DEFAULT_GALAXY_CONFIG 2 in
  let out := fst (generateSpiralArms hexRGB styleRGB config 0.3 halves 0%nat) in
  exists x z,
    get (positions out) (1 * 3) = Fin x
    /\ get (positions out) (1 * 3 + 2) = Fin z
    /\ axisDistance x z < 100 + 5
    /\ (25 <= 100 -> axisDistance x z <= 100 * 1.2).
Proof.
  intros config out.
  apply (generateSpiralArms_axis_distance hexRGB styleRGB config 0.3 halves 0%nat).
  - exact halves_unit.
  - simpl. lra.
  - simpl. lra.
  - simpl. lia.
Defined.



(* ================================================================== *)
(** ** Arrays written by index, and loops *)

Lemma set_length (a : list num) : forall i v, List.length (set a i v) = List.length a.
Proof.
  induction a as [| h a IH]; intros i v; simpl; [reflexivity |].
  destruct i; simpl; [reflexivity | now rewrite IH].
Qed.

Lemma get_set_eq (a : list num) : forall i v,
  (i < List.length a)%nat -> get (set a i v) i = v.
Proof.
  induction a as [| h a IH]; intros i v Hi; simpl in Hi; [lia |].
  destruct i; simpl; [reflexivity |]. apply IH. lia.
Qed.

Lemma get_set_neq (a : list num) : forall i j v,
  i <> j -> get (set a i v) j = get a j.
Proof.
  induction a as [| h a IH]; intros i j v Hij; simpl; [reflexivity |].
  destruct i, j; simpl; try reflexivity; [lia |].
  apply IH. lia.
Qed.

Lemma zeros_length n : List.length (zeros n) = n.
Proof. apply repeat_length. Qed.

Lemma forRange_invariant {S : Type} (P : nat -> S -> Prop)
    (body : nat -> S -> S) :
  forall n start s,
    P start s ->
    (forall i s', (start <= i < start + n)%nat -> P i s' ->
                  P (Datatypes.S i) (body i s')) ->
    P (start + n)%nat (forRange start n body s).
Proof.
  induction n as [| n IH]; intros start s H0 Hstep; simpl.
  - now rewrite Nat.add_0_r.
  - replace (start + Datatypes.S n)%nat with (Datatypes.S start + n)%nat by lia.
    apply IH.
    + apply Hstep; [lia | assumption].
    + intros i s' Hi. apply Hstep. lia.
Qed.

Lemma starsIn_bound (a : list num) : (3 * starsIn a <= List.length a)%nat.
Proof.
  unfold starsIn. pose proof (Nat.div_mod_eq (List.length a) 3). lia.
Qed.

(* ================================================================== *)
(** ** The orchestrator's rotation data *)

(** Every stored radius is computed from the entries at [3i] and [3i + 1],
    the star's x and y; every stored angular velocity is the rotation curve
    at the stored radius. *)
Lemma rotationData_entries config (positions : list num) :
  let n := starsIn positions in
  let rv := forRange 0 n (Renderer.rotationDatum config positions)
              (zeros n, zeros n) in
  forall i, (i < n)%nat ->
    get (fst rv) i
    = JS.sqrt (get positions (i * 3) .* get positions (i * 3)
               .+ get positions (i * 3 + 1) .* get positions (i * 3 + 1))
    /\ get (snd rv) i
       = calculateAngularVelocity (get (fst rv) i) (rotationSpeed config).
Proof.
  intros n rv.
  pose (radiusOf := fun i =>
    JS.sqrt (get positions (i * 3) .* get positions (i * 3)
             .+ get positions (i * 3 + 1) .* get positions (i * 3 + 1))).
  assert (Inv :
    (fun j (s : list num * list num) =>
       List.length (fst s) = n /\ List.length (snd s) = n
       /\ forall i, (i < j)%nat ->
            get (fst s) i = radiusOf i
            /\ get (snd s) i
               = calculateAngularVelocity (radiusOf i) (rotationSpeed config))
      (0 + n)%nat rv).
  { apply forRange_invariant.
    - simpl. rewrite zeros_length. repeat split; intros; lia.
    - intros j [rs vs] Hj (Lr & Lv & Hprev). cbn [fst snd] in *.
      unfold Renderer.rotationDatum. cbn [fst snd].
      rewrite !set_length. split; [assumption |]. split; [assumption |].
      intros i Hi. destruct (Nat.eq_dec i j) as [-> | Hne].
      + rewrite !get_set_eq by lia. split; reflexivity.
      + rewrite !get_set_neq by lia. apply Hprev. lia. }
  destruct Inv as (_ & _ & Hall). intros i Hi.
  destruct (Hall i Hi) as (Hr & Hv). rewrite Hr, Hv. split; reflexivity.
Qed.

Lemma generateGalaxy_fields hexColor styleColor config rnd k :
  let s := fst (Renderer.generateGalaxy hexColor styleColor config rnd k) in
  let n := starsIn (Renderer.positions s) in
  Renderer.rotationRadii s
  = fst (forRange 0 n (Renderer.rotationDatum config (Renderer.positions s))
           (zeros n, zeros n))
  /\ Renderer.angularVelocities s
     = snd (forRange 0 n (Renderer.rotationDatum config (Renderer.positions s))
              (zeros n, zeros n))
  /\ Renderer.galaxyConfig s = config.
Proof.
  unfold Renderer.generateGalaxy, bind, ret.
  destruct (generateSpiralArms hexColor styleColor config 0.3 rnd k) as [d k1].
  destruct (addCentralBulge hexColor config (positions d) (colors d) (sizes d)
              (JS.floor (IZR (starCount config) * 0.2)) rnd k1) as [g k2].
  cbn. repeat split; reflexivity.
Qed.

(** The stored radius of every star of a generated galaxy. *)
Lemma generateGalaxy_radii hexColor styleColor config rnd k :
  let s := fst (Renderer.generateGalaxy hexColor styleColor config rnd k) in
  forall i, (i < starsIn (Renderer.positions s))%nat ->
    get (Renderer.rotationRadii s) i
    = JS.sqrt (get (Renderer.positions s) (i * 3)
               .* get (Renderer.positions s) (i * 3)
               .+ get (Renderer.positions s) (i * 3 + 1)
                  .* get (Renderer.positions s) (i * 3 + 1))
    /\ get (Renderer.angularVelocities s) i
       = calculateAngularVelocity (get (Renderer.rotationRadii s) i)
           (rotationSpeed config).
Proof.
  intros s i Hi.
  destruct (generateGalaxy_fields hexColor styleColor config rnd k)
    as (Hr & Hv & _).
  fold s in Hr, Hv. rewrite Hr, Hv.
  apply (rotationData_entries config (Renderer.positions s) i Hi).
Qed.

(* ================================================================== *)
(** ** A galaxy of one star *)

Lemma oneStar_finalRadius u5 : finalRadiusAt oneStarConfig (oneStarDraws u5) 0 = 4.
Proof.
  unfold finalRadiusAt, oneStarDraws, drawsOf. cbn [nth].
  rewrite Rmax_right; simpl; lra.
Qed.

Lemma oneStar_finalAngle u5 t :
  finalAngleAt oneStarConfig t (oneStarDraws u5) 0 = Fin 0.
Proof.
  unfold finalAngleAt, oneStarDraws, drawsOf. cbn [nth].
  assert (Ha : armCount oneStarConfig = 4) by reflexivity.
  assert (Hg : galaxyRadius oneStarConfig = 100) by reflexivity.
  rewrite Ha, Hg. rewrite !div_fin by lra.
  replace (0 * 4) with (IZR 0) by lra. unfold JS.floor. rewrite ZfloorZ.
  simpl. f_equal. lra.
Qed.

Lemma oneStar_spiral u5 :
  positions (fst (generateSpiralArms hexRGB styleRGB oneStarConfig 0.3
                    (oneStarDraws u5) 0%nat))
  = [Fin 4; Fin (oneStarY u5); Fin 0].
Proof.
  rewrite generateSpiralArms_stars. cbn [fst]. rewrite appendStars_positions.
  change (Z.to_nat (starCount oneStarConfig)) with 1%nat.
  rewrite starsOf_one. cbn [positions noStars flat_map xyz app].
  unfold firstStar. cbn [sx sy sz]. rewrite spiralStar_positions.
  cbn [positions noStars push3 app get nth].
  rewrite oneStar_finalAngle, oneStar_finalRadius. cbn.
  rewrite cos_0, sin_0. unfold oneStarY.
  repeat f_equal; unfold oneStarDraws, drawsOf; cbn [nth]; lra.
Qed.

Lemma oneStar_bulgeStars : JS.floor (IZR (starCount oneStarConfig) * 0.2) = 0%Z.
Proof. apply Zfloor_eq. simpl. lra. Qed.

Lemma oneStar_positions u5 :
  Renderer.positions (oneStarGalaxy u5) = [Fin 4; Fin (oneStarY u5); Fin 0].
Proof.
  unfold oneStarGalaxy, Renderer.generateGalaxy, bind, ret.
  pose proof (oneStar_spiral u5) as Hs.
  destruct (generateSpiralArms hexRGB styleRGB oneStarConfig 0.3
              (oneStarDraws u5) 0%nat) as [d k1].
  rewrite oneStar_bulgeStars. cbn. exact Hs.
Qed.

Lemma oneStar_rotation u5 :
  Renderer.rotationRadii (oneStarGalaxy u5) = [Fin (oneStarRadius u5)]
  /\ Renderer.angularVelocities (oneStarGalaxy u5)
     = [Fin (angularVelocitySpec (oneStarRadius u5) 0.1)].
Proof.
  destruct (generateGalaxy_fields hexRGB styleRGB oneStarConfig
              (oneStarDraws u5) 0%nat) as (Hr & Hv & _).
  fold (oneStarGalaxy u5) in Hr, Hv. rewrite Hr, Hv, oneStar_positions.
  cbn [starsIn List.length Nat.div Nat.divmod fst snd zeros repeat forRange
       Renderer.rotationDatum get nth Nat.mul Nat.add set].
  cbn [JS.mul JS.add JS.lift2].
  rewrite sqrt_fin by nra.
  rewrite calculateAngularVelocity_fin.
  split; reflexivity.
Qed.

Lemma oneStarRadius_ge u5 : 4 <= oneStarRadius u5.
Proof.
  unfold oneStarRadius.
  rewrite <- (sqrt_square 4) at 1 by lra.
  apply sqrt_le_1_alt. nra.
Qed.

Lemma oneStarRadius_gt u5 : u5 <> 0.5 -> 4 < oneStarRadius u5.
Proof.
  intros Hu. unfold oneStarRadius.
  rewrite <- (sqrt_square 4) at 1 by lra.
  apply sqrt_lt_1_alt. split; [lra |].
  assert (Hy : oneStarY u5 <> 0).
  { unfold oneStarY. pose proof (exp_pos (- 4 / 30)) as He.
    intros H0. apply Rmult_integral in H0. destruct H0 as [H0 | H0]; lra. }
  assert (0 < oneStarY u5 * oneStarY u5) by nra. lra.
Qed.

Lemma oneStarRadius_flat : oneStarRadius 0.5 = 4.
Proof.
  unfold oneStarRadius, oneStarY.
  replace (4 * 4 + (0.5 - 0.5) * 5 * exp (- 4 / 30) * ((0.5 - 0.5) * 5 * exp (- 4 / 30)))
    with (4 * 4) by lra.
  apply sqrt_square. lra.
Qed.

(** C1, on the code.  The orchestrator stores, for the star at
    (4, 2 exp(-2/15), 0) of a generated galaxy, the radius
    sqrt(x * x + y * y): the second coordinate read is the height.  It
    differs from the star's distance to the vertical axis, which is 4.  The
    stored angular velocity is the rotation curve at the stored radius. *)
Theorem generateGalaxy_radius_reads_height :
  let s := oneStarGalaxy 0.9 in
  exists x y z rho,
    Renderer.positions s = [Fin x; Fin y; Fin z]
    /\ get (Renderer.rotationRadii s) 0 = Fin rho
    /\ rho = sqrt (x * x + y * y)
    /\ axisDistance x z = 4
    /\ 4 < rho
    /\ get (Renderer.angularVelocities s) 0
       = calculateAngularVelocity (Fin rho) (rotationSpeed oneStarConfig).
Proof.
  intros s. subst s.
  destruct (oneStar_rotation 0.9) as (Hr & Hv).
  exists 4, (oneStarY 0.9), 0, (oneStarRadius 0.9).
  rewrite oneStar_positions, Hr, Hv.
  split; [reflexivity |]. split; [reflexivity |]. split; [reflexivity |].
  split.
  - unfold axisDistance. replace (4 * 4 + 0 * 0) with (4 * 4) by lra.
    apply sqrt_square. lra.
  - split; [apply oneStarRadius_gt; lra |].
    rewrite calculateAngularVelocity_fin. reflexivity.
Qed.

(* ================================================================== *)
(** ** One frame of the orchestrator on a single star *)

Lemma updateStarPositions_single (s : Renderer.state) (x y z rho w t : R) :
  Renderer.positions s = [Fin x; Fin y; Fin z] ->
  Renderer.rotationRadii s = [Fin rho] ->
  Renderer.angularVelocities s = [Fin w] ->
  0.1 <= rho ->
  let s' := Renderer.updateStarPositions t s in
  Renderer.positions s'
  = [Fin (cos (JS.Ratan2 z x + t * w) * rho); Fin y;
     Fin (sin (JS.Ratan2 z x + t * w) * rho)]
  /\ Renderer.rotationRadii s' = [Fin rho]
  /\ Renderer.angularVelocities s' = [Fin w].
Proof.
  intros Hp Hr Hv Hrho. unfold Renderer.updateStarPositions.
  cbn [Renderer.positions Renderer.rotationRadii Renderer.angularVelocities].
  rewrite Hp, Hr, Hv.
  cbn [starsIn List.length Nat.div Nat.divmod fst snd forRange].
  unfold Renderer.updateStar. cbn [get nth Nat.mul Nat.add].
  rewrite lt_fin_false by assumption.
  cbn. repeat split; reflexivity.
Qed.

Lemma Ratan2_pos_axis (x : R) : 0 < x -> JS.Ratan2 0 x = 0.
Proof.
  intros Hx. unfold JS.Ratan2. destruct (Rlt_dec 0 x); [| lra].
  unfold Rdiv. rewrite Rmult_0_l. apply atan_0.
Qed.

Lemma Ratan2_up (y : R) : 0 < y -> JS.Ratan2 y 0 = PI / 2.
Proof.
  intros Hy. unfold JS.Ratan2.
  destruct (Rlt_dec 0 0); [lra |]. destruct (Rlt_dec 0 y); [reflexivity | lra].
Qed.

(** C2, on the code.  One frame of [updateStarPositions] moves the star at
    (4, 2 exp(-2/15), 0) of the generated galaxy from distance 4 to the
    vertical axis to the stored radius sqrt(16 + y * y), which is larger. *)
Theorem updateStarPositions_changes_axis_distance :
  let s := oneStarGalaxy 0.9 in
  let s' := Renderer.updateStarPositions 1 s in
  exists x y z x' z',
    Renderer.positions s = [Fin x; Fin y; Fin z]
    /\ Renderer.positions s' = [Fin x'; Fin y; Fin z']
    /\ axisDistance x z = 4
    /\ axisDistance x' z' = sqrt (x * x + y * y)
    /\ axisDistance x z < axisDistance x' z'.
Proof.
  intros s s'. subst s s'.
  destruct (oneStar_rotation 0.9) as (Hr & Hv).
  pose proof (oneStarRadius_gt 0.9) as Hgt.
  destruct (updateStarPositions_single (oneStarGalaxy 0.9) 4 (oneStarY 0.9) 0
              (oneStarRadius 0.9)
              (angularVelocitySpec (oneStarRadius 0.9) 0.1) 1
              (oneStar_positions 0.9) Hr Hv) as (Hp' & _); [lra |].
  do 5 eexists. rewrite oneStar_positions, Hp'.
  split; [reflexivity |]. split; [reflexivity |].
  assert (H4 : axisDistance 4 0 = 4).
  { unfold axisDistance. replace (4 * 4 + 0 * 0) with (4 * 4) by lra.
    apply sqrt_square. lra. }
  rewrite axisDistance_polar by lra. rewrite H4.
  split; [reflexivity |]. split; [reflexivity | lra].
Qed.

(** The star at (4, 0, 0): stored radius 4, angular velocity
    0.1 * (4 / 10). *)
Lemma flatStar_rotation :
  Renderer.rotationRadii (oneStarGalaxy 0.5) = [Fin 4]
  /\ Renderer.angularVelocities (oneStarGalaxy 0.5) = [Fin (0.1 * (4 / 10))]
  /\ Renderer.positions (oneStarGalaxy 0.5) = [Fin 4; Fin 0; Fin 0].
Proof.
  destruct (oneStar_rotation 0.5) as (Hr & Hv).
  rewrite Hr, Hv, oneStar_positions, oneStarRadius_flat.
  split; [reflexivity |]. split.
  - unfold angularVelocitySpec. destruct (Rlt_dec 4 10); [reflexivity | lra].
  - unfold oneStarY. repeat f_equal. lra.
Qed.

(** C3, on the code.  For the star at (4, 0, 0), stored radius 4 and angular
    velocity 0.04: a single frame at elapsed time 25 pi puts it at
    (-4, 0, 0), where the absolute-time angle 0 + 0.04 * 25 pi = pi puts it;
    a frame at 25 pi / 2 followed by the frame at 25 pi puts it at
    (0, 0, -4).  The position at elapsed time 25 pi depends on the frames
    before it. *)
Theorem animate_depends_on_frames :
  let s := oneStarGalaxy 0.5 in
  Renderer.positions s = [Fin 4; Fin 0; Fin 0]
  /\ Renderer.rotationRadii s = [Fin 4]
  /\ Renderer.angularVelocities s = [Fin (0.1 * (4 / 10))]
  /\ Renderer.positions (Renderer.animate [25 * PI] s)
     = [Fin (-4); Fin 0; Fin 0]
  /\ Renderer.positions (Renderer.animate [25 * PI / 2; 25 * PI] s)
     = [Fin 0; Fin 0; Fin (-4)]
  /\ cos (JS.Ratan2 0 4 + 0.1 * (4 / 10) * (25 * PI)) * 4 = -4
  /\ sin (JS.Ratan2 0 4 + 0.1 * (4 / 10) * (25 * PI)) * 4 = 0.
Proof.
  intros s. subst s.
  destruct flatStar_rotation as (Hr & Hv & Hp).
  assert (Hrho : 0.1 <= 4) by lra.
  assert (A0 : JS.Ratan2 0 4 = 0) by (apply Ratan2_pos_axis; lra).
  split; [exact Hp |]. split; [exact Hr |]. split; [exact Hv |].
  split; [| split; [| split]].
  - cbn [Renderer.animate fold_left].
    destruct (updateStarPositions_single _ 4 0 0 4 (0.1 * (4 / 10)) (25 * PI)
                Hp Hr Hv Hrho) as (Hp1 & _).
    rewrite Hp1, A0.
    replace (0 + 25 * PI * (0.1 * (4 / 10))) with PI by lra.
    rewrite cos_PI, sin_PI. repeat f_equal; lra.
  - cbn [Renderer.animate fold_left].
    destruct (updateStarPositions_single _ 4 0 0 4 (0.1 * (4 / 10)) (25 * PI / 2)
                Hp Hr Hv Hrho) as (Hp1 & Hr1 & Hv1).
    rewrite A0 in Hp1.
    replace (0 + 25 * PI / 2 * (0.1 * (4 / 10))) with (PI / 2) in Hp1 by lra.
    rewrite cos_PI2, sin_PI2 in Hp1.
    replace (0 * 4) with 0 in Hp1 by lra. replace (1 * 4) with 4 in Hp1 by lra.
    destruct (updateStarPositions_single _ 0 0 4 4 (0.1 * (4 / 10)) (25 * PI)
                Hp1 Hr1 Hv1 Hrho) as (Hp2 & _).
    rewrite Hp2, Ratan2_up by lra.
    replace (PI / 2 + 25 * PI * (0.1 * (4 / 10))) with (3 * (PI / 2)) by lra.
    rewrite cos_3PI2, sin_3PI2. repeat f_equal; lra.
  - rewrite A0. replace (0 + 0.1 * (4 / 10) * (25 * PI)) with PI by lra.
    rewrite cos_PI. lra.
  - rewrite A0. replace (0 + 0.1 * (4 / 10) * (25 * PI)) with PI by lra.
    rewrite sin_PI. lra.
Qed.

(* ================================================================== *)
(** ** One frame of the orchestrator, star by star *)

Lemma updateStar_loop (radii vels : list num) (t : R) (pos : list num) :
  let n := starsIn pos in
  let pos' := forRange 0 n (Renderer.updateStar radii vels t) pos in
  List.length pos' = List.length pos
  /\ forall i, (i < n)%nat ->
       get pos' (i * 3)
       = fst (rotated (get radii i) (get vels i) t
                (get pos (i * 3)) (get pos (i * 3 + 2)))
       /\ get pos' (i * 3 + 1) = get pos (i * 3 + 1)
       /\ get pos' (i * 3 + 2)
          = snd (rotated (get radii i) (get vels i) t
                   (get pos (i * 3)) (get pos (i * 3 + 2))).
Proof.
  intros n pos'.
  pose proof (starsIn_bound pos) as Hb. fold n in Hb.
  assert (Inv :
    (fun j (p : list num) =>
       List.length p = List.length pos
       /\ (forall m, (j * 3 <= m)%nat -> get p m = get pos m)
       /\ forall i, (i < j)%nat ->
            get p (i * 3)
            = fst (rotated (get radii i) (get vels i) t
                     (get pos (i * 3)) (get pos (i * 3 + 2)))
            /\ get p (i * 3 + 1) = get pos (i * 3 + 1)
            /\ get p (i * 3 + 2)
               = snd (rotated (get radii i) (get vels i) t
                        (get pos (i * 3)) (get pos (i * 3 + 2))))
      (0 + n)%nat pos').
  { apply forRange_invariant.
    - split; [reflexivity |]. split; [reflexivity |]. intros i Hi. lia.
    - intros j p Hj (Hlen & Hrest & Hdone).
      unfold Renderer.updateStar.
      rewrite (Hrest (j * 3)%nat), (Hrest (j * 3 + 2)%nat) by lia.
      destruct (get radii j .< Fin 0.1) eqn:Hskip.
      + split; [assumption |]. split.
        * intros m Hm. apply Hrest. lia.
        * intros i Hi. destruct (Nat.eq_dec i j) as [-> | Hne].
          -- unfold rotated. rewrite Hskip. cbn [fst snd].
             rewrite !Hrest by lia. auto.
          -- apply Hdone. lia.
      + rewrite !set_length. split; [assumption |]. split.
        * intros m Hm. rewrite !get_set_neq by lia. apply Hrest. lia.
        * intros i Hi. destruct (Nat.eq_dec i j) as [-> | Hne].
          -- unfold rotated. rewrite Hskip. cbn [fst snd].
             rewrite get_set_neq by lia.
             rewrite get_set_eq by lia.
             rewrite !(get_set_neq _ _ (j * 3 + 1)) by lia.
             rewrite get_set_eq by (rewrite set_length; lia).
             rewrite Hrest by lia. auto.
          -- rewrite !(get_set_neq _ _ (i * 3)) by lia.
             rewrite !(get_set_neq _ _ (i * 3 + 1)) by lia.
             rewrite !(get_set_neq _ _ (i * 3 + 2)) by lia.
             apply Hdone. lia. }
  destruct Inv as (Hlen & _ & Hall). split; [exact Hlen | exact Hall].
Qed.

(** A frame of [updateStarPositions] keeps the distance to the vertical axis
    of every star whose stored radius is that distance. *)
Lemma updateStarPositions_keeps_axis_distance (s : Renderer.state)
    (t : R) (i : nat) (x z w : R) :
  (i < starsIn (Renderer.positions s))%nat ->
  get (Renderer.positions s) (i * 3) = Fin x ->
  get (Renderer.positions s) (i * 3 + 2) = Fin z ->
  get (Renderer.rotationRadii s) i = Fin (axisDistance x z) ->
  get (Renderer.angularVelocities s) i = Fin w ->
  let s' := Renderer.updateStarPositions t s in
  exists x' z',
    get (Renderer.positions s') (i * 3) = Fin x'
    /\ get (Renderer.positions s') (i * 3 + 2) = Fin z'
    /\ axisDistance x' z' = axisDistance x z.
Proof.
  intros Hi Hx Hz Hr Hw s'. subst s'. unfold Renderer.updateStarPositions.
  cbn [Renderer.positions].
  destruct (updateStar_loop (Renderer.rotationRadii s)
              (Renderer.angularVelocities s) t (Renderer.positions s))
    as (_ & Hall).
  destruct (Hall i Hi) as (Ex & _ & Ez). rewrite Ex, Ez, Hx, Hz, Hr, Hw.
  unfold rotated. destruct (Fin (axisDistance x z) .< Fin 0.1); cbn.
  - exists x, z. auto.
  - do 2 eexists. split; [reflexivity |]. split; [reflexivity |].
    apply axisDistance_polar. unfold axisDistance. apply sqrt_pos.
Qed.

(* ================================================================== *)
(** ** The viewer's rotation data and frames *)

Lemma initializeRotationData_entries config (pos : list num) :
  let d := Viewer.initializeRotationData config pos in
  let n := starsIn pos in
  List.length (Viewer.radii d) = n
  /\ List.length (Viewer.angles d) = n
  /\ List.length (Viewer.angularVelocities d) = n
  /\ forall i, (i < n)%nat ->
       get (Viewer.radii d) i
       = JS.sqrt (get pos (i * 3) .* get pos (i * 3)
                  .+ get pos (i * 3 + 2) .* get pos (i * 3 + 2))
       /\ get (Viewer.angles d) i = JS.atan2 (get pos (i * 3 + 2)) (get pos (i * 3))
       /\ get (Viewer.angularVelocities d) i
          = Viewer.calculateAngularVelocity config (get (Viewer.radii d) i).
Proof.
  intros d n. subst d. unfold Viewer.initializeRotationData. fold n.
  pose (radiusOf := fun i =>
    JS.sqrt (get pos (i * 3) .* get pos (i * 3)
             .+ get pos (i * 3 + 2) .* get pos (i * 3 + 2))).
  assert (Inv :
    (fun j (d : Viewer.starData) =>
       List.length (Viewer.radii d) = n
       /\ List.length (Viewer.angles d) = n
       /\ List.length (Viewer.angularVelocities d) = n
       /\ forall i, (i < j)%nat ->
            get (Viewer.radii d) i = radiusOf i
            /\ get (Viewer.angles d) i
               = JS.atan2 (get pos (i * 3 + 2)) (get pos (i * 3))
            /\ get (Viewer.angularVelocities d) i
               = Viewer.calculateAngularVelocity config (radiusOf i))
      (0 + n)%nat
      (forRange 0 n (Viewer.rotationDatum config pos)
         {| Viewer.originalPositions := pos;
            Viewer.radii := zeros n;
            Viewer.angles := zeros n;
            Viewer.angularVelocities := zeros n |})).
  { apply forRange_invariant.
    - cbn. rewrite zeros_length. repeat split; intros; lia.
    - intros j d Hj (Lr & La & Lv & Hprev).
      unfold Viewer.rotationDatum.
      cbn [Viewer.radii Viewer.angles Viewer.angularVelocities].
      rewrite !set_length.
      split; [assumption |]. split; [assumption |]. split; [assumption |].
      intros i Hi. destruct (Nat.eq_dec i j) as [-> | Hne].
      + rewrite !get_set_eq by lia. repeat split; reflexivity.
      + rewrite !get_set_neq by lia. apply Hprev. lia. }
  destruct Inv as (Lr & La & Lv & Hall).
  split; [assumption |]. split; [assumption |]. split; [assumption |].
  intros i Hi. destruct (Hall i Hi) as (Hr & Ha & Hv).
  rewrite Hr, Ha, Hv. repeat split; reflexivity.
Qed.

Lemma updateGalaxyRotation_loop (dt : R) (d : Viewer.starData) (p : list num) :
  List.length (Viewer.angles d) = List.length (Viewer.radii d) ->
  (3 * List.length (Viewer.radii d) <= List.length p)%nat ->
  let s' := Viewer.updateGalaxyRotation dt (d, p) in
  Viewer.radii (fst s') = Viewer.radii d
  /\ Viewer.angularVelocities (fst s') = Viewer.angularVelocities d
  /\ List.length (Viewer.angles (fst s')) = List.length (Viewer.angles d)
  /\ List.length (snd s') = List.length p
  /\ forall i, (i < List.length (Viewer.radii d))%nat ->
       get (Viewer.angles (fst s')) i
       = get (Viewer.angles d) i
         .+ get (Viewer.angularVelocities d) i .* Fin dt
       /\ get (snd s') (i * 3)
          = JS.cos (get (Viewer.angles (fst s')) i) .* get (Viewer.radii d) i
       /\ get (snd s') (i * 3 + 1) = get p (i * 3 + 1)
       /\ get (snd s') (i * 3 + 2)
          = JS.sin (get (Viewer.angles (fst s')) i) .* get (Viewer.radii d) i.
Proof.
  intros La Lp s'. subst s'. unfold Viewer.updateGalaxyRotation. cbn [fst].
  set (n := List.length (Viewer.radii d)) in *.
  assert (Inv :
    (fun j (s : Viewer.starData * list num) =>
       Viewer.radii (fst s) = Viewer.radii d
       /\ Viewer.angularVelocities (fst s) = Viewer.angularVelocities d
       /\ List.length (Viewer.angles (fst s)) = n
       /\ List.length (snd s) = List.length p
       /\ (forall i, (j <= i)%nat ->
             get (Viewer.angles (fst s)) i = get (Viewer.angles d) i)
       /\ (forall m, (j * 3 <= m)%nat -> get (snd s) m = get p m)
       /\ forall i, (i < j)%nat ->
            get (Viewer.angles (fst s)) i
            = get (Viewer.angles d) i
              .+ get (Viewer.angularVelocities d) i .* Fin dt
            /\ get (snd s) (i * 3)
               = JS.cos (get (Viewer.angles (fst s)) i) .* get (Viewer.radii d) i
            /\ get (snd s) (i * 3 + 1) = get p (i * 3 + 1)
            /\ get (snd s) (i * 3 + 2)
               = JS.sin (get (Viewer.angles (fst s)) i) .* get (Viewer.radii d) i)
      (0 + n)%nat (forRange 0 n (Viewer.rotateStar dt) (d, p))).
  { apply forRange_invariant.
    - cbn [fst snd]. repeat split; try reflexivity; try assumption.
      all: intros; lia.
    - intros j [d1 p1] Hj (Hr & Hv & Hla & Hlp & Hang & Hrest & Hdone).
      cbn [fst snd] in *. unfold Viewer.rotateStar.
      cbn [fst snd Viewer.radii Viewer.angles Viewer.angularVelocities].
      rewrite !set_length. rewrite Hr, Hv.
      split; [reflexivity |]. split; [reflexivity |].
      split; [assumption |]. split; [assumption |]. split; [| split].
      + intros i Hi. rewrite get_set_neq by lia. apply Hang. lia.
      + intros m Hm. rewrite !get_set_neq by lia. apply Hrest. lia.
      + intros i Hi. destruct (Nat.eq_dec i j) as [-> | Hne].
        * rewrite !get_set_eq by lia. rewrite (Hang j) by lia.
          rewrite get_set_neq by lia.
          rewrite get_set_eq by lia.
          rewrite !(get_set_neq _ _ (j * 3 + 1)) by lia.
          rewrite get_set_eq by (rewrite set_length; lia).
          rewrite Hrest by lia. repeat split; reflexivity.
        * rewrite (get_set_neq _ j i) by lia.
          rewrite !(get_set_neq _ _ (i * 3)) by lia.
          rewrite !(get_set_neq _ _ (i * 3 + 1)) by lia.
          rewrite !(get_set_neq _ _ (i * 3 + 2)) by lia.
          apply Hdone. lia. }
  destruct Inv as (Hr & Hv & Hla & Hlp & _ & _ & Hall).
  split; [assumption |]. split; [assumption |].
  split; [now rewrite Hla, La |]. split; [assumption |]. exact Hall.
Qed.

Lemma viewer_frame (s : Viewer.starData * list num) i rho w theta dt :
  viewerStar s i rho w theta ->
  let s' := Viewer.updateGalaxyRotation dt s in
  viewerStar s' i rho w (theta + w * dt)
  /\ get (snd s') (i * 3) = Fin (cos (theta + w * dt) * rho)
  /\ get (snd s') (i * 3 + 1) = get (snd s) (i * 3 + 1)
  /\ get (snd s') (i * 3 + 2) = Fin (sin (theta + w * dt) * rho).
Proof.
  destruct s as [d p]. intros (Hi & La & Lp & Hr & Hw & Ha) s'.
  cbn [fst snd] in *.
  destruct (updateGalaxyRotation_loop dt d p La Lp)
    as (Er & Ev & Ela & Elp & Hall).
  fold s' in Er, Ev, Ela, Elp, Hall.
  destruct (Hall i Hi) as (Ea & Ex & Ey & Ez).
  rewrite Ha, Hw in Ea. cbn in Ea.
  rewrite Ea, Hr in Ex, Ez. cbn in Ex, Ez.
  unfold viewerStar. rewrite Er, Ev, Ela, Elp, Hr, Hw, Ea.
  repeat split; assumption.
Qed.

Lemma viewer_frames i rho w :
  forall deltas dt s theta,
    viewerStar s i rho w theta ->
    let s' := Viewer.animate (dt :: deltas) s in
    let angle := theta + w * totalTime (dt :: deltas) in
    viewerStar s' i rho w angle
    /\ get (snd s') (i * 3) = Fin (cos angle * rho)
    /\ get (snd s') (i * 3 + 1) = get (snd s) (i * 3 + 1)
    /\ get (snd s') (i * 3 + 2) = Fin (sin angle * rho).
Proof.
  induction deltas as [| d2 deltas IH]; intros dt s theta Hs.
  - cbn [Viewer.animate fold_left totalTime fold_right].
    replace (dt + 0) with dt by lra.
    apply viewer_frame. assumption.
  - destruct (viewer_frame s i rho w theta dt Hs) as (Hs1 & _ & Hy1 & _).
    specialize (IH d2 (Viewer.updateGalaxyRotation dt s) (theta + w * dt) Hs1).
    cbn zeta in IH.
    change (Viewer.animate (dt :: d2 :: deltas) s)
      with (Viewer.animate (d2 :: deltas) (Viewer.updateGalaxyRotation dt s)).
    replace (theta + w * totalTime (dt :: d2 :: deltas))
      with (theta + w * dt + w * totalTime (d2 :: deltas))
      by (cbn [totalTime fold_right]; ring).
    cbv zeta. rewrite <- Hy1. exact IH.
Qed.

(** X16. The viewer's incremental rotation, from the rotation data it
    initializes: after any frames the star is where the absolute-time angle
    [atan2(z, x) + w * T] puts it, [T] being the total of the frame deltas; its
    height and its distance to the vertical axis are those it started with. *)
Theorem viewer_rotation_absolute_time config (pos : list num) (i : nat)
    (x z dt : R) (deltas : list R) :
  (i < starsIn pos)%nat ->
  get pos (i * 3) = Fin x -> get pos (i * 3 + 2) = Fin z ->
  let rho := axisDistance x z in
  let w := angularVelocitySpec rho (rotationSpeed config) in
  let angle := JS.Ratan2 z x + w * totalTime (dt :: deltas) in
  let s' := Viewer.animate (dt :: deltas)
              (Viewer.initializeRotationData config pos, pos) in
  get (Viewer.radii (fst s')) i = Fin rho
  /\ get (snd s') (i * 3) = Fin (cos angle * rho)
  /\ get (snd s') (i * 3 + 1) = get pos (i * 3 + 1)
  /\ get (snd s') (i * 3 + 2) = Fin (sin angle * rho)
  /\ axisDistance (cos angle * rho) (sin angle * rho) = axisDistance x z.
Proof.
  intros Hi Hx Hz rho w angle s'.
  destruct (initializeRotationData_entries config pos)
    as (Lr & La & Lv & Hall).
  destruct (Hall i Hi) as (Er & Ea & Ev).
  rewrite Hx, Hz in Er, Ea. cbn [JS.mul JS.add JS.lift2 JS.atan2] in Er, Ea.
  rewrite sqrt_fin in Er by nra.
  rewrite Er, viewer_calculateAngularVelocity, calculateAngularVelocity_fin in Ev.
  assert (Hs : viewerStar (Viewer.initializeRotationData config pos, pos)
                 i rho w (JS.Ratan2 z x)).
  { unfold viewerStar. cbn [fst snd]. rewrite Lr, La.
    pose proof (starsIn_bound pos).
    repeat split; try assumption; try lia. }
  destruct (viewer_frames i rho w deltas dt _ _ Hs) as (Hs' & Ex & Ey & Ez).
  fold s' in Hs', Ex, Ey, Ez. fold angle in Hs', Ex, Ez.
  destruct Hs' as (_ & _ & _ & Hr' & _).
  split; [exact Hr' |]. split; [exact Ex |]. split; [exact Ey |].
  split; [exact Ez |].
  apply axisDistance_polar. unfold rho, axisDistance. apply sqrt_pos.
Qed.

(* ================================================================== *)
(** ** What the orchestrator's frames add up to *)

Lemma axisDistance_factor (x z : R) :
  x <> 0 -> axisDistance x z = Rabs x * sqrt (1 + (z / x)²).
Proof.
  intros Hx. unfold axisDistance.
  replace (x * x + z * z) with (Rsqr x * (1 + (z / x)²))
    by (unfold Rsqr; field; assumption).
  rewrite sqrt_mult.
  - now rewrite sqrt_Rsqr_abs.
  - apply Rle_0_sqr.
  - pose proof (Rle_0_sqr (z / x)). lra.
Qed.

Lemma sqrt_one_plus_sq_pos (u : R) : 0 < sqrt (1 + u²).
Proof. apply sqrt_lt_R0. pose proof (Rle_0_sqr u). lra. Qed.

(** [atan2(z, x)] is the polar angle of [(x, z)]. *)
Lemma Ratan2_polar (x z : R) :
  cos (JS.Ratan2 z x) * axisDistance x z = x
  /\ sin (JS.Ratan2 z x) * axisDistance x z = z.
Proof.
  unfold JS.Ratan2.
  destruct (Rlt_dec 0 x) as [Hpos | Hnpos];
    [| destruct (Rlt_dec x 0) as [Hneg | Hnneg]].
  - pose proof (sqrt_one_plus_sq_pos (z / x)) as Hs.
    rewrite axisDistance_factor by lra. rewrite Rabs_right by lra.
    rewrite cos_atan, sin_atan. split; field; lra.
  - pose proof (sqrt_one_plus_sq_pos (z / x)) as Hs.
    rewrite axisDistance_factor by lra. rewrite Rabs_left by lra.
    destruct (Rle_dec 0 z).
    + rewrite neg_cos, neg_sin, cos_atan, sin_atan. split; field; lra.
    + unfold Rminus. rewrite cos_plus, sin_plus, cos_neg, sin_neg, cos_PI, sin_PI.
      rewrite cos_atan, sin_atan. split; field; lra.
  - assert (Hx : x = 0) by lra. subst x. unfold axisDistance.
    replace (0 * 0 + z * z) with (Rsqr z) by (unfold Rsqr; ring).
    rewrite sqrt_Rsqr_abs.
    destruct (Rlt_dec 0 z); [| destruct (Rlt_dec z 0)].
    + rewrite cos_PI2, sin_PI2, Rabs_right by lra. lra.
    + rewrite cos_neg, sin_neg, cos_PI2, sin_PI2, Rabs_left by lra. lra.
    + assert (Hz : z = 0) by lra. subst z.
      rewrite cos_0, sin_0, Rabs_R0. lra.
Qed.

Lemma rot_axisDistance (a x z : R) :
  axisDistance (rotX a x z) (rotZ a x z) = axisDistance x z.
Proof.
  unfold axisDistance, rotX, rotZ. f_equal.
  pose proof (sin_cos_sq a) as H.
  replace ((x * cos a - z * sin a) * (x * cos a - z * sin a)
           + (z * cos a + x * sin a) * (z * cos a + x * sin a))
    with ((x * x + z * z) * (sin a * sin a + cos a * cos a)) by ring.
  rewrite H. ring.
Qed.

Lemma rot_rot (a b x z : R) :
  rotX b (rotX a x z) (rotZ a x z) = rotX (a + b) x z
  /\ rotZ b (rotX a x z) (rotZ a x z) = rotZ (a + b) x z.
Proof.
  unfold rotX, rotZ. rewrite cos_plus, sin_plus. split; ring.
Qed.

(** One frame turns such a star by [t * w] from where it is. *)
Lemma updateStarPositions_turns (s : Renderer.state) i x z w t :
  movingStar s i x z w ->
  movingStar (Renderer.updateStarPositions t s) i
    (rotX (t * w) x z) (rotZ (t * w) x z) w.
Proof.
  intros (Hi & Hx & Hz & Hr & Hrho & Hw).
  unfold movingStar, Renderer.updateStarPositions.
  cbn [Renderer.positions Renderer.rotationRadii Renderer.angularVelocities].
  destruct (updateStar_loop (Renderer.rotationRadii s)
              (Renderer.angularVelocities s) t (Renderer.positions s))
    as (Hlen & Hall).
  destruct (Hall i Hi) as (Ex & _ & Ez).
  rewrite Hx, Hz, Hr, Hw in Ex, Ez. unfold rotated in Ex, Ez.
  rewrite lt_fin_false in Ex, Ez by assumption.
  cbn in Ex, Ez.
  destruct (Ratan2_polar x z) as (Pc & Ps).
  assert (Rx : cos (JS.Ratan2 z x + t * w) * axisDistance x z = rotX (t * w) x z).
  { rewrite cos_plus. unfold rotX.
    transitivity (cos (JS.Ratan2 z x) * axisDistance x z * cos (t * w)
                  - sin (JS.Ratan2 z x) * axisDistance x z * sin (t * w));
      [ring | now rewrite Pc, Ps]. }
  assert (Rz : sin (JS.Ratan2 z x + t * w) * axisDistance x z = rotZ (t * w) x z).
  { rewrite sin_plus. unfold rotZ.
    transitivity (sin (JS.Ratan2 z x) * axisDistance x z * cos (t * w)
                  + cos (JS.Ratan2 z x) * axisDistance x z * sin (t * w));
      [ring | now rewrite Pc, Ps]. }
  rewrite Rx in Ex. rewrite Rz in Ez.
  rewrite rot_axisDistance.
  unfold starsIn in *. rewrite Hlen.
  repeat split; assumption.
Qed.

(** X17. Over the frames at elapsed times [t1 ... tn] the star is turned by
    [w * (t1 + ... + tn)] from its initial position: every frame adds its
    whole elapsed time to the angle reached by the frames before it. *)
Theorem animate_accumulates_elapsed_times i w :
  forall frames s x z,
    movingStar s i x z w ->
    movingStar (Renderer.animate frames s) i
      (rotX (w * totalTime frames) x z) (rotZ (w * totalTime frames) x z) w.
Proof.
  induction frames as [| t frames IH]; intros s x z Hs.
  - cbn [Renderer.animate fold_left totalTime fold_right].
    unfold rotX, rotZ. rewrite Rmult_0_r, cos_0, sin_0.
    replace (x * 1 - z * 0) with x by ring.
    replace (z * 1 + x * 0) with z by ring. exact Hs.
  - change (Renderer.animate (t :: frames) s)
      with (Renderer.animate frames (Renderer.updateStarPositions t s)).
    specialize (IH _ _ _ (updateStarPositions_turns s i x z w t Hs)).
    destruct (rot_rot (t * w) (w * totalTime frames) x z) as (Ex & Ez).
    rewrite Ex, Ez in IH.
    replace (w * totalTime (t :: frames)) with (t * w + w * totalTime frames)
      by (unfold totalTime; cbn [fold_right]; ring).
    exact IH.
Qed.

(* ================================================================== *)
(** ** The rendering optimizer *)

Lemma bucket_pushTo (m : Optimizer.buckets) (level l : nat) (e : Optimizer.entry) :
  Optimizer.bucket (Optimizer.pushTo m level e) l
  = if Nat.eqb level l then Optimizer.bucket m l ++ [e] else Optimizer.bucket m l.
Proof.
  induction m as [| [l0 es] m IH]; simpl.
  - rewrite Nat.eqb_sym. destruct (Nat.eqb l level); reflexivity.
  - destruct (Nat.eqb l0 level) eqn:E0; simpl.
    + apply Nat.eqb_eq in E0. subst l0.
      destruct (Nat.eqb level l); reflexivity.
    + destruct (Nat.eqb l0 l) eqn:E1.
      * apply Nat.eqb_eq in E1. subst l0. now rewrite Nat.eqb_sym, E0.
      * exact IH.
Qed.

(** Each bucket holds, in index order, the stars classified at its level. *)
Lemma optimizeStarRendering_buckets isPointVisible cameraPosition
    (positions colors sizes : list num) (level : nat) :
  Optimizer.bucket
    (Optimizer.optimizeStarRendering isPointVisible cameraPosition positions colors sizes)
    level
  = map (entryOf cameraPosition positions colors sizes)
      (filter (fun i => filedAt (Optimizer.classify isPointVisible
                                   cameraPosition positions i) level)
         (seq 0 (starsIn positions))).
Proof.
  unfold Optimizer.optimizeStarRendering.
  assert (Inv :
    (fun j (m : Optimizer.buckets) =>
       Optimizer.bucket m level
       = map (entryOf cameraPosition positions colors sizes)
           (filter (fun i => filedAt (Optimizer.classify isPointVisible
                                        cameraPosition positions i) level)
              (seq 0 j)))
      (0 + starsIn positions)%nat
      (forRange 0 (starsIn positions)
         (Optimizer.processStar isPointVisible cameraPosition
            positions colors sizes) [])).
  { apply forRange_invariant.
    - reflexivity.
    - intros j m _ Hm. rewrite seq_S, filter_app, map_app. cbn [seq filter Nat.add].
      unfold Optimizer.processStar.
      destruct (Optimizer.classify isPointVisible cameraPosition positions j)
        as [l |]; cbn [filedAt].
      + rewrite bucket_pushTo, Hm.
        destruct (Nat.eqb l level); [reflexivity | now rewrite app_nil_r].
      + now rewrite Hm, app_nil_r. }
  exact Inv.
Qed.

Lemma distanceTo_self (x y z : R) :
  Optimizer.distanceTo (Optimizer.mkVector3 (Fin x) (Fin y) (Fin z))
    (Optimizer.mkVector3 (Fin x) (Fin y) (Fin z)) = Fin 0.
Proof.
  unfold Optimizer.distanceTo. cbn [Optimizer.vx Optimizer.vy Optimizer.vz
    JS.sub JS.mul JS.add JS.lift2].
  rewrite sqrt_fin by nra. f_equal.
  replace ((x - x) * (x - x) + (y - y) * (y - y) + (z - z) * (z - z))
    with 0 by ring.
  apply sqrt_0.
Qed.

Lemma getLODLevel_table (d : R) :
  Optimizer.getLODLevel (Fin d)
  = if Rlt_dec d 50 then 0%nat
    else if Rlt_dec d 100 then 1%nat
    else if Rlt_dec d 200 then 2%nat
    else if Rlt_dec d 400 then 3%nat
    else 4%nat.
Proof.
  unfold Optimizer.getLODLevel, Optimizer.lodDistances, Optimizer.lodFrom, JS.lt.
  repeat match goal with
         | |- context [Rlt_dec ?a ?b] => destruct (Rlt_dec a b)
         end; reflexivity.
Qed.

(** C6 (amended).  A star farther than 800 from the camera is filed under no
    level; neither is a star the frustum test rejects; any other star is filed
    under the first level whose threshold among 50, 100, 200, 400 exceeds its
    distance, and under level 4 from 400 on.  A star at the camera position
    is at distance 0, for which the level is 0: it is filed under level 0
    when the frustum test accepts the camera position, and under no level
    otherwise.  Each bucket holds exactly the stars filed under its level. *)
Theorem classify_by_distance_and_frustum isPointVisible cameraPosition
    (positions colors sizes : list num) (i : nat) (x y z d : R) :
  get positions (i * 3) = Fin x ->
  get positions (i * 3 + 1) = Fin y ->
  get positions (i * 3 + 2) = Fin z ->
  Optimizer.distanceTo (Optimizer.mkVector3 (Fin x) (Fin y) (Fin z))
    cameraPosition = Fin d ->
  let p := Optimizer.mkVector3 (Fin x) (Fin y) (Fin z) in
  let c := Optimizer.classify isPointVisible cameraPosition positions i in
  (800 < d -> c = None)
  /\ (isPointVisible p = false -> c = None)
  /\ (d <= 800 -> isPointVisible p = true ->
      exists level,
        c = Some level /\ (level <= 4)%nat
        /\ (forall j, (j < level)%nat -> nth j Optimizer.lodDistances 0 <= d)
        /\ ((level < 4)%nat -> d < nth level Optimizer.lodDistances 0))
  /\ (cameraPosition = p ->
      d = 0 /\ Optimizer.getLODLevel (Fin d) = 0%nat
      /\ c = if isPointVisible p then Some 0%nat else None)
  /\ (forall level,
        Optimizer.bucket
          (Optimizer.optimizeStarRendering isPointVisible cameraPosition
             positions colors sizes) level
        = map (entryOf cameraPosition positions colors sizes)
            (filter (fun j => filedAt (Optimizer.classify isPointVisible
                                         cameraPosition positions j) level)
               (seq 0 (starsIn positions)))).
Proof.
  intros Hx Hy Hz Hd p c.
  assert (Ec : c = if Fin d .> Fin 800 then None
                   else if negb (isPointVisible p) then None
                   else Some (Optimizer.getLODLevel (Fin d))).
  { subst c. unfold Optimizer.classify. rewrite Hx, Hy, Hz, Hd.
    cbn [Optimizer.lodDistances last].
    replace (400 * 2) with 800 by lra. reflexivity. }
  refine (conj _ (conj _ (conj _ (conj _ _)))).
  - intros Hfar. rewrite Ec. unfold JS.gt. now rewrite lt_fin_true.
  - intros Hvis. rewrite Ec, Hvis. cbn [negb].
    destruct (Fin d .> Fin 800); reflexivity.
  - intros Hnear Hvis. rewrite Ec, Hvis. unfold JS.gt.
    rewrite lt_fin_false by assumption. cbn [negb].
    eexists. split; [reflexivity |]. rewrite getLODLevel_table.
    destruct (Rlt_dec d 50); [| destruct (Rlt_dec d 100);
      [| destruct (Rlt_dec d 200); [| destruct (Rlt_dec d 400)]]].
    all: split; [lia |]; split;
      [ intros j Hj; do 4 (destruct j as [| j]; [try lia; simpl; lra |]); lia
      | intros Hl; first [lia | simpl; lra] ].
  - intros Hcam. rewrite Hcam in Hd. unfold p in Hd.
    rewrite distanceTo_self in Hd. injection Hd as Hd0.
    assert (E0 : d = 0) by lra. split; [exact E0 |].
    split; [rewrite E0, getLODLevel_table; destruct (Rlt_dec 0 50); [reflexivity | lra] |].
    rewrite Ec, E0. unfold JS.gt. rewrite lt_fin_false by lra.
    rewrite getLODLevel_table.
    destruct (isPointVisible p); cbn [negb]; [| reflexivity].
    destruct (Rlt_dec 0 50); [reflexivity | lra].
  - intros level. apply optimizeStarRendering_buckets.
Qed.

Lemma axisFrustum_camera : axisFrustum axisCamera = false.
Proof.
  unfold axisFrustum, containsPoint, distanceToPoint, nearPlane, axisCamera.
  cbn [forallb nx ny nz constant Optimizer.vx Optimizer.vy Optimizer.vz
       JS.mul JS.add JS.lift2].
  rewrite lt_fin_true by lra. reflexivity.
Qed.

Lemma axisFrustum_origin :
  axisFrustum (Optimizer.mkVector3 (Fin 0) (Fin 0) (Fin 0)) = true.
Proof.
  unfold axisFrustum, containsPoint, distanceToPoint, nearPlane.
  cbn [forallb nx ny nz constant Optimizer.vx Optimizer.vy Optimizer.vz
       JS.mul JS.add JS.lift2].
  rewrite lt_fin_false by lra. reflexivity.
Qed.

(** C6, counterexample: a star at the camera position lies behind the near
    plane; it is at distance 0, the frustum test rejects it, and it is filed
    under no level. *)
Lemma star_at_camera_culled :
  let positions := [Fin 0; Fin 0; Fin 100] in
  let colors := [Fin 1; Fin 1; Fin 1] in
  let sizes := [Fin 0.1] in
  Optimizer.mkVector3 (get positions 0) (get positions 1) (get positions 2)
  = axisCamera
  /\ Optimizer.distanceTo axisCamera axisCamera = Fin 0
  /\ axisFrustum axisCamera = false
  /\ Optimizer.classify axisFrustum axisCamera positions 0 = None
  /\ forall level,
       Optimizer.bucket
         (Optimizer.optimizeStarRendering axisFrustum axisCamera positions colors sizes)
         level = [].
Proof.
  intros positions colors sizes.
  assert (Hc : Optimizer.classify axisFrustum axisCamera positions 0 = None).
  { unfold Optimizer.classify. cbn [get nth positions Nat.mul Nat.add].
    fold axisCamera. rewrite axisFrustum_camera. cbn [negb].
    destruct (_ .> _); reflexivity. }
  split; [reflexivity |]. split; [apply distanceTo_self |].
  split; [exact axisFrustum_camera |]. split; [exact Hc |].
  intros level. rewrite optimizeStarRendering_buckets.
  cbn [starsIn positions List.length Nat.div Nat.divmod fst seq filter].
  rewrite Hc. reflexivity.
Qed.

(** C6, witness: a star at the origin, 100 away from the camera and in front
    of the near plane, is filed under level 2. *)
Lemma classify_by_distance_and_frustum_witness :
  let positions := [Fin 0; Fin 0; Fin 0] in
  exists level,
    Optimizer.classify axisFrustum axisCamera positions 0 = Some level
    /\ (level <= 4)%nat
    /\ (forall j, (j < level)%nat -> nth j Optimizer.lodDistances 0 <= 100)
    /\ ((level < 4)%nat -> 100 < nth level Optimizer.lodDistances 0).
Proof.
  intros positions.
  assert (Hd : Optimizer.distanceTo
                 (Optimizer.mkVector3 (Fin 0) (Fin 0) (Fin 0)) axisCamera
               = Fin 100).
  { unfold Optimizer.distanceTo, axisCamera.
    cbn [Optimizer.vx Optimizer.vy Optimizer.vz JS.sub JS.mul JS.add JS.lift2].
    rewrite sqrt_fin by nra. f_equal.
    replace ((0 - 0) * (0 - 0) + (0 - 0) * (0 - 0) + (0 - 100) * (0 - 100))
      with (100 * 100) by ring.
    apply sqrt_square. lra. }
  destruct (classify_by_distance_and_frustum axisFrustum axisCamera
              positions [Fin 1; Fin 1; Fin 1] [Fin 0.1] 0 0 0 0 100
              eq_refl eq_refl eq_refl Hd) as (_ & _ & H & _).
  apply H; [lra | exact axisFrustum_origin].
Defined.

(** With brightness 0 a bulge star keeps the red channel of its palette,
    which is 1: the colour is not scaled to black. *)
Lemma bulge_brightness_zero_keeps_red :
  let config := withBrightness DEFAULT_GALAXY_CONFIG (Some 0) in
  let out := fst (addCentralBulge hexRGB config [] [] [] 1 halves 0%nat) in
  get (colors out) 0 = Fin 1.
Proof.
  intros config out. subst out. rewrite addCentralBulge_stars. cbn [fst].
  rewrite appendStars_colors. change (Z.to_nat 1) with 1%nat.
  rewrite starsOf_one. cbn [colors app flat_map rgb get nth sred].
  unfold firstStar, bulgeStar, bind, ret, random.
  cbn [fst colors positions sizes push3 push app get nth sred].
  unfold config. destruct (brightnessValue_falsy DEFAULT_GALAXY_CONFIG) as (-> & _).
  cbn [multiplyScalar lerpColors cr hexRGB].
  change (Z.land (Z.shiftr 0xffaa66 16) 255) with 255%Z.
  change (Z.land (Z.shiftr 0xff8844 16) 255) with 255%Z.
  cbn [push3 colors noStars app nth].
  f_equal. field.
Qed.

(** The star at (4, 0, 0) of the one-star galaxy is a moving star, and the
    frames at elapsed times 25 pi / 2 and 25 pi turn it by
    0.04 * (25 pi / 2 + 25 pi), three quarters of a turn. *)
Lemma flatStar_accumulates :
  movingStar (oneStarGalaxy 0.5) 0 4 0 (0.1 * (4 / 10))
  /\ movingStar (Renderer.animate [25 * PI / 2; 25 * PI] (oneStarGalaxy 0.5)) 0
       (rotX (0.1 * (4 / 10) * totalTime [25 * PI / 2; 25 * PI]) 4 0)
       (rotZ (0.1 * (4 / 10) * totalTime [25 * PI / 2; 25 * PI]) 4 0)
       (0.1 * (4 / 10))
  /\ 0.1 * (4 / 10) * totalTime [25 * PI / 2; 25 * PI] = 3 * (PI / 2).
Proof.
  destruct flatStar_rotation as (Hr & Hv & Hp).
  assert (H4 : axisDistance 4 0 = 4).
  { unfold axisDistance. replace (4 * 4 + 0 * 0) with (4 * 4) by lra.
    apply sqrt_square. lra. }
  assert (Hm : movingStar (oneStarGalaxy 0.5) 0 4 0 (0.1 * (4 / 10))).
  { unfold movingStar. rewrite Hp, Hr, Hv, H4.
    cbn [starsIn List.length Nat.div Nat.divmod fst get nth Nat.mul Nat.add].
    repeat split; try reflexivity; try lia; lra. }
  split; [exact Hm |]. split.
  - apply animate_accumulates_elapsed_times. exact Hm.
  - unfold totalTime. cbn [fold_right]. lra.
Defined.

(** The viewer on the same star: after frames of 12.5 pi each it is where
    the absolute-time angle puts it. *)
Lemma viewer_rotation_flatStar :
  let pos := [Fin 4; Fin 0; Fin 0] in
  let s' := Viewer.animate [25 * PI / 2; 25 * PI / 2]
              (Viewer.initializeRotationData DEFAULT_GALAXY_CONFIG pos, pos) in
  let angle := JS.Ratan2 0 4
               + angularVelocitySpec (axisDistance 4 0) 0.1
                 * totalTime [25 * PI / 2; 25 * PI / 2] in
  get (snd s') 0 = Fin (cos angle * axisDistance 4 0)
  /\ get (snd s') 2 = Fin (sin angle * axisDistance 4 0).
Proof.
  intros pos s' angle.
  destruct (viewer_rotation_absolute_time DEFAULT_GALAXY_CONFIG pos 0 4 0
              (25 * PI / 2) [25 * PI / 2]) as (_ & Hx & _ & Hz & _);
    try reflexivity.
  - cbn. lia.
  - split; [exact Hx | exact Hz].
Defined.

(* ================================================================== *)
(** ** Further properties of the rotation curve *)

Lemma Rpower_one (y : R) : Rpower 1 y = 1.
Proof. unfold Rpower. rewrite ln_1, Rmult_0_r. apply exp_0. Qed.

Lemma outer_factor_le_1 (r : R) : 30 <= r -> Rpower (30 / r) 0.3 <= 1.
Proof.
  intros Hr. rewrite <- (Rpower_one 0.3).
  apply Rle_Rpower_l; [lra |]. split.
  - apply Rdiv_lt_0_compat; lra.
  - apply Rmult_le_reg_r with r; [lra |]. unfold Rdiv.
    rewrite Rmult_assoc, Rinv_l by lra. lra.
Qed.

Lemma angularVelocitySpec_range (r s : R) :
  0 <= r -> 0 <= s -> 0 <= angularVelocitySpec r s <= s.
Proof.
  intros Hr Hs. unfold angularVelocitySpec.
  destruct (Rlt_dec r 10); [| destruct (Rlt_dec r 30)].
  - split; [apply Rmult_le_pos; lra | nra].
  - lra.
  - pose proof (outer_factor_le_1 r ltac:(lra)) as H1.
    pose proof (Rpower_pos (30 / r) 0.3) as H0. split; nra.
Qed.

(** X1. For a rotation speed [s >= 0] and radii [>= 0] the curve stays
    within [0, s]; it does not decrease up to radius 30 and does not increase
    from radius 10 on, so that [s] is its peak, reached on [10, 30]. *)
Theorem calculateAngularVelocity_peak (s : R) :
  0 <= s ->
  (forall r, 0 <= r ->
     exists v, calculateAngularVelocity (Fin r) s = Fin v /\ 0 <= v <= s)
  /\ (forall r1 r2, 0 <= r1 -> r1 <= r2 -> r2 <= 30 ->
        exists v1 v2,
          calculateAngularVelocity (Fin r1) s = Fin v1
          /\ calculateAngularVelocity (Fin r2) s = Fin v2 /\ v1 <= v2)
  /\ (forall r1 r2, 10 <= r1 -> r1 <= r2 ->
        exists v1 v2,
          calculateAngularVelocity (Fin r1) s = Fin v1
          /\ calculateAngularVelocity (Fin r2) s = Fin v2 /\ v2 <= v1).
Proof.
  intros Hs. refine (conj _ (conj _ _)).
  - intros r Hr. eexists. split; [apply calculateAngularVelocity_fin |].
    now apply angularVelocitySpec_range.
  - intros r1 r2 H1 H12 H2. do 2 eexists.
    split; [apply calculateAngularVelocity_fin |].
    split; [apply calculateAngularVelocity_fin |].
    unfold angularVelocitySpec.
    assert (Hq : r1 / 10 <= r2 / 10) by lra.
    destruct (Rlt_dec r1 10), (Rlt_dec r2 10); try lra;
      destruct (Rlt_dec r1 30), (Rlt_dec r2 30); try lra.
    + now apply Rmult_le_compat_l.
    + assert (r1 / 10 <= 1) by lra. nra.
    + assert (r2 = 30) by lra. subst r2.
      replace (30 / 30) with 1 by (field; lra). rewrite Rpower_one.
      assert (r1 / 10 <= 1) by lra. nra.
    + assert (r2 = 30) by lra. subst r2.
      replace (30 / 30) with 1 by (field; lra). rewrite Rpower_one. lra.
    + assert (r2 = 30) by lra. assert (r1 = 30) by lra. subst r1 r2. lra.
  - intros r1 r2 H1 H12. do 2 eexists.
    split; [apply calculateAngularVelocity_fin |].
    split; [apply calculateAngularVelocity_fin |].
    unfold angularVelocitySpec.
    destruct (Rlt_dec r1 10), (Rlt_dec r2 10); try lra;
      destruct (Rlt_dec r1 30), (Rlt_dec r2 30); try lra.
    + pose proof (outer_factor_le_1 r2 ltac:(lra)). nra.
    + destruct (Req_dec_T r1 r2) as [-> | Hne]; [lra |].
      pose proof (outer_factor_decreasing r1 r2 ltac:(lra) ltac:(lra)). nra.
Qed.

Lemma calculateAngularVelocity_peak_witness :
  exists v, calculateAngularVelocity (Fin 50) 0.1 = Fin v /\ 0 <= v <= 0.1.
Proof.
  destruct (calculateAngularVelocity_peak 0.1) as (H & _); [lra |].
  apply H. lra.
Defined.

(* ================================================================== *)
(** ** Every star of the generator's loops *)

Lemma starAtFrom_appendStars acc l i :
  (i < List.length l)%nat ->
  starAtFrom (appendStars acc l) (List.length (positions acc))
    (List.length (colors acc)) (List.length (sizes acc)) i
  = nth i l nanStar.
Proof.
  intros Hi. unfold starAtFrom.
  rewrite appendStars_positions, appendStars_colors, appendStars_sizes.
  rewrite !get_app_r.
  destruct (get_xyz l i Hi) as (Gx & Gy & Gz).
  destruct (get_rgb l i Hi) as (Gr & Gg & Gb).
  rewrite Gx, Gy, Gz, Gr, Gg, Gb, (get_sizes l i Hi).
  destruct (nth i l nanStar). reflexivity.
Qed.

(** What holds of the star pushed by any iteration holds of every star of
    [generateSpiralArms]. *)
Lemma generateSpiralArms_each hexColor styleColor config t rnd k
    (P : star -> Prop) :
  (forall j, P (firstStar (fst (spiralStar hexColor styleColor config
                                  (t * (1 + (armCount config - 2) * 0.05))
                                  noStars rnd j)))) ->
  forall i, (Z.of_nat i < starCount config)%Z ->
    P (starAt (fst (generateSpiralArms hexColor styleColor config t rnd k)) i).
Proof.
  intros HP i Hi. rewrite generateSpiralArms_stars. cbn [fst].
  pose proof (starsOf_length
                (spiralStar hexColor styleColor config
                   (t * (1 + (armCount config - 2) * 0.05)))
                (Z.to_nat (starCount config)) rnd k) as Hlen.
  pose proof (starsOf_Forall _ P rnd HP (Z.to_nat (starCount config)) k) as Hall.
  set (l := fst (starsOf _ _ rnd k)) in *.
  assert (Hi' : (i < List.length l)%nat) by lia.
  pose proof (starAtFrom_appendStars noStars l i Hi') as E.
  cbn [positions colors sizes noStars List.length] in E.
  unfold starAt. rewrite E.
  rewrite Forall_forall in Hall. apply Hall. now apply nth_In.
Qed.

(** What holds of the star pushed by any iteration holds of every star
    appended by [addCentralBulge]. *)
Lemma addCentralBulge_each hexColor config ps cs ss N rnd k (P : star -> Prop) :
  (forall j, P (firstStar (fst (bulgeStar hexColor config noStars rnd j)))) ->
  forall i, (Z.of_nat i < N)%Z ->
    P (starAtFrom (fst (addCentralBulge hexColor config ps cs ss N rnd k))
         (List.length ps) (List.length cs) (List.length ss) i).
Proof.
  intros HP i Hi. rewrite addCentralBulge_stars. cbn [fst].
  pose proof (starsOf_length (bulgeStar hexColor config) (Z.to_nat N) rnd k)
    as Hlen.
  pose proof (starsOf_Forall _ P rnd HP (Z.to_nat N) k) as Hall.
  set (l := fst (starsOf _ _ rnd k)) in *.
  assert (Hi' : (i < List.length l)%nat) by lia.
  pose proof (starAtFrom_appendStars
                {| positions := ps; colors := cs; sizes := ss |} l i Hi') as E.
  cbn [positions colors sizes] in E. rewrite E.
  rewrite Forall_forall in Hall. apply Hall. now apply nth_In.
Qed.

Lemma exp_neg_le_1 (r : R) : 0 <= r -> exp (- r / 30) <= 1.
Proof.
  intros Hr. rewrite <- exp_0.
  destruct (Req_dec_T r 0) as [-> | Hne].
  - right. f_equal. lra.
  - left. apply exp_increasing. lra.
Qed.

(** X2. The disk thins out: for a nonzero [armCount], every star of
    [generateSpiralArms] is finite and its height is at most
    [2.5 * exp(-d / 30)] in absolute value, [d] being its distance to the
    vertical axis; in particular at most 2.5. *)
Theorem generateSpiralArms_height hexColor styleColor config t rnd k :
  unitDraws rnd -> armCount config <> 0 ->
  let out := fst (generateSpiralArms hexColor styleColor config t rnd k) in
  forall i, (Z.of_nat i < starCount config)%Z ->
    exists x y z,
      get (positions out) (i * 3) = Fin x
      /\ get (positions out) (i * 3 + 1) = Fin y
      /\ get (positions out) (i * 3 + 2) = Fin z
      /\ Rabs y <= 2.5 * exp (- axisDistance x z / 30)
      /\ Rabs y <= 2.5.
Proof.
  intros Hr Ha out i Hi.
  apply (generateSpiralArms_each hexColor styleColor config t rnd k
           (fun s => exists x y z,
                sx s = Fin x /\ sy s = Fin y /\ sz s = Fin z
                /\ Rabs y <= 2.5 * exp (- axisDistance x z / 30)
                /\ Rabs y <= 2.5)); [| assumption].
  intros j. set (t' := t * (1 + (armCount config - 2) * 0.05)).
  unfold firstStar. cbn [sx sy sz]. rewrite spiralStar_positions.
  cbn [positions noStars push3 app get nth].
  destruct (finalAngleAt_finite config t' rnd j Ha) as (a & ->).
  cbn [JS.cos JS.sin JS.lift1 JS.mul JS.lift2].
  do 3 eexists. do 3 (split; [reflexivity |]).
  assert (Hfr : 0 <= finalRadiusAt config rnd j) by apply Rmax_l.
  rewrite axisDistance_polar by assumption.
  pose proof (Hr (S (S (S (S j))))) as H5.
  pose proof (exp_pos (- finalRadiusAt config rnd j / 30)) as He.
  pose proof (exp_neg_le_1 _ Hfr) as He1.
  assert (Hy : Rabs ((rnd (S (S (S (S j)))) - 0.5) * 5
                     * exp (- finalRadiusAt config rnd j / 30))
               <= 2.5 * exp (- finalRadiusAt config rnd j / 30)).
  { apply Rabs_le. split; nra. }
  split; [exact Hy | nra].
Qed.

Lemma generateSpiralArms_height_witness :
  let config := withStarCount DEFAULT_GALAXY_CONFIG 2 in
  let out := fst (generateSpiralArms hexRGB styleRGB config 0.3 halves 0%nat) in
  exists x y z,
    get (positions out) (1 * 3) = Fin x
    /\ get (positions out) (1 * 3 + 1) = Fin y
    /\ get (positions out) (1 * 3 + 2) = Fin z
    /\ Rabs y <= 2.5 * exp (- axisDistance x z / 30)
    /\ Rabs y <= 2.5.
Proof.
  intros config out.
  apply (generateSpiralArms_height hexRGB styleRGB config 0.3 halves 0%nat).
  - exact halves_unit.
  - simpl. lra.
  - simpl. lia.
Defined.

(** X3. For a non-negative [particleSize], every size pushed by
    [generateSpiralArms] lies between [0.5 * particleSize] and
    [3.75 * particleSize]. *)
Theorem generateSpiralArms_sizes hexColor styleColor config t rnd k :
  unitDraws rnd -> 0 <= particleSize config ->
  let out := fst (generateSpiralArms hexColor styleColor config t rnd k) in
  forall i, (Z.of_nat i < starCount config)%Z ->
    exists size,
      get (sizes out) i = Fin size
      /\ 0.5 * particleSize config <= size <= 3.75 * particleSize config.
Proof.
  intros Hr Hp out i Hi.
  apply (generateSpiralArms_each hexColor styleColor config t rnd k
           (fun s => exists size,
                ssize s = Fin size
                /\ 0.5 * particleSize config <= size
                   <= 3.75 * particleSize config)); [| assumption].
  intros j.
  cbv [spiralStar bind ret random pickStarColor].
  split_ifs; cbn; eexists; (split; [reflexivity |]);
    match goal with
    | |- context [rnd ?n * 2 + 0.5] => pose proof (Hr n)
    end; nra.
Qed.

Lemma generateSpiralArms_sizes_witness :
  let config := withStarCount DEFAULT_GALAXY_CONFIG 2 in
  let out := fst (generateSpiralArms hexRGB styleRGB config 0.3 halves 0%nat) in
  exists size,
    get (sizes out) 1 = Fin size /\ 0.5 * 0.1 <= size <= 3.75 * 0.1.
Proof.
  intros config out.
  apply (generateSpiralArms_sizes hexRGB styleRGB config 0.3 halves 0%nat).
  - exact halves_unit.
  - simpl. lra.
  - simpl. lia.
Defined.

(** X4. The bulge is flattened: for draws in [0, 1), [coreSize >= 0] and
    [particleSize > 0], every star appended by [addCentralBulge] is at most
    [coreSize] away from the vertical axis, its height is at most
    [0.3 * coreSize] in absolute value, and its size lies in
    [1.5 * particleSize, 2.5 * particleSize). *)
Theorem addCentralBulge_flattened hexColor config ps cs ss (N : Z) rnd k :
  unitDraws rnd -> 0 <= coreSize config -> 0 < particleSize config ->
  let out := fst (addCentralBulge hexColor config ps cs ss N rnd k) in
  forall i, (Z.of_nat i < N)%Z ->
    exists x y z size,
      get (positions out) (List.length ps + i * 3) = Fin x
      /\ get (positions out) (List.length ps + (i * 3 + 1)) = Fin y
      /\ get (positions out) (List.length ps + (i * 3 + 2)) = Fin z
      /\ get (sizes out) (List.length ss + i) = Fin size
      /\ axisDistance x z <= coreSize config
      /\ Rabs y <= 0.3 * coreSize config
      /\ 1.5 * particleSize config <= size < 2.5 * particleSize config.
Proof.
  intros Hr Hc Hp out i Hi.
  apply (addCentralBulge_each hexColor config ps cs ss N rnd k
           (fun s => exists x y z size,
                sx s = Fin x /\ sy s = Fin y /\ sz s = Fin z
                /\ ssize s = Fin size
                /\ axisDistance x z <= coreSize config
                /\ Rabs y <= 0.3 * coreSize config
                /\ 1.5 * particleSize config <= size
                   < 2.5 * particleSize config)); [| assumption].
  intros j.
  cbv [bulgeStar bind ret random firstStar fst positions sizes colors
       push3 push get app nth sx sy sz ssize noStars].
  do 4 eexists. do 4 (split; [reflexivity |]).
  pose proof (Hr j) as H1. pose proof (Hr (S j)) as H2.
  pose proof (Hr (S (S (S (S (S j)))))) as H5.
  set (r := rnd j * rnd (S j) * coreSize config).
  set (phi := acos (2 * rnd (S (S (S j))) - 1)).
  set (theta := rnd (S (S j)) * 2 * PI).
  assert (Hr0 : 0 <= r <= coreSize config).
  { unfold r. split.
    - apply Rmult_le_pos; [apply Rmult_le_pos |]; lra.
    - assert (rnd j * rnd (S j) <= 1) by nra.
      assert (0 <= rnd j * rnd (S j)) by nra. nra. }
  pose proof (sin_cos_sq phi) as Hphi. pose proof (sin_cos_sq theta) as Hth.
  assert (Hs2 : sin phi * sin phi <= 1) by nra.
  assert (Hc2 : cos phi * cos phi <= 1) by nra.
  split; [| split].
  - unfold axisDistance. apply sqrt_le_bound; [lra |].
    replace (r * sin phi * cos theta * (r * sin phi * cos theta)
             + r * sin phi * sin theta * (r * sin phi * sin theta))
      with (r * r * (sin phi * sin phi)
            * (sin theta * sin theta + cos theta * cos theta)) by ring.
    rewrite Hth.
    assert (0 <= r * r) by nra.
    assert (0 <= sin phi * sin phi) by nra.
    assert (r * r * (sin phi * sin phi) <= r * r) by nra.
    assert (r * r <= coreSize config * coreSize config) by nra.
    nra.
  - assert (Hcp : -1 <= cos phi <= 1) by (split; nra).
    apply Rabs_le. split; nra.
  - nra.
Qed.

Lemma addCentralBulge_flattened_witness :
  let out := fst (addCentralBulge hexRGB DEFAULT_GALAXY_CONFIG [] [] [] 2
                    halves 0%nat) in
  exists x y z size,
    get (positions out) (0 + 1 * 3) = Fin x
    /\ get (positions out) (0 + (1 * 3 + 1)) = Fin y
    /\ get (positions out) (0 + (1 * 3 + 2)) = Fin z
    /\ get (sizes out) (0 + 1) = Fin size
    /\ axisDistance x z <= 3.5
    /\ Rabs y <= 0.3 * 3.5
    /\ 1.5 * 0.1 <= size < 2.5 * 0.1.
Proof.
  intros out.
  apply (addCentralBulge_flattened hexRGB DEFAULT_GALAXY_CONFIG [] [] [] 2
           halves 0%nat).
  - exact halves_unit.
  - simpl. lra.
  - simpl. lra.
  - lia.
Defined.

(* ================================================================== *)
(** ** Draws consumed *)

Lemma starsOf_draws body rnd (lo hi : nat) :
  (forall k, (k + lo <= snd (body noStars rnd k) <= k + hi)%nat) ->
  forall n k,
    (k + n * lo <= snd (starsOf body n rnd k) <= k + n * hi)%nat.
Proof.
  intros Hb. induction n as [| n IH]; intros k; simpl; [lia |].
  specialize (Hb k). destruct (body noStars rnd k) as [d k1].
  specialize (IH k1). destruct (starsOf body n rnd k1) as [l k2].
  simpl in *. lia.
Qed.

Lemma bulgeStar_draws hexColor config acc rnd k :
  snd (bulgeStar hexColor config acc rnd k) = (k + 6)%nat.
Proof. cbv [bulgeStar bind ret random snd]. lia. Qed.

Lemma spiralStar_draws hexColor styleColor config t acc rnd k :
  (k + 7 <= snd (spiralStar hexColor styleColor config t acc rnd k) <= k + 8)%nat.
Proof.
  cbv [spiralStar bind ret random pickStarColor].
  split_ifs; cbn [snd]; lia.
Qed.

(** X5. [addCentralBulge] makes exactly six calls of [Math.random()] per
    star, and [generateSpiralArms] seven or eight per star: the generation
    of [n] spiral stars leaves the random sequence between [7 n] and [8 n]
    draws further, that of [N] bulge stars exactly [6 N] draws further. *)
Theorem generator_draws hexColor styleColor config t ps cs ss (N : Z) rnd k :
  snd (addCentralBulge hexColor config ps cs ss N rnd k)
  = (k + 6 * Z.to_nat N)%nat
  /\ (k + 7 * Z.to_nat (starCount config)
      <= snd (generateSpiralArms hexColor styleColor config t rnd k)
      <= k + 8 * Z.to_nat (starCount config))%nat.
Proof.
  split.
  - rewrite addCentralBulge_stars. cbn [snd].
    pose proof (starsOf_draws (bulgeStar hexColor config) rnd 6 6
                  (fun j => ltac:(rewrite bulgeStar_draws; lia))
                  (Z.to_nat N) k). lia.
  - rewrite generateSpiralArms_stars. cbn [snd].
    pose proof (starsOf_draws _ rnd 7 8
                  (fun j => spiralStar_draws hexColor styleColor config
                              (t * (1 + (armCount config - 2) * 0.05))
                              noStars rnd j)
                  (Z.to_nat (starCount config)) k). lia.
Qed.

(* ================================================================== *)
(** ** The galaxy the orchestrator generates *)

Lemma floor_fifth (n : Z) : JS.floor (IZR n * 0.2) = (n / 5)%Z.
Proof.
  apply Zfloor_eq.
  pose proof (Z.div_mod n 5 ltac:(lia)) as Hdm.
  pose proof (Z.mod_pos_bound n 5 ltac:(lia)) as (Hlo & Hhi).
  assert (Hn : IZR n = 5 * IZR (n / 5) + IZR (n mod 5)).
  { rewrite <- mult_IZR, <- plus_IZR. now f_equal. }
  apply IZR_le in Hlo. apply IZR_lt in Hhi. lra.
Qed.

Lemma generateGalaxy_arrays hexColor styleColor config rnd k :
  let sp := generateSpiralArms hexColor styleColor config 0.3 rnd k in
  let g := addCentralBulge hexColor config (positions (fst sp))
             (colors (fst sp)) (sizes (fst sp))
             (starCount config / 5) rnd (snd sp) in
  let s := fst (Renderer.generateGalaxy hexColor styleColor config rnd k) in
  Renderer.positions s = positions (fst g)
  /\ Renderer.colors s = colors (fst g)
  /\ Renderer.sizes s = sizes (fst g).
Proof.
  unfold Renderer.generateGalaxy, bind, ret. rewrite floor_fifth.
  destruct (generateSpiralArms hexColor styleColor config 0.3 rnd k) as [d k1].
  cbn [fst snd].
  destruct (addCentralBulge hexColor config (positions d) (colors d) (sizes d)
              (starCount config / 5) rnd k1) as [g k2].
  cbn. repeat split; reflexivity.
Qed.

Lemma rotationData_lengths config (positions : list num) :
  let n := starsIn positions in
  let rv := forRange 0 n (Renderer.rotationDatum config positions)
              (zeros n, zeros n) in
  List.length (fst rv) = n /\ List.length (snd rv) = n.
Proof.
  intros n rv.
  apply (forRange_invariant
           (fun (_ : nat) (s : list num * list num) =>
              List.length (fst s) = n /\ List.length (snd s) = n)
           (Renderer.rotationDatum config positions) n 0%nat).
  - cbn [fst snd]. now rewrite zeros_length.
  - intros j [rs vs] _ (Lr & Lv). unfold Renderer.rotationDatum.
    cbn [fst snd] in *. now rewrite !set_length.
Qed.

Lemma starsIn_triple (a : list num) (m : nat) :
  List.length a = (3 * m)%nat -> starsIn a = m.
Proof.
  intros H. unfold starsIn. rewrite H, Nat.mul_comm. apply Nat.div_mul. lia.
Qed.

Lemma generateGalaxy_positions_length hexColor styleColor config rnd k :
  List.length
    (Renderer.positions
       (fst (Renderer.generateGalaxy hexColor styleColor config rnd k)))
  = (3 * (Z.to_nat (starCount config) + Z.to_nat (starCount config / 5)))%nat.
Proof.
  destruct (generateGalaxy_arrays hexColor styleColor config rnd k) as (-> & _).
  rewrite addCentralBulge_stars. cbn [fst]. rewrite appendStars_positions.
  cbn [positions]. rewrite length_app, flat_map_xyz_length, starsOf_length.
  rewrite generateSpiralArms_positions_length. lia.
Qed.

(** X6. With [starCount >= 0], the galaxy [generateGalaxy] builds has
    [starCount + floor(starCount / 5)] stars, the spiral stars followed by
    the bulge: this many sizes, stored radii and stored angular velocities,
    and three times as many positions and colors. *)
Theorem generateGalaxy_star_total hexColor styleColor config rnd k :
  (0 <= starCount config)%Z ->
  let s := fst (Renderer.generateGalaxy hexColor styleColor config rnd k) in
  let total := (starCount config + starCount config / 5)%Z in
  Z.of_nat (List.length (Renderer.positions s)) = (3 * total)%Z
  /\ Z.of_nat (List.length (Renderer.colors s)) = (3 * total)%Z
  /\ Z.of_nat (List.length (Renderer.sizes s)) = total
  /\ Z.of_nat (List.length (Renderer.rotationRadii s)) = total
  /\ Z.of_nat (List.length (Renderer.angularVelocities s)) = total.
Proof.
  intros Hn s total.
  assert (Hq : (0 <= starCount config / 5)%Z) by (apply Z.div_pos; lia).
  pose proof (generateGalaxy_positions_length hexColor styleColor config rnd k)
    as Lp. fold s in Lp.
  destruct (generateGalaxy_fields hexColor styleColor config rnd k)
    as (Er & Ev & _). fold s in Er, Ev.
  destruct (rotationData_lengths config (Renderer.positions s)) as (Lr & Lv).
  rewrite <- Er in Lr. rewrite <- Ev in Lv.
  rewrite (starsIn_triple _ _ Lp) in Lr, Lv.
  destruct (generateGalaxy_arrays hexColor styleColor config rnd k)
    as (_ & Ec & Es). fold s in Ec, Es.
  rewrite addCentralBulge_stars in Ec, Es. cbn [fst] in Ec, Es.
  rewrite appendStars_colors in Ec. rewrite appendStars_sizes in Es.
  cbn [colors sizes] in Ec, Es.
  rewrite generateSpiralArms_stars in Ec, Es. cbn [fst] in Ec, Es.
  rewrite appendStars_colors in Ec. rewrite appendStars_sizes in Es.
  cbn [colors sizes noStars app] in Ec, Es.
  rewrite Lp, Lr, Lv, Ec, Es.
  rewrite !length_app, !flat_map_rgb_length, !length_map, !starsOf_length.
  unfold total. repeat split; lia.
Qed.

Lemma generateGalaxy_star_total_witness :
  let config := withStarCount DEFAULT_GALAXY_CONFIG 12 in
  let s := fst (Renderer.generateGalaxy hexRGB styleRGB config halves 0%nat) in
  List.length (Renderer.positions s) = 42%nat
  /\ List.length (Renderer.sizes s) = 14%nat
  /\ List.length (Renderer.rotationRadii s) = 14%nat.
Proof.
  intros config s.
  destruct (generateGalaxy_star_total hexRGB styleRGB config halves 0%nat)
    as (Hp & _ & Hs & Hr & _).
  - simpl. lia.
  - fold s in Hp, Hs, Hr.
    change (starCount config) with 12%Z in *.
    change (12 / 5)%Z with 2%Z in *. lia.
Defined.

Lemma generateSpiralArms_positions_finite hexColor styleColor config t rnd k :
  armCount config <> 0 ->
  Forall JS.isFinite
    (positions (fst (generateSpiralArms hexColor styleColor config t rnd k))).
Proof.
  intros Ha. rewrite generateSpiralArms_stars. cbn [fst].
  rewrite appendStars_positions. cbn [positions noStars app].
  apply Forall_xyz. apply starsOf_Forall. intros j.
  set (t' := t * (1 + (armCount config - 2) * 0.05)).
  destruct (spiralStar_first hexColor styleColor config t' rnd j)
    as (Hx & (y & Hy) & Hz).
  destruct (finalAngleAt_finite config t' rnd j Ha) as (a & Hfa).
  rewrite Hx, Hy, Hz, Hfa. simpl. auto.
Qed.

Lemma addCentralBulge_positions_finite hexColor config ps cs ss N rnd k :
  Forall JS.isFinite ps ->
  Forall JS.isFinite
    (positions (fst (addCentralBulge hexColor config ps cs ss N rnd k))).
Proof.
  intros Hps. rewrite addCentralBulge_stars. cbn [fst].
  rewrite appendStars_positions. cbn [positions].
  apply Forall_app. split; [assumption |].
  apply Forall_xyz. apply starsOf_Forall. intros j. cbn. auto.
Qed.

Lemma finite_get (a : list num) (i : nat) :
  Forall JS.isFinite a -> (i < List.length a)%nat -> exists v, get a i = Fin v.
Proof.
  intros Hall Hi. rewrite Forall_forall in Hall.
  specialize (Hall (get a i) (nth_In a NaN Hi)).
  destruct (get a i) as [v |]; [now exists v | contradiction].
Qed.

(** X7. With a nonzero [armCount], every radius the orchestrator stores at
    generation is a non-negative real and every stored angular velocity a
    real; for a rotation speed [>= 0] the velocity lies between 0 and the
    rotation speed. *)
Theorem generateGalaxy_velocity_range hexColor styleColor config rnd k :
  armCount config <> 0 ->
  let s := fst (Renderer.generateGalaxy hexColor styleColor config rnd k) in
  forall i, (i < starsIn (Renderer.positions s))%nat ->
    exists rho w,
      get (Renderer.rotationRadii s) i = Fin rho /\ 0 <= rho
      /\ get (Renderer.angularVelocities s) i = Fin w
      /\ (0 <= rotationSpeed config -> 0 <= w <= rotationSpeed config).
Proof.
  intros Ha s i Hi.
  assert (Hfin : Forall JS.isFinite (Renderer.positions s)).
  { destruct (generateGalaxy_arrays hexColor styleColor config rnd k)
      as (E & _). fold s in E. rewrite E.
    apply addCentralBulge_positions_finite.
    now apply generateSpiralArms_positions_finite. }
  pose proof (starsIn_bound (Renderer.positions s)) as Hb.
  destruct (finite_get _ (i * 3) Hfin ltac:(lia)) as (x & Hx).
  destruct (finite_get _ (i * 3 + 1) Hfin ltac:(lia)) as (y & Hy).
  destruct (generateGalaxy_radii hexColor styleColor config rnd k i Hi)
    as (Er & Ev). fold s in Er, Ev.
  rewrite Hx, Hy in Er. cbn [JS.mul JS.add JS.lift2] in Er.
  rewrite sqrt_fin in Er by nra.
  rewrite Er, calculateAngularVelocity_fin in Ev.
  do 2 eexists. split; [exact Er |]. split; [apply sqrt_pos |].
  split; [exact Ev |]. intros Hs.
  apply angularVelocitySpec_range; [apply sqrt_pos | assumption].
Qed.

Lemma generateGalaxy_velocity_range_witness :
  let config := withStarCount DEFAULT_GALAXY_CONFIG 12 in
  let s := fst (Renderer.generateGalaxy hexRGB styleRGB config halves 0%nat) in
  exists rho w,
    get (Renderer.rotationRadii s) 13 = Fin rho /\ 0 <= rho
    /\ get (Renderer.angularVelocities s) 13 = Fin w
    /\ (0 <= 0.1 -> 0 <= w <= 0.1).
Proof.
  intros config s.
  apply (generateGalaxy_velocity_range hexRGB styleRGB config halves 0%nat).
  - simpl. lra.
  - fold s. rewrite (starsIn_triple _ 14).
    + lia.
    + unfold s. rewrite generateGalaxy_positions_length. reflexivity.
Defined.

(* ================================================================== *)
(** ** Any number of frames of the orchestrator *)

Lemma updateStarPositions_frame (t : R) (s : Renderer.state) :
  let s' := Renderer.updateStarPositions t s in
  Renderer.rotationRadii s' = Renderer.rotationRadii s
  /\ Renderer.angularVelocities s' = Renderer.angularVelocities s
  /\ List.length (Renderer.positions s') = List.length (Renderer.positions s)
  /\ starsIn (Renderer.positions s') = starsIn (Renderer.positions s)
  /\ forall i, (i < starsIn (Renderer.positions s))%nat ->
       get (Renderer.positions s') (i * 3)
       = fst (rotated (get (Renderer.rotationRadii s) i)
                (get (Renderer.angularVelocities s) i) t
                (get (Renderer.positions s) (i * 3))
                (get (Renderer.positions s) (i * 3 + 2)))
       /\ get (Renderer.positions s') (i * 3 + 1)
          = get (Renderer.positions s) (i * 3 + 1)
       /\ get (Renderer.positions s') (i * 3 + 2)
          = snd (rotated (get (Renderer.rotationRadii s) i)
                   (get (Renderer.angularVelocities s) i) t
                   (get (Renderer.positions s) (i * 3))
                   (get (Renderer.positions s) (i * 3 + 2))).
Proof.
  intros s'. subst s'. unfold Renderer.updateStarPositions.
  cbn [Renderer.positions Renderer.rotationRadii Renderer.angularVelocities].
  destruct (updateStar_loop (Renderer.rotationRadii s)
              (Renderer.angularVelocities s) t (Renderer.positions s))
    as (Hlen & Hall).
  split; [reflexivity |]. split; [reflexivity |]. split; [exact Hlen |].
  split; [| exact Hall].
  clear Hall. unfold starsIn in *. now rewrite Hlen.
Qed.

(** X8. Frames only rewrite the x and z of the stars: after any frames the
    position array has the length it had, every star has the height it had,
    and the colors, the sizes, the stored radii and the stored angular
    velocities are those of the start. *)
Theorem animate_keeps_heights (frames : list R) :
  forall s,
    let s' := Renderer.animate frames s in
    List.length (Renderer.positions s') = List.length (Renderer.positions s)
    /\ Renderer.colors s' = Renderer.colors s
    /\ Renderer.sizes s' = Renderer.sizes s
    /\ Renderer.rotationRadii s' = Renderer.rotationRadii s
    /\ Renderer.angularVelocities s' = Renderer.angularVelocities s
    /\ forall i, (i < starsIn (Renderer.positions s))%nat ->
         get (Renderer.positions s') (i * 3 + 1)
         = get (Renderer.positions s) (i * 3 + 1).
Proof.
  induction frames as [| t frames IH]; intros s.
  - cbn. repeat split; reflexivity.
  - change (Renderer.animate (t :: frames) s)
      with (Renderer.animate frames (Renderer.updateStarPositions t s)).
    cbv zeta.
    destruct (IH (Renderer.updateStarPositions t s))
      as (Il & Ic & Is & Ir & Iv & Iy).
    destruct (updateStarPositions_frame t s) as (Er & Ev & El & En & Hall).
    rewrite Il, Ic, Is, Ir, Iv, El, Er, Ev.
    split; [reflexivity |]. split; [reflexivity |]. split; [reflexivity |].
    split; [reflexivity |]. split; [reflexivity |].
    intros i Hi. rewrite Iy by (rewrite En; exact Hi).
    now destruct (Hall i Hi) as (_ & Hy & _).
Qed.

Lemma animate_keeps_heights_witness :
  get (Renderer.positions
         (Renderer.animate [25 * PI / 2; 25 * PI] (oneStarGalaxy 0.9))) (0 * 3 + 1)
  = get (Renderer.positions (oneStarGalaxy 0.9)) (0 * 3 + 1).
Proof.
  destruct (animate_keeps_heights [25 * PI / 2; 25 * PI] (oneStarGalaxy 0.9))
    as (_ & _ & _ & _ & _ & H).
  apply H. rewrite oneStar_positions. cbn. lia.
Defined.

Lemma animate_skips_small (i : nat) (rho : R) (frames : list R) :
  forall s,
    (i < starsIn (Renderer.positions s))%nat ->
    get (Renderer.rotationRadii s) i = Fin rho -> rho < 0.1 ->
    get (Renderer.positions (Renderer.animate frames s)) (i * 3)
    = get (Renderer.positions s) (i * 3)
    /\ get (Renderer.positions (Renderer.animate frames s)) (i * 3 + 2)
       = get (Renderer.positions s) (i * 3 + 2).
Proof.
  induction frames as [| t frames IH]; intros s Hi Hr Hrho.
  - cbn. split; reflexivity.
  - change (Renderer.animate (t :: frames) s)
      with (Renderer.animate frames (Renderer.updateStarPositions t s)).
    destruct (updateStarPositions_frame t s) as (Er & _ & _ & En & Hall).
    destruct (IH (Renderer.updateStarPositions t s)) as (Ix & Iz).
    + rewrite En. exact Hi.
    + rewrite Er. exact Hr.
    + exact Hrho.
    + destruct (Hall i Hi) as (Ex & _ & Ez).
      unfold rotated in Ex, Ez. rewrite Hr, lt_fin_true in Ex, Ez by assumption.
      cbn [fst snd] in Ex, Ez. rewrite Ix, Iz, Ex, Ez. split; reflexivity.
Qed.

Lemma animate_snaps (i : nat) (rho w : R) (frames : list R) :
  forall t s x z,
    (i < starsIn (Renderer.positions s))%nat ->
    get (Renderer.rotationRadii s) i = Fin rho -> 0.1 <= rho ->
    get (Renderer.angularVelocities s) i = Fin w ->
    get (Renderer.positions s) (i * 3) = Fin x ->
    get (Renderer.positions s) (i * 3 + 2) = Fin z ->
    exists x' z',
      get (Renderer.positions (Renderer.animate (t :: frames) s)) (i * 3) = Fin x'
      /\ get (Renderer.positions (Renderer.animate (t :: frames) s)) (i * 3 + 2)
         = Fin z'
      /\ axisDistance x' z' = rho.
Proof.
  induction frames as [| t2 frames IH]; intros t s x z Hi Hr Hrho Hw Hx Hz;
    destruct (updateStarPositions_frame t s) as (Er & Ev & _ & En & Hall);
    destruct (Hall i Hi) as (Ex & _ & Ez);
    unfold rotated in Ex, Ez;
    rewrite Hr, Hw, Hx, Hz, lt_fin_false in Ex, Ez by assumption;
    cbn in Ex, Ez.
  - cbn [Renderer.animate fold_left]. do 2 eexists.
    split; [exact Ex |]. split; [exact Ez |].
    apply axisDistance_polar. lra.
  - change (Renderer.animate (t :: t2 :: frames) s)
      with (Renderer.animate (t2 :: frames) (Renderer.updateStarPositions t s)).
    eapply (IH t2 (Renderer.updateStarPositions t s)).
    + rewrite En. exact Hi.
    + rewrite Er. exact Hr.
    + exact Hrho.
    + rewrite Ev. exact Hw.
    + exact Ex.
    + exact Ez.
Qed.

(** X9. What frames do to a star depends on its stored radius only through
    the threshold 0.1: a star whose stored radius is below 0.1 keeps its x
    and z through any frames; a finite star whose stored radius is at least
    0.1 lies, after one frame or more, at a distance from the vertical axis
    equal to its stored radius, wherever it was before. *)
Theorem animate_threshold (i : nat) (rho : R) (s : Renderer.state) :
  (i < starsIn (Renderer.positions s))%nat ->
  get (Renderer.rotationRadii s) i = Fin rho ->
  (rho < 0.1 ->
   forall frames,
     get (Renderer.positions (Renderer.animate frames s)) (i * 3)
     = get (Renderer.positions s) (i * 3)
     /\ get (Renderer.positions (Renderer.animate frames s)) (i * 3 + 2)
        = get (Renderer.positions s) (i * 3 + 2))
  /\ (0.1 <= rho ->
      forall x z w t frames,
        get (Renderer.positions s) (i * 3) = Fin x ->
        get (Renderer.positions s) (i * 3 + 2) = Fin z ->
        get (Renderer.angularVelocities s) i = Fin w ->
        exists x' z',
          get (Renderer.positions (Renderer.animate (t :: frames) s)) (i * 3)
          = Fin x'
          /\ get (Renderer.positions (Renderer.animate (t :: frames) s))
               (i * 3 + 2) = Fin z'
          /\ axisDistance x' z' = rho).
Proof.
  intros Hi Hr. split.
  - intros Hrho frames. now apply (animate_skips_small i rho frames s).
  - intros Hrho x z w t frames Hx Hz Hw.
    now apply (animate_snaps i rho w frames t s x z).
Qed.

Lemma animate_threshold_witness :
  exists x' z',
    get (Renderer.positions (Renderer.animate [1; 2] (oneStarGalaxy 0.9))) (0 * 3)
    = Fin x'
    /\ get (Renderer.positions (Renderer.animate [1; 2] (oneStarGalaxy 0.9)))
         (0 * 3 + 2) = Fin z'
    /\ axisDistance x' z' = oneStarRadius 0.9.
Proof.
  destruct (oneStar_rotation 0.9) as (Hr & Hv).
  pose proof (oneStarRadius_ge 0.9) as Hge.
  destruct (animate_threshold 0 (oneStarRadius 0.9) (oneStarGalaxy 0.9))
    as (_ & H).
  - rewrite oneStar_positions. cbn. lia.
  - now rewrite Hr.
  - apply (H ltac:(lra) 4 0 (angularVelocitySpec (oneStarRadius 0.9) 0.1) 1 [2]).
    + now rewrite oneStar_positions.
    + now rewrite oneStar_positions.
    + now rewrite Hv.
Defined.

(* ================================================================== *)
(** ** Further properties of the LOD classification *)

(** X10. The LOD level never exceeds 4 and grows with the distance: of two
    stars the farther one is never filed under a more detailed level.  A
    distance that is NaN gets level 4. *)
Theorem getLODLevel_monotone (d1 d2 : R) :
  d1 <= d2 ->
  (Optimizer.getLODLevel (Fin d1) <= Optimizer.getLODLevel (Fin d2))%nat
  /\ (Optimizer.getLODLevel (Fin d2) <= 4)%nat
  /\ Optimizer.getLODLevel NaN = 4%nat.
Proof.
  intros H. rewrite !getLODLevel_table.
  split; [| split; [| reflexivity]];
    repeat match goal with
           | |- context [Rlt_dec ?a ?b] => destruct (Rlt_dec a b)
           end; try lia; lra.
Qed.

Lemma getLODLevel_monotone_witness :
  (Optimizer.getLODLevel (Fin 60) <= Optimizer.getLODLevel (Fin 250))%nat.
Proof.
  destruct (getLODLevel_monotone 60 250) as (H & _); [lra | exact H].
Defined.

Lemma distanceTo_nan_x (y z : num) (cameraPosition : Optimizer.Vector3) :
  Optimizer.distanceTo (Optimizer.mkVector3 NaN y z) cameraPosition = NaN.
Proof. reflexivity. Qed.

(** X11. A star whose x is NaN, as [generateSpiralArms] produces with
    [armCount = 0], is not discarded by the distance cutoff, wherever the
    camera is: it is filed under level 4, the lowest detail, as soon as the
    frustum test accepts it. *)
Theorem classify_nan_star isPointVisible cameraPosition
    (positions : list num) (i : nat) :
  get positions (i * 3) = NaN ->
  let p := Optimizer.mkVector3 NaN (get positions (i * 3 + 1))
             (get positions (i * 3 + 2)) in
  Optimizer.classify isPointVisible cameraPosition positions i
  = if isPointVisible p then Some 4%nat else None.
Proof.
  intros Hx p. unfold Optimizer.classify. rewrite Hx.
  rewrite distanceTo_nan_x. fold p. cbn [JS.gt JS.lt].
  destruct (isPointVisible p); reflexivity.
Qed.

Lemma classify_nan_star_witness :
  Optimizer.classify (fun _ => true) axisCamera [NaN; Fin 0; NaN] 0
  = Some 4%nat.
Proof.
  apply (classify_nan_star (fun _ => true) axisCamera [NaN; Fin 0; NaN] 0).
  reflexivity.
Defined.

(* ================================================================== *)
(** ** The instanced meshes *)

Lemma lookup_modify (m : Batches.meshes) (l l' : nat) f :
  Batches.lookup (Batches.modify m l f) l'
  = if Nat.eqb l l' then option_map f (Batches.lookup m l)
    else Batches.lookup m l'.
Proof.
  induction m as [| [l0 mesh] m IH]; simpl.
  - destruct (Nat.eqb l l'); reflexivity.
  - destruct (Nat.eqb l0 l) eqn:E0; simpl.
    + apply Nat.eqb_eq in E0. subst l0.
      destruct (Nat.eqb l l'); reflexivity.
    + rewrite IH. destruct (Nat.eqb l0 l') eqn:E1; [| reflexivity].
      apply Nat.eqb_eq in E1. subst l0. rewrite Nat.eqb_sym, E0. reflexivity.
Qed.

Lemma lookup_app_new (m : Batches.meshes) (l l' : nat) mesh :
  Batches.lookup (m ++ [(l, mesh)]) l'
  = match Batches.lookup m l' with
    | Some v => Some v
    | None => if Nat.eqb l l' then Some mesh else None
    end.
Proof.
  induction m as [| [l0 mesh0] m IH]; simpl; [reflexivity |].
  destruct (Nat.eqb l0 l'); [reflexivity | exact IH].
Qed.

Lemma lookup_submit (m : Batches.meshes) (l l' : nat) stars :
  Batches.lookup (Batches.submit m (l, stars)) l'
  = if Nat.eqb l l'
    then Some (submitted l (Batches.lookup m l) (List.length stars))
    else Batches.lookup m l'.
Proof.
  unfold Batches.submit, Batches.getInstancedMesh. rewrite lookup_modify.
  destruct (Batches.lookup m l) as [old |] eqn:E.
  - rewrite E. destruct (Nat.eqb l l'); reflexivity.
  - rewrite !lookup_app_new, E, Nat.eqb_refl.
    destruct (Nat.eqb l l') eqn:E1; [reflexivity |].
    destruct (Batches.lookup m l'); reflexivity.
Qed.

Lemma lookup_clearMeshes (m : Batches.meshes) (l : nat) :
  Batches.lookup (Batches.clearMeshes m) l = option_map cleared (Batches.lookup m l).
Proof.
  induction m as [| [l0 mesh] m IH]; simpl; [reflexivity |].
  destruct (Nat.eqb l0 l); [reflexivity | exact IH].
Qed.

Lemma existsb_key_false (l : nat) (keys : list nat) :
  ~ In l keys -> existsb (Nat.eqb l) keys = false.
Proof.
  intros H. destruct (existsb (Nat.eqb l) keys) eqn:E; [| reflexivity].
  apply existsb_exists in E. destruct E as (x & Hx & Ex).
  apply Nat.eqb_eq in Ex. subst x. contradiction.
Qed.

Lemma lookup_fold_submit (bs : Optimizer.buckets) :
  NoDup (map fst bs) ->
  forall (m : Batches.meshes) (l : nat),
    Batches.lookup (fold_left Batches.submit bs m) l
    = if existsb (Nat.eqb l) (map fst bs)
      then Some (submitted l (Batches.lookup m l)
                   (List.length (Optimizer.bucket bs l)))
      else Batches.lookup m l.
Proof.
  induction bs as [| [l0 es0] bs IH]; intros Hnd m l; [reflexivity |].
  cbn [map fst] in Hnd. inversion Hnd as [| ? ? Hnotin Hnd']; subst.
  cbn [fold_left]. rewrite (IH Hnd'), lookup_submit.
  cbn [map fst existsb Optimizer.bucket].
  rewrite (Nat.eqb_sym l l0).
  destruct (Nat.eqb l0 l) eqn:E.
  - apply Nat.eqb_eq in E. subst l0.
    rewrite (existsb_key_false _ _ Hnotin). reflexivity.
  - cbn [orb]. reflexivity.
Qed.

Lemma pushTo_keys (m : Optimizer.buckets) (level : nat) e :
  NoDup (map fst m) /\ Forall (fun p => snd p <> []) m ->
  NoDup (map fst (Optimizer.pushTo m level e))
  /\ Forall (fun p => snd p <> []) (Optimizer.pushTo m level e)
  /\ forall l, In l (map fst (Optimizer.pushTo m level e))
               <-> l = level \/ In l (map fst m).
Proof.
  induction m as [| [l0 es] m IH]; intros (Hnd & Hne).
  - cbn. repeat split.
    + repeat constructor. intros [].
    + repeat constructor. discriminate.
    + intros [-> | []]. now left.
    + intros [-> | []]. now left.
  - cbn [Optimizer.pushTo]. cbn [map fst] in Hnd.
    inversion Hnd as [| ? ? Hnotin Hnd']; subst.
    inversion Hne as [| ? ? Hes Hne']; subst.
    destruct (Nat.eqb l0 level) eqn:E.
    + apply Nat.eqb_eq in E. subst l0. cbn [map fst]. repeat split.
      * exact Hnd.
      * constructor; [| exact Hne']. cbn. now destruct es.
      * intros H. now right.
      * intros [-> | H]; [now left | exact H].
    + destruct (IH (conj Hnd' Hne')) as (I1 & I2 & I3).
      cbn [map fst]. repeat split.
      * constructor; [| exact I1]. intros Hin. apply I3 in Hin.
        destruct Hin as [-> | Hin]; [| contradiction].
        now rewrite Nat.eqb_refl in E.
      * constructor; assumption.
      * intros [-> | Hin]; [right; now left |].
        apply I3 in Hin. destruct Hin; [now left | right; now right].
      * intros [-> | [-> | Hin]].
        -- right. apply I3. now left.
        -- now left.
        -- right. apply I3. now right.
Qed.

Lemma optimizeStarRendering_keys isPointVisible cameraPosition
    (positions colors sizes : list num) :
  let bs := Optimizer.optimizeStarRendering isPointVisible cameraPosition
              positions colors sizes in
  NoDup (map fst bs) /\ Forall (fun p => snd p <> []) bs.
Proof.
  unfold Optimizer.optimizeStarRendering.
  apply (forRange_invariant
           (fun (_ : nat) (m : Optimizer.buckets) =>
              NoDup (map fst m) /\ Forall (fun p => snd p <> []) m)).
  - split; constructor.
  - intros j m _ Hm. unfold Optimizer.processStar.
    destruct (Optimizer.classify isPointVisible cameraPosition positions j);
      [| exact Hm].
    match goal with
    | |- context [Optimizer.pushTo m ?lv ?e] =>
        destruct (pushTo_keys m lv e Hm) as (H1 & H2 & _)
    end.
    split; assumption.
Qed.

Lemma bucket_key (bs : Optimizer.buckets) (l : nat) :
  Forall (fun p => snd p <> []) bs ->
  existsb (Nat.eqb l) (map fst bs)
  = match Optimizer.bucket bs l with [] => false | _ :: _ => true end.
Proof.
  induction 1 as [| [l0 es] bs Hes _ IH]; [reflexivity |].
  cbn [map fst existsb Optimizer.bucket]. rewrite (Nat.eqb_sym l l0).
  destruct (Nat.eqb l0 l); cbn [orb].
  - cbn in Hes. destruct es; [contradiction | reflexivity].
  - exact IH.
Qed.

Lemma lookup_frame isPointVisible cameraPosition
    (positions colors sizes : list num) (m : Batches.meshes) (l : nat) :
  Batches.lookup
    (Batches.optimizeStarRendering isPointVisible cameraPosition
       positions colors sizes m) l
  = match Optimizer.bucket
            (Optimizer.optimizeStarRendering isPointVisible cameraPosition
               positions colors sizes) l with
    | [] => option_map cleared (Batches.lookup m l)
    | b => Some (submitted l (option_map cleared (Batches.lookup m l))
                   (List.length b))
    end.
Proof.
  unfold Batches.optimizeStarRendering.
  destruct (optimizeStarRendering_keys isPointVisible cameraPosition
              positions colors sizes) as (Hnd & Hne).
  rewrite (lookup_fold_submit _ Hnd), (bucket_key _ l Hne), lookup_clearMeshes.
  destruct (Optimizer.bucket _ l); reflexivity.
Qed.

(** X12. After a frame of the optimizer, the mesh of a level is in the scene
    exactly when stars were filed under that level in this frame, and its
    [count] is their number; the mesh of a level that received no star is
    out of the scene with [count = 0], and a level that has no mesh and
    received no star still has none.  A mesh created in the frame is
    allocated for the number of stars of the frame, with 8, 6 or 4 sphere
    segments for level 0, 1 or beyond. *)
Theorem optimizeStarRendering_meshes isPointVisible cameraPosition
    (positions colors sizes : list num) (m : Batches.meshes) (l : nat) :
  let b := Optimizer.bucket
             (Optimizer.optimizeStarRendering isPointVisible cameraPosition
                positions colors sizes) l in
  let m' := Batches.optimizeStarRendering isPointVisible cameraPosition
              positions colors sizes m in
  (b <> [] ->
   exists mesh,
     Batches.lookup m' l = Some mesh
     /\ Batches.count mesh = List.length b
     /\ Batches.inScene mesh = true
     /\ (Batches.lookup m l = None ->
         Batches.capacity mesh = List.length b
         /\ Batches.segments mesh = Batches.geometrySegments l))
  /\ (b = [] ->
      match Batches.lookup m l with
      | Some old =>
          exists mesh,
            Batches.lookup m' l = Some mesh
            /\ Batches.count mesh = 0%nat /\ Batches.inScene mesh = false
      | None => Batches.lookup m' l = None
      end).
Proof.
  intros b m'. subst m'. rewrite lookup_frame. fold b. split.
  - intros Hb. destruct b as [| e b']; [contradiction |].
    eexists. split; [reflexivity |].
    destruct (Batches.lookup m l); cbn; repeat split; discriminate.
  - intros ->. destruct (Batches.lookup m l); cbn; [| reflexivity].
    eexists. repeat split.
Qed.

Lemma originStar_distance :
  Optimizer.distanceTo (Optimizer.mkVector3 (Fin 0) (Fin 0) (Fin 0)) axisCamera
  = Fin 100.
Proof.
  unfold Optimizer.distanceTo, axisCamera.
  cbn [Optimizer.vx Optimizer.vy Optimizer.vz JS.sub JS.mul JS.add JS.lift2].
  rewrite sqrt_fin by nra. f_equal.
  replace ((0 - 0) * (0 - 0) + (0 - 0) * (0 - 0) + (0 - 100) * (0 - 100))
    with (100 * 100) by ring.
  apply sqrt_square. lra.
Qed.

Lemma originStar_classify (rest : list num) :
  Optimizer.classify axisFrustum axisCamera (Fin 0 :: Fin 0 :: Fin 0 :: rest) 0
  = Some 2%nat.
Proof.
  unfold Optimizer.classify. cbn [get nth Nat.mul Nat.add].
  rewrite originStar_distance, axisFrustum_origin.
  cbn [Optimizer.lodDistances last negb]. unfold JS.gt.
  rewrite lt_fin_false by lra. rewrite getLODLevel_table.
  destruct (Rlt_dec 100 50); [lra |]. destruct (Rlt_dec 100 100); [lra |].
  destruct (Rlt_dec 100 200); [reflexivity | lra].
Qed.

Lemma originStar_bucket :
  List.length
    (Optimizer.bucket
       (Optimizer.optimizeStarRendering axisFrustum axisCamera
          [Fin 0; Fin 0; Fin 0] [Fin 1; Fin 1; Fin 1] [Fin 0.1]) 2) = 1%nat.
Proof.
  rewrite optimizeStarRendering_buckets.
  cbn [starsIn List.length Nat.div Nat.divmod fst seq filter].
  rewrite originStar_classify. reflexivity.
Qed.

Lemma optimizeStarRendering_meshes_witness :
  exists mesh,
    Batches.lookup
      (Batches.optimizeStarRendering axisFrustum axisCamera
         [Fin 0; Fin 0; Fin 0] [Fin 1; Fin 1; Fin 1] [Fin 0.1] []) 2
    = Some mesh
    /\ Batches.count mesh = 1%nat
    /\ Batches.inScene mesh = true
    /\ (Batches.lookup [] 2 = None ->
        Batches.capacity mesh = 1%nat
        /\ Batches.segments mesh = Batches.geometrySegments 2).
Proof.
  destruct (optimizeStarRendering_meshes axisFrustum axisCamera
              [Fin 0; Fin 0; Fin 0] [Fin 1; Fin 1; Fin 1] [Fin 0.1] [] 2)
    as (H & _).
  rewrite originStar_bucket in H. apply H.
  intros E. apply (f_equal (@List.length _)) in E.
  rewrite originStar_bucket in E. discriminate.
Defined.

(** X13. A mesh is never reallocated: once a level has a mesh, every later
    frame, whatever the camera and the stars, leaves the level a mesh with
    the capacity and the geometry it was created with. *)
Theorem instancedMesh_capacity_fixed (inputs : list frameInput) :
  forall (m : Batches.meshes) (l : nat) (mesh : Batches.InstancedMesh),
    Batches.lookup m l = Some mesh ->
    exists mesh',
      Batches.lookup (optimizerFrames inputs m) l = Some mesh'
      /\ Batches.capacity mesh' = Batches.capacity mesh
      /\ Batches.segments mesh' = Batches.segments mesh.
Proof.
  induction inputs as [| f inputs IH]; intros m l mesh Hm.
  - exists mesh. auto.
  - cbn [optimizerFrames fold_left].
    pose proof (lookup_frame (fVisible f) (fCamera f) (fPositions f)
                  (fColors f) (fSizes f) m l) as E.
    rewrite Hm in E. cbn [option_map] in E.
    destruct (Optimizer.bucket _ l) as [| e b].
    + destruct (IH _ l _ E) as (mesh' & H1 & H2 & H3).
      exists mesh'. auto.
    + destruct (IH _ l _ E) as (mesh' & H1 & H2 & H3).
      exists mesh'. auto.
Qed.

(** A mesh created for one star and given two stars by the next frame keeps
    its capacity 1, with [count = 2]. *)
Lemma instancedMesh_capacity_fixed_witness :
  let one := mkFrameInput axisFrustum axisCamera
               [Fin 0; Fin 0; Fin 0] [Fin 1; Fin 1; Fin 1] [Fin 0.1] in
  let two := mkFrameInput axisFrustum axisCamera
               [Fin 0; Fin 0; Fin 0; Fin 0; Fin 0; Fin 0]
               [Fin 1; Fin 1; Fin 1; Fin 1; Fin 1; Fin 1] [Fin 0.1; Fin 0.1] in
  exists mesh',
    Batches.lookup (optimizerFrames [two] (optimizerFrames [one] [])) 2
    = Some mesh'
    /\ Batches.capacity mesh' = 1%nat
    /\ Batches.segments mesh' = 4%nat.
Proof.
  intros one two.
  assert (H1 : Batches.lookup (optimizerFrames [one] []) 2
               = Some (Batches.mkMesh 4 1 1 true)).
  { cbn [optimizerFrames fold_left one fVisible fCamera fPositions fColors fSizes].
    rewrite lookup_frame.
    pose proof originStar_bucket as Hb.
    destruct (Optimizer.bucket _ 2) as [| e [| e2 b]]; try discriminate.
    reflexivity. }
  apply (instancedMesh_capacity_fixed [two] _ 2 _ H1).
Defined.

(* ================================================================== *)
(** ** The performance monitor *)

Lemma floor_half (n : Z) : JS.floor (IZR n * 0.5) = (n / 2)%Z.
Proof.
  apply Zfloor_eq.
  pose proof (Z.div_mod n 2 ltac:(lia)) as Hdm.
  pose proof (Z.mod_pos_bound n 2 ltac:(lia)) as (Hlo & Hhi).
  assert (Hn : IZR n = 2 * IZR (n / 2) + IZR (n mod 2)).
  { rewrite <- mult_IZR, <- plus_IZR. now f_equal. }
  apply IZR_le in Hlo. apply IZR_lt in Hhi. lra.
Qed.

Lemma sameButStarCount_refl c : sameButStarCount c c.
Proof. repeat split. Qed.

Lemma sameButStarCount_trans c1 c2 c3 :
  sameButStarCount c1 c2 -> sameButStarCount c2 c3 -> sameButStarCount c1 c3.
Proof.
  unfold sameButStarCount. intros H1 H2.
  decompose [and] H1. decompose [and] H2. repeat split; congruence.
Qed.

Lemma monitorStep_refl s k : monitorStep s s k k.
Proof.
  unfold monitorStep. cbv zeta.
  split; [apply sameButStarCount_refl |]. split; [lia |].
  split; [auto |]. split; [lia | auto].
Qed.

Lemma monitorStep_trans s1 s2 s3 k1 k2 k3 :
  monitorStep s1 s2 k1 k2 -> monitorStep s2 s3 k2 k3 -> monitorStep s1 s3 k1 k3.
Proof.
  unfold monitorStep. cbv zeta.
  intros (A1 & B1 & C1 & D1 & E1) (A2 & B2 & C2 & D2 & E2).
  split; [eapply sameButStarCount_trans; eassumption |].
  split; [lia |]. split; [| split].
  - intros Hle. destruct (C1 Hle) as (R1 & K1).
    rewrite R1 in C2. destruct (C2 Hle) as (R2 & K2).
    split; congruence.
  - intros Hgt.
    destruct (Z_le_gt_dec (starCount (Renderer.galaxyConfig
                                        (Performance.renderer s2))) 10000)
      as [Hle | Hgt2].
    + destruct (C2 Hle) as (R2 & _). rewrite R2. now apply D1.
    + apply D2. lia.
  - auto.
Qed.

Lemma check_normal_step dpr (s : Performance.state) k :
  Performance.lowPerformanceMode s = true ->
  monitorStep s
    (Performance.applyNormalPerformanceSettings dpr
       {| Performance.renderer := Performance.renderer s;
          Performance.lowPerformanceMode := false;
          Performance.pixelRatio := Performance.pixelRatio s |}) k k.
Proof.
  intros Emode. unfold monitorStep. cbn.
  split; [apply sameButStarCount_refl |]. split; [lia |].
  split; [auto |]. split; [lia |]. intros _ H. discriminate.
Qed.

Lemma check_low_step hexColor styleColor (s : Performance.state) rnd k :
  let s1 := {| Performance.renderer := Performance.renderer s;
               Performance.lowPerformanceMode := true;
               Performance.pixelRatio := Performance.pixelRatio s |} in
  monitorStep s
    (fst (Performance.applyLowPerformanceSettings hexColor styleColor s1 rnd k))
    k
    (snd (Performance.applyLowPerformanceSettings hexColor styleColor s1 rnd k)).
Proof.
  cbv zeta. unfold Performance.applyLowPerformanceSettings.
  cbn [Performance.renderer Performance.lowPerformanceMode
       Performance.pixelRatio].
  set (c := Renderer.galaxyConfig (Performance.renderer s)).
  destruct (10000 <? starCount c)%Z eqn:Egt.
  - apply Z.ltb_lt in Egt.
    unfold Performance.updateConfig, bind, ret.
    match goal with
    | |- context [Renderer.generateGalaxy hexColor styleColor ?c' rnd k] =>
        destruct (generateGalaxy_fields hexColor styleColor c' rnd k)
          as (_ & _ & Ec);
        destruct (Renderer.generateGalaxy hexColor styleColor c' rnd k)
          as [gal k1]
    end.
    cbn [fst snd] in *. unfold monitorStep.
    cbn [Performance.renderer Performance.lowPerformanceMode
         Performance.pixelRatio].
    fold c. rewrite Ec. cbn [starCount armCount galaxyRadius rotationSpeed
      coreSize starColors particleSize brightness].
    rewrite floor_half.
    split; [repeat split |].
    pose proof (Z.div_mod (starCount c) 2 ltac:(lia)).
    pose proof (Z.mod_pos_bound (starCount c) 2 ltac:(lia)).
    split; [lia |]. split; [lia |]. split; [lia | auto].
  - apply Z.ltb_ge in Egt. unfold ret, monitorStep. cbn. fold c.
    split; [apply sameButStarCount_refl |]. split; [lia |].
    split; [auto |]. split; [lia | auto].
Qed.

Lemma check_step hexColor styleColor dpr fps s rnd k :
  monitorStep s (fst (Performance.check hexColor styleColor dpr fps s rnd k))
    k (snd (Performance.check hexColor styleColor dpr fps s rnd k)).
Proof.
  unfold Performance.check.
  destruct (Rlt_dec fps 30) as [Hlow | Hnlow];
    destruct (Performance.lowPerformanceMode s) eqn:Emode; cbn [andb negb].
  - destruct (Rlt_dec 45 fps); cbn [andb].
    + now apply check_normal_step.
    + apply monitorStep_refl.
  - apply check_low_step.
  - destruct (Rlt_dec 45 fps); cbn [andb].
    + now apply check_normal_step.
    + apply monitorStep_refl.
  - destruct (Rlt_dec 45 fps); cbn [andb]; apply monitorStep_refl.
Qed.

Lemma monitorPerformance_steps hexColor styleColor dpr (rates : list R) :
  forall s rnd k,
    monitorStep s
      (fst (Performance.monitorPerformance hexColor styleColor dpr rates s rnd k))
      k
      (snd (Performance.monitorPerformance hexColor styleColor dpr rates s rnd k)).
Proof.
  induction rates as [| fps rates IH]; intros s rnd k.
  - apply monitorStep_refl.
  - cbn [Performance.monitorPerformance]. unfold bind.
    pose proof (check_step hexColor styleColor dpr fps s rnd k) as H1.
    destruct (Performance.check hexColor styleColor dpr fps s rnd k) as [s1 k1].
    cbn [fst snd] in H1.
    eapply monitorStep_trans; [exact H1 | apply IH].
Qed.

(** X14. Whatever frame rates the monitor reads, it changes nothing of the
    configuration but the star count, which it never raises; a galaxy of at
    most 10000 stars is never regenerated (and no random number is drawn);
    a star count above 10000 never falls below 5000; and, if the pixel ratio
    was 1 in low-performance mode to begin with, it is 1 whenever the
    monitor leaves the orchestrator in low-performance mode. *)
Theorem monitorPerformance_star_count hexColor styleColor dpr
    (rates : list R) (s : Performance.state) rnd k :
  let out := Performance.monitorPerformance hexColor styleColor dpr rates s rnd k in
  let c := Renderer.galaxyConfig (Performance.renderer s) in
  let c' := Renderer.galaxyConfig (Performance.renderer (fst out)) in
  sameButStarCount c c'
  /\ (starCount c' <= starCount c)%Z
  /\ ((starCount c <= 10000)%Z ->
      Performance.renderer (fst out) = Performance.renderer s /\ snd out = k)
  /\ ((10000 < starCount c)%Z -> (5000 <= starCount c')%Z)
  /\ ((Performance.lowPerformanceMode s = true -> Performance.pixelRatio s = 1) ->
      Performance.lowPerformanceMode (fst out) = true ->
      Performance.pixelRatio (fst out) = 1).
Proof.
  exact (monitorPerformance_steps hexColor styleColor dpr rates s rnd k).
Qed.

Lemma monitorPerformance_star_count_witness :
  let s := {| Performance.renderer :=
                fst (Renderer.generateGalaxy hexRGB styleRGB
                       DEFAULT_GALAXY_CONFIG halves 0%nat);
              Performance.lowPerformanceMode := false;
              Performance.pixelRatio := 2 |} in
  let out := Performance.monitorPerformance hexRGB styleRGB 2 [20; 50; 20] s
               halves 0%nat in
  (5000 <= starCount (Renderer.galaxyConfig (Performance.renderer (fst out))))%Z
  /\ (Performance.lowPerformanceMode (fst out) = true ->
      Performance.pixelRatio (fst out) = 1).
Proof.
  intros s out.
  destruct (monitorPerformance_star_count hexRGB styleRGB 2 [20; 50; 20] s
              halves 0%nat) as (_ & _ & _ & H & P).
  fold out in H, P.
  destruct (generateGalaxy_fields hexRGB styleRGB DEFAULT_GALAXY_CONFIG
              halves 0%nat) as (_ & _ & Ec).
  split.
  - apply H. cbn [s Performance.renderer]. rewrite Ec. simpl. lia.
  - apply P. cbn [s Performance.lowPerformanceMode]. discriminate.
Defined.

(** X15. Hysteresis: in low-performance mode only a frame rate above 45 has
    an effect, in normal mode only a frame rate below 30.  While the rates
    read stay at or below 45 a low-performance orchestrator is left as it is,
    so that the star count is not halved again; while they stay at or above
    30 a normal one is left as it is. *)
Theorem monitorPerformance_hysteresis hexColor styleColor dpr
    (rates : list R) (s : Performance.state) rnd k :
  (Performance.lowPerformanceMode s = true ->
   Forall (fun fps => fps <= 45) rates ->
   Performance.monitorPerformance hexColor styleColor dpr rates s rnd k = (s, k))
  /\ (Performance.lowPerformanceMode s = false ->
      Forall (fun fps => 30 <= fps) rates ->
      Performance.monitorPerformance hexColor styleColor dpr rates s rnd k
      = (s, k)).
Proof.
  split; intros Hmode Hall; induction Hall as [| fps rates Hfps _ IH];
    try reflexivity;
    cbn [Performance.monitorPerformance]; unfold bind, Performance.check;
    rewrite Hmode; cbn [negb].
  - destruct (Rlt_dec fps 30); cbn [andb];
      (destruct (Rlt_dec 45 fps); [lra |]); cbn [andb]; exact IH.
  - destruct (Rlt_dec fps 30); [lra |]. cbn [andb].
    destruct (Rlt_dec 45 fps); cbn [andb]; exact IH.
Qed.

Lemma monitorPerformance_hysteresis_witness :
  let s := {| Performance.renderer :=
                fst (Renderer.generateGalaxy hexRGB styleRGB
                       DEFAULT_GALAXY_CONFIG halves 0%nat);
              Performance.lowPerformanceMode := true;
              Performance.pixelRatio := 1 |} in
  Performance.monitorPerformance hexRGB styleRGB 2 [20; 40; 10] s halves 0%nat
  = (s, 0%nat).
Proof.
  intros s.
  destruct (monitorPerformance_hysteresis hexRGB styleRGB 2 [20; 40; 10] s
              halves 0%nat) as (H & _).
  apply H; [reflexivity |]. repeat constructor; lra.
Defined.

(* ================================================================== *)
(** ** The viewer's frame loop *)

Lemma last_cons_indep (a : R) (l : list R) (d d' : R) :
  last (a :: l) d = last (a :: l) d'.
Proof.
  revert a. induction l as [| b l IH]; intros a; [reflexivity |].
  change (last (b :: l) d = last (b :: l) d'). apply IH.
Qed.

Lemma viewerLoop_frame config dpr (l : ViewerLoop.loop) i rho w theta t :
  viewerStarAt (ViewerLoop.galaxy l) i rho w theta ->
  ViewerLoop.lastTime l <= t ->
  let l' := ViewerLoop.animate config dpr t l in
  viewerStarAt (ViewerLoop.galaxy l') i rho w
    (theta + w * ((t - ViewerLoop.lastTime l) * 0.001))
  /\ get (snd (ViewerLoop.galaxy l')) (i * 3 + 1)
     = get (snd (ViewerLoop.galaxy l)) (i * 3 + 1).
Proof.
  intros (Hs & Hx & Hz) Ht l'. subst l'.
  unfold ViewerLoop.animate. cbn [ViewerLoop.galaxy].
  destruct (Rlt_dec 0 ((t - ViewerLoop.lastTime l) * 0.001)) as [Hpos | Hnpos].
  - destruct (viewer_frame (ViewerLoop.galaxy l) i rho w theta
                ((t - ViewerLoop.lastTime l) * 0.001) Hs)
      as (Hs' & Ex & Ey & Ez).
    unfold viewerStarAt. auto.
  - assert (E : (t - ViewerLoop.lastTime l) * 0.001 = 0) by lra.
    rewrite E, Rmult_0_r, Rplus_0_r. unfold viewerStarAt. auto.
Qed.

Lemma viewerLoop_star config dpr i rho w :
  forall events (l : ViewerLoop.loop) theta,
    viewerStarAt (ViewerLoop.galaxy l) i rho w theta ->
    ascending (ViewerLoop.lastTime l) (frameTimes events) ->
    let l' := ViewerLoop.run config dpr events l in
    viewerStarAt (ViewerLoop.galaxy l') i rho w
      (theta + w * ((ViewerLoop.lastTime l' - ViewerLoop.lastTime l) * 0.001))
    /\ get (snd (ViewerLoop.galaxy l')) (i * 3 + 1)
       = get (snd (ViewerLoop.galaxy l)) (i * 3 + 1)
    /\ ViewerLoop.lastTime l'
       = last (frameTimes events) (ViewerLoop.lastTime l).
Proof.
  induction events as [| e events IH]; intros l theta Hs Hasc.
  - cbn [ViewerLoop.run fold_left frameTimes flat_map last].
    replace (theta + w * ((ViewerLoop.lastTime l - ViewerLoop.lastTime l) * 0.001))
      with theta by ring.
    auto.
  - change (ViewerLoop.run config dpr (e :: events) l)
      with (ViewerLoop.run config dpr events (ViewerLoop.handle config dpr l e)).
    destruct e as [t |].
    + cbn [frameTimes flat_map app ascending] in Hasc.
      fold (frameTimes events) in Hasc. destruct Hasc as (Ht & Hasc).
      destruct (viewerLoop_frame config dpr l i rho w theta t Hs Ht)
        as (Hs1 & Hy1).
      cbn [ViewerLoop.handle].
      specialize (IH (ViewerLoop.animate config dpr t l) _ Hs1 Hasc).
      cbv zeta in IH. destruct IH as (Hs' & Hy' & Hl').
      cbn [ViewerLoop.animate ViewerLoop.lastTime] in Hs', Hl'.
      cbv zeta.
      set (l' := ViewerLoop.run config dpr events
                   (ViewerLoop.animate config dpr t l)) in *.
      refine (conj _ (conj _ _)).
      * replace (theta + w * ((ViewerLoop.lastTime l' - ViewerLoop.lastTime l) * 0.001))
          with (theta + w * ((t - ViewerLoop.lastTime l) * 0.001)
                + w * ((ViewerLoop.lastTime l' - t) * 0.001)) by ring.
        exact Hs'.
      * rewrite Hy'. exact Hy1.
      * rewrite Hl'. cbn [frameTimes flat_map app].
        fold (frameTimes events).
        destruct (frameTimes events) as [| t1 times]; [reflexivity |].
        change (last (t :: t1 :: times) (ViewerLoop.lastTime l))
          with (last (t1 :: times) (ViewerLoop.lastTime l)).
        apply last_cons_indep.
    + cbn [frameTimes flat_map app] in Hasc |- *.
      fold (frameTimes events) in Hasc |- *.
      cbn [ViewerLoop.handle].
      apply (IH {| ViewerLoop.lastTime := ViewerLoop.lastTime l;
                   ViewerLoop.counters :=
                     ViewerLoop.handleResize dpr (ViewerLoop.counters l);
                   ViewerLoop.galaxy := ViewerLoop.galaxy l |} theta Hs Hasc).
Qed.

Lemma initializeRotationData_star config (pos : list num) (i : nat) (x z : R) :
  (i < starsIn pos)%nat ->
  get pos (i * 3) = Fin x -> get pos (i * 3 + 2) = Fin z ->
  viewerStarAt (Viewer.initializeRotationData config pos, pos) i
    (axisDistance x z)
    (angularVelocitySpec (axisDistance x z) (rotationSpeed config))
    (JS.Ratan2 z x).
Proof.
  intros Hi Hx Hz.
  destruct (initializeRotationData_entries config pos)
    as (Lr & La & Lv & Hall).
  destruct (Hall i Hi) as (Er & Ea & Ev).
  rewrite Hx, Hz in Er, Ea. cbn [JS.mul JS.add JS.lift2 JS.atan2] in Er, Ea.
  rewrite sqrt_fin in Er by nra.
  rewrite Er, viewer_calculateAngularVelocity, calculateAngularVelocity_fin in Ev.
  destruct (Ratan2_polar x z) as (Pc & Ps).
  unfold viewerStarAt, viewerStar. cbn [fst snd]. rewrite Lr, La, Pc, Ps.
  pose proof (starsIn_bound pos).
  refine (conj (conj _ (conj _ (conj _ (conj _ (conj _ _))))) (conj _ _));
    try assumption; try reflexivity; lia.
Qed.

(** X18. The viewer's frame loop, from the rotation data it initializes and
    with time stamps that never go back: whatever the frames and resizes in
    between, a star is where the angle [atan2(z, x) + w * t / 1000] puts it,
    [t] being the time elapsed up to the last frame; its height and its
    distance to the vertical axis are those it started with. *)
Theorem viewerLoop_absolute_time config dpr (pos : list num) (i : nat)
    (x z : R) (events : list ViewerLoop.event) (l : ViewerLoop.loop) :
  ViewerLoop.galaxy l = (Viewer.initializeRotationData config pos, pos) ->
  (i < starsIn pos)%nat ->
  get pos (i * 3) = Fin x -> get pos (i * 3 + 2) = Fin z ->
  ascending (ViewerLoop.lastTime l) (frameTimes events) ->
  let rho := axisDistance x z in
  let w := angularVelocitySpec rho (rotationSpeed config) in
  let l' := ViewerLoop.run config dpr events l in
  let t := last (frameTimes events) (ViewerLoop.lastTime l)
           - ViewerLoop.lastTime l in
  let angle := JS.Ratan2 z x + w * (t * 0.001) in
  get (snd (ViewerLoop.galaxy l')) (i * 3) = Fin (cos angle * rho)
  /\ get (snd (ViewerLoop.galaxy l')) (i * 3 + 1) = get pos (i * 3 + 1)
  /\ get (snd (ViewerLoop.galaxy l')) (i * 3 + 2) = Fin (sin angle * rho)
  /\ axisDistance (cos angle * rho) (sin angle * rho) = axisDistance x z.
Proof.
  intros Hg Hi Hx Hz Hasc rho w l' t angle.
  pose proof (initializeRotationData_star config pos i x z Hi Hx Hz) as Hs.
  rewrite <- Hg in Hs.
  destruct (viewerLoop_star config dpr i rho w events l _ Hs Hasc)
    as ((_ & Ex & Ez) & Ey & El).
  fold l' in Ex, Ey, Ez, El. rewrite El in Ex, Ez. fold t in Ex, Ez.
  fold angle in Ex, Ez. rewrite Hg in Ey. cbn [snd] in Ey.
  refine (conj Ex (conj Ey (conj Ez _))).
  apply axisDistance_polar. unfold rho, axisDistance. apply sqrt_pos.
Qed.

(** A star at (3, 1, 4), three frames with a resize in between: after the
    frame at 2000 ms it has turned by [w * 2]. *)
Lemma viewerLoop_absolute_time_witness :
  let pos := [Fin 3; Fin 1; Fin 4] in
  let l := {| ViewerLoop.lastTime := 0;
              ViewerLoop.counters :=
                ViewerLoop.mkMonitor 0 0 60 ViewerLoop.high 1 0.1;
              ViewerLoop.galaxy :=
                (Viewer.initializeRotationData DEFAULT_GALAXY_CONFIG pos, pos) |} in
  let events := [ViewerLoop.Frame 0; ViewerLoop.Frame 16; ViewerLoop.Resize;
                 ViewerLoop.Frame 2000] in
  let l' := ViewerLoop.run DEFAULT_GALAXY_CONFIG 1 events l in
  let angle := JS.Ratan2 4 3
               + angularVelocitySpec (axisDistance 3 4) 0.1 * ((2000 - 0) * 0.001) in
  get (snd (ViewerLoop.galaxy l')) 0 = Fin (cos angle * axisDistance 3 4)
  /\ get (snd (ViewerLoop.galaxy l')) 1 = Fin 1
  /\ get (snd (ViewerLoop.galaxy l')) 2 = Fin (sin angle * axisDistance 3 4)
  /\ axisDistance (cos angle * axisDistance 3 4) (sin angle * axisDistance 3 4)
     = axisDistance 3 4.
Proof.
  intros pos l events l' angle.
  apply (viewerLoop_absolute_time DEFAULT_GALAXY_CONFIG 1 pos 0 3 4 events l).
  - reflexivity.
  - cbn. lia.
  - reflexivity.
  - reflexivity.
  - cbn. lra.
Defined.

(* ================================================================== *)
(** ** The viewer's performance levels *)

Ltac monitor_cases m :=
  destruct m as [fc lf fps lv pr ms];
  cbv [ViewerLoop.handle ViewerLoop.animate ViewerLoop.updatePerformanceMetrics
       ViewerLoop.adjustPerformanceLevel ViewerLoop.applyPerformanceSettings
       ViewerLoop.handleResize ViewerLoop.level_eqb settled
       ViewerLoop.counters ViewerLoop.performanceLevel ViewerLoop.pixelRatio
       ViewerLoop.materialSize ViewerLoop.currentFps ViewerLoop.lastFpsTime
       ViewerLoop.frameCount] in *;
  repeat match goal with
         | |- context [Rle_dec ?a ?b] => destruct (Rle_dec a b)
         | |- context [Rlt_dec ?a ?b] => destruct (Rlt_dec a b)
         end;
  destruct lv.

Lemma handle_settled config dpr (l : ViewerLoop.loop) (e : ViewerLoop.event) :
  settled config dpr (ViewerLoop.counters l) ->
  settled config dpr (ViewerLoop.counters (ViewerLoop.handle config dpr l e)).
Proof.
  destruct l as [t0 m g]. destruct e as [t |]; monitor_cases m;
    intros (Hp & Hs); split; try assumption; reflexivity.
Qed.

Lemma handle_level_change config dpr (l : ViewerLoop.loop) (e : ViewerLoop.event) :
  ViewerLoop.performanceLevel (ViewerLoop.counters (ViewerLoop.handle config dpr l e))
  <> ViewerLoop.performanceLevel (ViewerLoop.counters l) ->
  settled config dpr (ViewerLoop.counters (ViewerLoop.handle config dpr l e)).
Proof.
  destruct l as [t0 m g]. destruct e as [t |]; monitor_cases m;
    intros Hne; try (now elim Hne); split; reflexivity.
Qed.

Lemma handle_same_level config dpr (l : ViewerLoop.loop) (e : ViewerLoop.event) :
  let l' := ViewerLoop.handle config dpr l e in
  ViewerLoop.performanceLevel (ViewerLoop.counters l')
  = ViewerLoop.performanceLevel (ViewerLoop.counters l) ->
  ViewerLoop.materialSize (ViewerLoop.counters l')
  = ViewerLoop.materialSize (ViewerLoop.counters l)
  /\ (e <> ViewerLoop.Resize ->
      ViewerLoop.pixelRatio (ViewerLoop.counters l')
      = ViewerLoop.pixelRatio (ViewerLoop.counters l)).
Proof.
  destruct l as [t0 m g]. destruct e as [t |]; monitor_cases m;
    intros He; try discriminate He; split; try reflexivity;
    intros Hr; try reflexivity; now elim Hr.
Qed.

Lemma run_settled config dpr (events : list ViewerLoop.event) :
  forall l, settled config dpr (ViewerLoop.counters l) ->
    settled config dpr (ViewerLoop.counters (ViewerLoop.run config dpr events l)).
Proof.
  induction events as [| e events IH]; intros l Hs; [exact Hs |].
  apply (IH (ViewerLoop.handle config dpr l e)). now apply handle_settled.
Qed.

Lemma level_eq_dec (a b : ViewerLoop.level) : {a = b} + {a <> b}.
Proof. decide equality. Qed.

Lemma run_untouched_or_settled config dpr (events : list ViewerLoop.event) :
  forall l,
    let l' := ViewerLoop.run config dpr events l in
    (ViewerLoop.performanceLevel (ViewerLoop.counters l')
     = ViewerLoop.performanceLevel (ViewerLoop.counters l)
     /\ ViewerLoop.materialSize (ViewerLoop.counters l')
        = ViewerLoop.materialSize (ViewerLoop.counters l)
     /\ (~ In ViewerLoop.Resize events ->
         ViewerLoop.pixelRatio (ViewerLoop.counters l')
         = ViewerLoop.pixelRatio (ViewerLoop.counters l)))
    \/ settled config dpr (ViewerLoop.counters l').
Proof.
  induction events as [| e events IH]; intros l l'.
  - left. subst l'. cbn. auto.
  - subst l'.
    change (ViewerLoop.run config dpr (e :: events) l)
      with (ViewerLoop.run config dpr events (ViewerLoop.handle config dpr l e)).
    destruct (level_eq_dec
                (ViewerLoop.performanceLevel
                   (ViewerLoop.counters (ViewerLoop.handle config dpr l e)))
                (ViewerLoop.performanceLevel (ViewerLoop.counters l)))
      as [Heq | Hne].
    + destruct (handle_same_level config dpr l e Heq) as (Hm & Hp).
      destruct (IH (ViewerLoop.handle config dpr l e)) as [(Hl & Hm' & Hp') | Hs];
        [left | right; exact Hs].
      rewrite Hl, Hm', Heq, Hm. refine (conj eq_refl (conj eq_refl _)).
      intros Hin. rewrite Hp', Hp; [reflexivity | |].
      * intros ->. apply Hin. now left.
      * intros Hin'. apply Hin. now right.
    + right. apply run_settled. now apply handle_level_change.
Qed.

(** X19. The performance level of the viewer and the two settings it drives,
    over any frames and resizes.  Once the pixel ratio and the point size are
    those of the current level they remain so; they become so as soon as a
    measurement changes the level; until then the level and the point size
    are the initial ones, and so is the pixel ratio as long as no resize
    happens: a measurement that confirms the current level applies nothing.
    A pixel ratio in force never exceeds [min(devicePixelRatio, 2)], and is
    at most 1 at the low level and at most 1.5 at the medium one. *)
Theorem performance_settings_settle config dpr
    (events : list ViewerLoop.event) (l : ViewerLoop.loop) :
  0 <= dpr ->
  let m := ViewerLoop.counters l in
  let m' := ViewerLoop.counters (ViewerLoop.run config dpr events l) in
  (settled config dpr m -> settled config dpr m')
  /\ (ViewerLoop.performanceLevel m' <> ViewerLoop.performanceLevel m ->
      settled config dpr m')
  /\ (settled config dpr m'
      \/ (ViewerLoop.performanceLevel m' = ViewerLoop.performanceLevel m
          /\ ViewerLoop.materialSize m' = ViewerLoop.materialSize m
          /\ (~ In ViewerLoop.Resize events ->
              ViewerLoop.pixelRatio m' = ViewerLoop.pixelRatio m)))
  /\ (settled config dpr m' ->
      ViewerLoop.pixelRatio m' <= Rmin dpr 2
      /\ (ViewerLoop.performanceLevel m' = ViewerLoop.low ->
          ViewerLoop.pixelRatio m' <= 1)
      /\ (ViewerLoop.performanceLevel m' = ViewerLoop.medium ->
          ViewerLoop.pixelRatio m' <= 1.5)).
Proof.
  intros Hd m m'.
  pose proof (run_untouched_or_settled config dpr events l) as H.
  cbv zeta in H. fold m m' in H.
  refine (conj _ (conj _ (conj _ _))).
  - apply run_settled.
  - intros Hne. destruct H as [(Hl & _) | Hs]; [contradiction | exact Hs].
  - destruct H as [H | Hs]; [right; exact H | left; exact Hs].
  - intros (Hp & _). rewrite Hp. clear H Hp. clearbody m'.
    destruct m' as [fc lf fps lv pr ms].
    cbv [ViewerLoop.handleResize ViewerLoop.pixelRatio
         ViewerLoop.performanceLevel].
    unfold Rmin.
    destruct lv;
      repeat match goal with
             | |- context [Rle_dec ?a ?b] => destruct (Rle_dec a b)
             end;
      refine (conj _ (conj _ _)); intros; try discriminate; lra.
Qed.

(** A device found low-end at start-up: the level is low while the renderer
    still has the pixel ratio of the scene set-up, min(2, 2) = 2, and the
    material the configured point size. *)
Lemma performance_settings_settle_witness :
  let l := {| ViewerLoop.lastTime := 0;
              ViewerLoop.counters :=
                ViewerLoop.mkMonitor 0 0 60 ViewerLoop.low 2 0.1;
              ViewerLoop.galaxy :=
                (Viewer.initializeRotationData DEFAULT_GALAXY_CONFIG [], []) |} in
  let events := [ViewerLoop.Frame 0; ViewerLoop.Frame 16; ViewerLoop.Frame 1016] in
  let m := ViewerLoop.counters l in
  let m' := ViewerLoop.counters
              (ViewerLoop.run DEFAULT_GALAXY_CONFIG 2 events l) in
  (settled DEFAULT_GALAXY_CONFIG 2 m -> settled DEFAULT_GALAXY_CONFIG 2 m')
  /\ (ViewerLoop.performanceLevel m' <> ViewerLoop.performanceLevel m ->
      settled DEFAULT_GALAXY_CONFIG 2 m')
  /\ (settled DEFAULT_GALAXY_CONFIG 2 m'
      \/ (ViewerLoop.performanceLevel m' = ViewerLoop.performanceLevel m
          /\ ViewerLoop.materialSize m' = ViewerLoop.materialSize m
          /\ (~ In ViewerLoop.Resize events ->
              ViewerLoop.pixelRatio m' = ViewerLoop.pixelRatio m)))
  /\ (settled DEFAULT_GALAXY_CONFIG 2 m' ->
      ViewerLoop.pixelRatio m' <= Rmin 2 2
      /\ (ViewerLoop.performanceLevel m' = ViewerLoop.low ->
          ViewerLoop.pixelRatio m' <= 1)
      /\ (ViewerLoop.performanceLevel m' = ViewerLoop.medium ->
          ViewerLoop.pixelRatio m' <= 1.5)).
Proof.
  intros l events.
  apply (performance_settings_settle DEFAULT_GALAXY_CONFIG 2 events l). lra.
Defined.

(* ================================================================== *)
(** ** The galaxy the viewer generates *)

Lemma viewer_bulgeStar_appendsOne hexColor galaxyConfig :
  appendsOne (ViewerGalaxy.bulgeStar hexColor galaxyConfig).
Proof. intros acc rnd k. reflexivity. Qed.

Lemma viewer_spiralStar_appendsOne hexColor styleColor galaxyConfig a t :
  appendsOne (ViewerGalaxy.spiralStar hexColor styleColor galaxyConfig a t).
Proof.
  intros acc rnd k.
  cbv [ViewerGalaxy.spiralStar bind ret random].
  repeat match goal with
         | |- context [if ?c then _ else _] => destruct c
         end; reflexivity.
Qed.

Lemma viewer_spiralStar_draws hexColor styleColor galaxyConfig a t acc rnd k :
  snd (ViewerGalaxy.spiralStar hexColor styleColor galaxyConfig a t acc rnd k)
  = (k + 7)%nat.
Proof.
  cbv [ViewerGalaxy.spiralStar bind ret random].
  split_ifs; cbn [snd]; lia.
Qed.

Lemma viewer_bulgeStar_draws hexColor galaxyConfig acc rnd k :
  snd (ViewerGalaxy.bulgeStar hexColor galaxyConfig acc rnd k) = (k + 6)%nat.
Proof. cbv [ViewerGalaxy.bulgeStar bind ret random snd]. lia. Qed.

Lemma viewer_spiralStar_positions hexColor styleColor config tightness acc rnd k :
  let t := tightness * (1 + (armCount config - 2) * 0.05) in
  positions (fst (ViewerGalaxy.spiralStar hexColor styleColor config
                    (armCount config) tightness acc rnd k))
  = push3 (positions acc)
      (JS.cos (finalAngleAt config t rnd k) .* Fin (finalRadiusAt config rnd k))
      (Fin ((rnd (S (S (S (S k)))) - 0.5) * 5
            * exp (- finalRadiusAt config rnd k / 30)))
      (JS.sin (finalAngleAt config t rnd k) .* Fin (finalRadiusAt config rnd k)).
Proof.
  cbv [ViewerGalaxy.spiralStar bind ret random].
  repeat match goal with
         | |- context [if ?c then _ else _] => destruct c
         end; reflexivity.
Qed.

Lemma viewer_spiralStar_colors_sizes_finite hexColor styleColor config a t rnd k :
  let s := firstStar (fst (ViewerGalaxy.spiralStar hexColor styleColor config
                             a t noStars rnd k)) in
  JS.isFinite (sred s) /\ JS.isFinite (sgreen s) /\ JS.isFinite (sblue s)
  /\ JS.isFinite (ssize s).
Proof.
  cbv [ViewerGalaxy.spiralStar bind ret random].
  repeat match goal with
         | |- context [if ?c then _ else _] => destruct c
         end; simpl; auto.
Qed.

Lemma viewer_spiralStar_finite hexColor styleColor config tightness rnd k :
  armCount config <> 0 ->
  let s := firstStar (fst (ViewerGalaxy.spiralStar hexColor styleColor config
                             (armCount config) tightness noStars rnd k)) in
  JS.isFinite (sx s) /\ JS.isFinite (sy s) /\ JS.isFinite (sz s).
Proof.
  intros Ha. cbv zeta. unfold firstStar.
  rewrite viewer_spiralStar_positions.
  destruct (finalAngleAt_finite config
              (tightness * (1 + (armCount config - 2) * 0.05)) rnd k Ha)
    as (a & Hfa).
  rewrite Hfa. cbn. auto.
Qed.

(** The arrays of the spiral arms followed by a bulge of [N] stars, star by
    star. *)
Lemma viewer_arms_and_bulge hexColor styleColor config (N : Z) rnd k :
  let spiral := starsOf (ViewerGalaxy.spiralStar hexColor styleColor config
                           (armCount config) 0.3)
                  (Z.to_nat (starCount config)) rnd k in
  let bulge := starsOf (ViewerGalaxy.bulgeStar hexColor config)
                 (Z.to_nat N) rnd (snd spiral) in
  (d <- ViewerGalaxy.generateSpiralArms hexColor styleColor config
          (armCount config) 0.3 ;;
   ViewerGalaxy.addCentralBulge hexColor config
     (positions d) (colors d) (sizes d) N) rnd k
  = (appendStars (appendStars noStars (fst spiral)) (fst bulge), snd bulge).
Proof.
  intros spiral bulge.
  unfold bind, ViewerGalaxy.generateSpiralArms, ViewerGalaxy.addCentralBulge.
  rewrite (repeatM_stars _ (viewer_spiralStar_appendsOne _ _ _ _ _)).
  fold spiral.
  rewrite (repeatM_stars _ (viewer_bulgeStar_appendsOne _ _)).
  fold bulge. unfold noStars.
  destruct (appendStars _ (fst spiral)). reflexivity.
Qed.

Lemma viewer_createGalaxy_lengths hexColor styleColor config rnd k :
  let n := Z.to_nat (starCount config) in
  let out := ViewerGalaxy.createGalaxy hexColor styleColor config rnd k in
  List.length (positions (fst out)) = (3 * (n + Z.to_nat 5000))%nat
  /\ List.length (colors (fst out)) = (3 * (n + Z.to_nat 5000))%nat
  /\ List.length (sizes (fst out)) = (n + Z.to_nat 5000)%nat
  /\ snd out = (k + 7 * n + 6 * Z.to_nat 5000)%nat.
Proof.
  intros n out. subst out. unfold ViewerGalaxy.createGalaxy.
  generalize 5000%Z. intros N.
  rewrite viewer_arms_and_bulge. cbn [fst snd].
  rewrite !appendStars_positions, !appendStars_colors, !appendStars_sizes.
  cbn [positions colors sizes noStars app].
  rewrite !length_app, !flat_map_xyz_length, !flat_map_rgb_length, !length_map,
    !starsOf_length.
  fold n.
  pose proof (starsOf_draws
                (ViewerGalaxy.spiralStar hexColor styleColor config
                   (armCount config) 0.3) rnd 7 7
                (fun j => ltac:(rewrite viewer_spiralStar_draws; lia)) n k) as H1.
  set (k1 := snd (starsOf _ n rnd k)) in *.
  pose proof (starsOf_draws (ViewerGalaxy.bulgeStar hexColor config) rnd 6 6
                (fun j => ltac:(rewrite viewer_bulgeStar_draws; lia))
                (Z.to_nat N) k1) as H2.
  lia.
Qed.

Lemma viewer_createGalaxy_finite hexColor styleColor config rnd k :
  armCount config <> 0 ->
  Forall JS.isFinite
    (positions (fst (ViewerGalaxy.createGalaxy hexColor styleColor config rnd k))).
Proof.
  intros Ha. unfold ViewerGalaxy.createGalaxy.
  generalize 5000%Z. intros N.
  rewrite viewer_arms_and_bulge. cbn [fst].
  rewrite !appendStars_positions. cbn [positions noStars app].
  apply Forall_app. split; apply Forall_xyz; apply starsOf_Forall; intros j.
  - now apply viewer_spiralStar_finite.
  - cbn. auto.
Qed.

Lemma viewer_createGalaxy_colors_sizes_finite hexColor styleColor config rnd k :
  let d := fst (ViewerGalaxy.createGalaxy hexColor styleColor config rnd k) in
  Forall JS.isFinite (colors d) /\ Forall JS.isFinite (sizes d).
Proof.
  cbv zeta. unfold ViewerGalaxy.createGalaxy.
  generalize 5000%Z. intros N.
  rewrite viewer_arms_and_bulge. cbn [fst].
  rewrite !appendStars_colors, !appendStars_sizes.
  cbn [colors sizes noStars app].
  split; apply Forall_app; split;
    try apply Forall_rgb; try apply Forall_ssize;
    apply starsOf_Forall; intros j;
    try (pose proof (viewer_spiralStar_colors_sizes_finite hexColor styleColor
                       config (armCount config) 0.3 rnd j) as H;
         cbv zeta in H; tauto);
    cbn; auto.
Qed.

(** X20. With a nonzero [armCount], the galaxy of the viewer has
    [starCount + 5000] stars (a negative star count counting as 0), the
    bulge having 5000 of them whatever the configured star count; its
    generation takes exactly seven random numbers per spiral star and six
    per bulge star; every coordinate, color and size is finite. *)
Theorem viewer_createGalaxy_star_total hexColor styleColor config rnd k :
  armCount config <> 0 ->
  let n := Z.to_nat (starCount config) in
  let out := ViewerGalaxy.createGalaxy hexColor styleColor config rnd k in
  List.length (positions (fst out)) = (3 * (n + Z.to_nat 5000))%nat
  /\ List.length (colors (fst out)) = (3 * (n + Z.to_nat 5000))%nat
  /\ List.length (sizes (fst out)) = (n + Z.to_nat 5000)%nat
  /\ snd out = (k + 7 * n + 6 * Z.to_nat 5000)%nat
  /\ Forall JS.isFinite (positions (fst out))
  /\ Forall JS.isFinite (colors (fst out))
  /\ Forall JS.isFinite (sizes (fst out)).
Proof.
  intros Ha n out.
  destruct (viewer_createGalaxy_lengths hexColor styleColor config rnd k)
    as (Lp & Lc & Ls & Hk).
  destruct (viewer_createGalaxy_colors_sizes_finite hexColor styleColor config
              rnd k) as (Fc & Fs).
  refine (conj Lp (conj Lc (conj Ls (conj Hk (conj _ (conj Fc Fs)))))).
  now apply viewer_createGalaxy_finite.
Qed.

Lemma viewer_createGalaxy_star_total_witness :
  let config := withStarCount DEFAULT_GALAXY_CONFIG 12 in
  let out := ViewerGalaxy.createGalaxy hexRGB styleRGB config halves 0%nat in
  List.length (positions (fst out)) = (3 * (12 + Z.to_nat 5000))%nat
  /\ List.length (colors (fst out)) = (3 * (12 + Z.to_nat 5000))%nat
  /\ List.length (sizes (fst out)) = (12 + Z.to_nat 5000)%nat
  /\ snd out = (0 + 7 * 12 + 6 * Z.to_nat 5000)%nat
  /\ Forall JS.isFinite (positions (fst out))
  /\ Forall JS.isFinite (colors (fst out))
  /\ Forall JS.isFinite (sizes (fst out)).
Proof.
  intros config out.
  apply (viewer_createGalaxy_star_total hexRGB styleRGB config halves 0%nat).
  unfold config, withStarCount, DEFAULT_GALAXY_CONFIG, armCount. lra.
Defined.

(** X21. The galaxy of the viewer under its frame loop: with a nonzero
    [armCount], every one of the [starCount + 5000] stars it generates has
    real coordinates [(x, y, z)], and after any frames (time stamps never
    going back) and resizes it is at [(cos a * r, y, sin a * r)], where [r]
    is its distance [sqrt(x^2 + z^2)] to the axis at generation and
    [a = atan2(z, x) + w * t / 1000] for the time [t] elapsed up to the last
    frame; its angular velocity [w] is the rotation curve at [r] and lies
    within [0, rotationSpeed] when that is not negative. *)
Theorem viewer_galaxy_rotation hexColor styleColor config dpr rnd k
    (events : list ViewerLoop.event) (l : ViewerLoop.loop) :
  armCount config <> 0 ->
  let pos := positions (fst (ViewerGalaxy.createGalaxy hexColor styleColor
                               config rnd k)) in
  ViewerLoop.galaxy l = (Viewer.initializeRotationData config pos, pos) ->
  ascending (ViewerLoop.lastTime l) (frameTimes events) ->
  let l' := ViewerLoop.run config dpr events l in
  let t := last (frameTimes events) (ViewerLoop.lastTime l)
           - ViewerLoop.lastTime l in
  forall i, (i < Z.to_nat (starCount config) + Z.to_nat 5000)%nat ->
    exists x y z,
      get pos (i * 3) = Fin x /\ get pos (i * 3 + 1) = Fin y
      /\ get pos (i * 3 + 2) = Fin z
      /\ let r := axisDistance x z in
         let w := angularVelocitySpec r (rotationSpeed config) in
         let a := JS.Ratan2 z x + w * (t * 0.001) in
         get (Viewer.radii (fst (ViewerLoop.galaxy l'))) i = Fin r
         /\ get (snd (ViewerLoop.galaxy l')) (i * 3) = Fin (cos a * r)
         /\ get (snd (ViewerLoop.galaxy l')) (i * 3 + 1) = Fin y
         /\ get (snd (ViewerLoop.galaxy l')) (i * 3 + 2) = Fin (sin a * r)
         /\ axisDistance (cos a * r) (sin a * r) = r
         /\ (0 <= rotationSpeed config -> 0 <= w <= rotationSpeed config).
Proof.
  intros Ha pos Hg Hasc l' t i Hi.
  pose proof (viewer_createGalaxy_finite hexColor styleColor config rnd k Ha)
    as Hfin. fold pos in Hfin.
  destruct (viewer_createGalaxy_lengths hexColor styleColor config rnd k)
    as (Lp & _). fold pos in Lp.
  destruct (finite_get pos (i * 3) Hfin ltac:(lia)) as (x & Hx).
  destruct (finite_get pos (i * 3 + 1) Hfin ltac:(lia)) as (y & Hy).
  destruct (finite_get pos (i * 3 + 2) Hfin ltac:(lia)) as (z & Hz).
  exists x, y, z. refine (conj Hx (conj Hy (conj Hz _))). intros r w a.
  assert (Hs : (i < starsIn pos)%nat).
  { rewrite (starsIn_triple pos _ Lp). exact Hi. }
  pose proof (initializeRotationData_star config pos i x z Hs Hx Hz) as Hst.
  rewrite <- Hg in Hst.
  destruct (viewerLoop_star config dpr i r w events l _ Hst Hasc)
    as (((_ & _ & _ & Er & _) & Ex & Ez) & Ey & El).
  fold l' in Er, Ex, Ey, Ez, El. rewrite El in Ex, Ez. fold t in Ex, Ez.
  fold a in Ex, Ez. rewrite Hg in Ey. cbn [snd] in Ey. rewrite Hy in Ey.
  assert (Hr : 0 <= r) by (unfold r, axisDistance; apply sqrt_pos).
  refine (conj Er (conj Ex (conj Ey (conj Ez (conj _ _))))).
  - now apply axisDistance_polar.
  - intros Hsp. now apply angularVelocitySpec_range.
Qed.

(** A bulge star of a galaxy of twelve spiral stars, over three frames and a
    resize. *)
Lemma viewer_galaxy_rotation_witness :
  let config := withStarCount DEFAULT_GALAXY_CONFIG 12 in
  let pos := positions (fst (ViewerGalaxy.createGalaxy hexRGB styleRGB
                               config halves 0%nat)) in
  let l := {| ViewerLoop.lastTime := 0;
              ViewerLoop.counters :=
                ViewerLoop.mkMonitor 0 0 60 ViewerLoop.high 1 0.1;
              ViewerLoop.galaxy :=
                (Viewer.initializeRotationData config pos, pos) |} in
  let events := [ViewerLoop.Frame 0; ViewerLoop.Frame 16; ViewerLoop.Resize;
                 ViewerLoop.Frame 2000] in
  let l' := ViewerLoop.run config 1 events l in
  let t := last (frameTimes events) (ViewerLoop.lastTime l)
           - ViewerLoop.lastTime l in
  exists x y z,
    get pos (13 * 3) = Fin x /\ get pos (13 * 3 + 1) = Fin y
    /\ get pos (13 * 3 + 2) = Fin z
    /\ let r := axisDistance x z in
       let w := angularVelocitySpec r (rotationSpeed config) in
       let a := JS.Ratan2 z x + w * (t * 0.001) in
       get (Viewer.radii (fst (ViewerLoop.galaxy l'))) 13 = Fin r
       /\ get (snd (ViewerLoop.galaxy l')) (13 * 3) = Fin (cos a * r)
       /\ get (snd (ViewerLoop.galaxy l')) (13 * 3 + 1) = Fin y
       /\ get (snd (ViewerLoop.galaxy l')) (13 * 3 + 2) = Fin (sin a * r)
       /\ axisDistance (cos a * r) (sin a * r) = r
       /\ (0 <= rotationSpeed config -> 0 <= w <= rotationSpeed config).
Proof.
  intros config pos l events l' t.
  apply (viewer_galaxy_rotation hexRGB styleRGB config 1 halves 0%nat events l).
  - unfold config, withStarCount, DEFAULT_GALAXY_CONFIG, armCount. lra.
  - reflexivity.
  - unfold l, events.
    cbn [ViewerLoop.lastTime frameTimes flat_map app ascending].
    repeat split; lra.
  - unfold config, withStarCount, starCount. lia.
Defined.

(* ================================================================== *)
(** ** The brightness variation of the viewer *)

Lemma forRangeM_invariant {S : Type} (P : nat -> S -> nat -> Prop)
    (body : nat -> S -> Rand S) (rnd : nat -> R) :
  forall n start s k,
    P start s k ->
    (forall i s' k', (start <= i < start + n)%nat -> P i s' k' ->
       P (Datatypes.S i) (fst (body i s' rnd k')) (snd (body i s' rnd k'))) ->
    P (start + n)%nat (fst (ViewerGalaxy.forRangeM start n body s rnd k))
      (snd (ViewerGalaxy.forRangeM start n body s rnd k)).
Proof.
  induction n as [| n IH]; intros start s k H0 Hstep.
  - cbn. now rewrite Nat.add_0_r.
  - cbn [ViewerGalaxy.forRangeM]. unfold bind.
    pose proof (Hstep start s k ltac:(lia) H0) as H1.
    destruct (body start s rnd k) as [s1 k1]. cbn [fst snd] in H1.
    replace (start + Datatypes.S n)%nat with (Datatypes.S start + n)%nat by lia.
    apply IH; [exact H1 |].
    intros i s' k' Hi. apply Hstep. lia.
Qed.

Lemma brightenStar_step config (pos colors : list num) rnd k (n j : nat)
    (c b : list num) (k' : nat) :
  (j < n)%nat ->
  k' = (k + j)%nat /\ List.length c = (3 * n)%nat /\ List.length b = n
  /\ (forall i, (i < j)%nat -> brightened config rnd k colors c b i)
  /\ (forall m, (3 * j <= m)%nat -> get c m = get colors m) ->
  let out := ViewerGalaxy.brightenStar config pos j (c, b) rnd k' in
  snd out = (k + Datatypes.S j)%nat
  /\ List.length (fst (fst out)) = (3 * n)%nat
  /\ List.length (snd (fst out)) = n
  /\ (forall i, (i < Datatypes.S j)%nat ->
        brightened config rnd k colors (fst (fst out)) (snd (fst out)) i)
  /\ (forall m, (3 * Datatypes.S j <= m)%nat ->
        get (fst (fst out)) m = get colors m).
Proof.
  intros Hj (Hk & Lc & Lb & Hdone & Htail) out. subst out k'.
  cbv [ViewerGalaxy.brightenStar bind ret random fst snd].
  set (base := if _ .< _ then 1.5 else if _ .> _ then 0.6 else 1.0).
  assert (Hbase : base = 0.6 \/ base = 1 \/ base = 1.5).
  { subst base.
    split_ifs; solve [left; lra | right; left; lra | right; right; lra]. }
  clearbody base.
  set (v := Fin (base * (0.3 + rnd (k + j)%nat * 0.7))
            .* ViewerGalaxy.brightnessNumber config).
  assert (Gb : get (set b j v) j = v) by (apply get_set_eq; lia).
  rewrite Gb.
  set (c1 := set c (j * 3) (get c (j * 3) .* v)).
  set (c2 := set c1 (j * 3 + 1) (get c1 (j * 3 + 1) .* v)).
  set (c3 := set c2 (j * 3 + 2) (get c2 (j * 3 + 2) .* v)).
  assert (G0 : get c3 (j * 3) = get colors (j * 3) .* v).
  { unfold c3, c2. rewrite !get_set_neq by lia. unfold c1.
    rewrite get_set_eq by lia. now rewrite Htail by lia. }
  assert (G1 : get c3 (j * 3 + 1) = get colors (j * 3 + 1) .* v).
  { unfold c3. rewrite get_set_neq by lia. unfold c2.
    rewrite get_set_eq by (unfold c1; rewrite set_length; lia).
    unfold c1. rewrite get_set_neq by lia. now rewrite Htail by lia. }
  assert (G2 : get c3 (j * 3 + 2) = get colors (j * 3 + 2) .* v).
  { unfold c3.
    rewrite get_set_eq by (unfold c2, c1; rewrite !set_length; lia).
    unfold c2. rewrite get_set_neq by lia.
    unfold c1. rewrite get_set_neq by lia. now rewrite Htail by lia. }
  assert (Gother : forall m, m <> (j * 3)%nat -> m <> (j * 3 + 1)%nat ->
                     m <> (j * 3 + 2)%nat -> get c3 m = get c m).
  { intros m H0 H1 H2. unfold c3, c2, c1. now rewrite !get_set_neq by lia. }
  refine (conj _ (conj _ (conj _ (conj _ _)))).
  - lia.
  - unfold c3, c2, c1. now rewrite !set_length.
  - now rewrite set_length.
  - intros i Hi. destruct (Nat.eq_dec i j) as [-> | Hne].
    + exists base. rewrite Gb, G0, G1, G2. auto.
    + destruct (Hdone i ltac:(lia)) as (bs & Hbs & Eb & E0 & E1 & E2).
      exists bs. rewrite get_set_neq by lia.
      rewrite !Gother by lia. auto.
  - intros m Hm. rewrite Gother by lia. apply Htail. lia.
Qed.

Lemma addStarBrightnessVariation_loop config (pos colors : list num) rnd k
    (n : nat) :
  List.length pos = (3 * n)%nat -> List.length colors = (3 * n)%nat ->
  let out := ViewerGalaxy.addStarBrightnessVariation config pos colors rnd k in
  snd out = (k + n)%nat
  /\ List.length (fst (fst out)) = (3 * n)%nat
  /\ List.length (snd (fst out)) = n
  /\ forall i, (i < n)%nat ->
       brightened config rnd k colors (fst (fst out)) (snd (fst out)) i.
Proof.
  intros Lp Lc out. subst out. unfold ViewerGalaxy.addStarBrightnessVariation.
  rewrite (starsIn_triple pos n Lp).
  pose proof (forRangeM_invariant
    (fun j (s : list num * list num) k' =>
       k' = (k + j)%nat /\ List.length (fst s) = (3 * n)%nat
       /\ List.length (snd s) = n
       /\ (forall i, (i < j)%nat ->
             brightened config rnd k colors (fst s) (snd s) i)
       /\ (forall m, (3 * j <= m)%nat -> get (fst s) m = get colors m))
    (ViewerGalaxy.brightenStar config pos) rnd n 0%nat (colors, zeros n) k) as H.
  cbn [fst snd Nat.add] in H.
  destruct H as (Hk & L1 & L2 & Hall & _).
  - refine (conj _ (conj Lc (conj (zeros_length n) (conj _ _)))).
    + lia.
    + intros i Hi. lia.
    + reflexivity.
  - intros j [c b] k' Hj Hinv. cbn [fst snd] in Hinv.
    apply (brightenStar_step config pos colors rnd k n j c b k'); [lia | exact Hinv].
  - auto.
Qed.

Lemma mul_nan_r (a : num) : a .* NaN = NaN.
Proof. destruct a; reflexivity. Qed.

Lemma triple_index (m n : nat) :
  (m < 3 * n)%nat ->
  exists i, (i < n)%nat
            /\ (m = (i * 3)%nat \/ m = (i * 3 + 1)%nat \/ m = (i * 3 + 2)%nat).
Proof.
  intros Hm. exists (m / 3)%nat.
  pose proof (Nat.div_mod_eq m 3) as E.
  pose proof (Nat.mod_upper_bound m 3 ltac:(lia)) as Hr.
  split; [lia |].
  destruct (m mod 3)%nat as [| [| [| r]]]; lia.
Qed.

(** X22. [addStarBrightnessVariation] on a geometry of [n] stars draws one
    random number per star and keeps the lengths of the arrays; the
    brightness of a star is a base of 0.6, 1 or 1.5 times a variation in
    [0.3, 1) times the configured brightness, so a factor in [0.18, 1.5) of
    it, and each color component of the star is multiplied by that
    brightness.  No fallback is applied to the configured brightness: with a
    brightness of 0 every (finite) color component becomes 0, and with no
    brightness configured every one becomes NaN. *)
Theorem addStarBrightnessVariation_colors config (pos colors : list num)
    rnd k (n : nat) :
  unitDraws rnd ->
  List.length pos = (3 * n)%nat -> List.length colors = (3 * n)%nat ->
  let out := ViewerGalaxy.addStarBrightnessVariation config pos colors rnd k in
  let colors' := fst (fst out) in
  let brightness' := snd (fst out) in
  snd out = (k + n)%nat
  /\ List.length colors' = (3 * n)%nat
  /\ List.length brightness' = n
  /\ (forall i, (i < n)%nat ->
        brightened config rnd k colors colors' brightness' i)
  /\ (forall b, brightness config = Some b ->
        forall i, (i < n)%nat ->
          exists f, 0.18 <= f < 1.5 /\ get brightness' i = Fin (f * b))
  /\ (brightness config = Some 0 -> Forall JS.isFinite colors ->
        forall m, (m < 3 * n)%nat -> get colors' m = Fin 0)
  /\ (brightness config = None ->
        forall m, (m < 3 * n)%nat -> get colors' m = NaN).
Proof.
  intros Hr Lp Lc out colors' brightness'.
  destruct (addStarBrightnessVariation_loop config pos colors rnd k n Lp Lc)
    as (Hk & L1 & L2 & Hall).
  fold out in Hk, L1, L2, Hall. fold colors' in L1, Hall.
  fold brightness' in L2, Hall.
  refine (conj Hk (conj L1 (conj L2 (conj Hall (conj _ (conj _ _)))))).
  - intros b Hb i Hi.
    destruct (Hall i Hi) as (base & Hbase & Eb & _).
    unfold ViewerGalaxy.brightnessNumber in Eb. rewrite Hb in Eb.
    exists (base * (0.3 + rnd (k + i)%nat * 0.7)). split; [| exact Eb].
    pose proof (Hr (k + i)%nat) as Hu.
    destruct Hbase as [-> | [-> | ->]]; lra.
  - intros Hb Hfin m Hm.
    destruct (triple_index m n Hm) as (i & Hi & Hcase).
    destruct (Hall i Hi) as (base & _ & Eb & E0 & E1 & E2).
    unfold ViewerGalaxy.brightnessNumber in Eb. rewrite Hb in Eb.
    cbn [JS.mul JS.lift2] in Eb. rewrite Eb in E0, E1, E2.
    destruct (finite_get colors m Hfin ltac:(lia)) as (c & Hc).
    destruct Hcase as [-> | [-> | ->]];
      [rewrite E0 | rewrite E1 | rewrite E2]; rewrite Hc;
      cbn [JS.mul JS.lift2]; f_equal; ring.
  - intros Hb m Hm.
    destruct (triple_index m n Hm) as (i & Hi & Hcase).
    destruct (Hall i Hi) as (base & _ & Eb & E0 & E1 & E2).
    unfold ViewerGalaxy.brightnessNumber in Eb. rewrite Hb in Eb.
    rewrite mul_nan_r in Eb. rewrite Eb, mul_nan_r in E0, E1, E2.
    destruct Hcase as [-> | [-> | ->]]; assumption.
Qed.

(** One white star at (4, 0, 0) and the default configuration. *)
Lemma addStarBrightnessVariation_colors_witness :
  let pos := [Fin 4; Fin 0; Fin 0] in
  let colors := [Fin 1; Fin 1; Fin 1] in
  let out := ViewerGalaxy.addStarBrightnessVariation DEFAULT_GALAXY_CONFIG
               pos colors halves 0%nat in
  let colors' := fst (fst out) in
  let brightness' := snd (fst out) in
  snd out = (0 + 1)%nat
  /\ List.length colors' = (3 * 1)%nat
  /\ List.length brightness' = 1%nat
  /\ (forall i, (i < 1)%nat ->
        brightened DEFAULT_GALAXY_CONFIG halves 0 colors colors' brightness' i)
  /\ (forall b, brightness DEFAULT_GALAXY_CONFIG = Some b ->
        forall i, (i < 1)%nat ->
          exists f, 0.18 <= f < 1.5 /\ get brightness' i = Fin (f * b))
  /\ (brightness DEFAULT_GALAXY_CONFIG = Some 0 -> Forall JS.isFinite colors ->
        forall m, (m < 3 * 1)%nat -> get colors' m = Fin 0)
  /\ (brightness DEFAULT_GALAXY_CONFIG = None ->
        forall m, (m < 3 * 1)%nat -> get colors' m = NaN).
Proof.
  intros pos colors.
  apply (addStarBrightnessVariation_colors DEFAULT_GALAXY_CONFIG pos colors
           halves 0%nat 1%nat).
  - exact halves_unit.
  - reflexivity.
  - reflexivity.
Defined.

(* ================================================================== *)
(** ** The cosmic dust of the viewer *)

Lemma triples_app (P : num -> num -> num -> Prop) (b : list num) :
  triples P b ->
  forall n a, (List.length a <= n)%nat -> triples P a -> triples P (a ++ b).
Proof.
  intros Hb. induction n as [| n IH]; intros a Hn Ha.
  - destruct a; [exact Hb | simpl in Hn; lia].
  - destruct a as [| x [| y [| z rest]]]; try contradiction; [exact Hb |].
    destruct Ha as (Hx & Hrest). cbn [app triples]. split; [exact Hx |].
    apply IH; [simpl in Hn; lia | exact Hrest].
Qed.

Lemma triples_get (P : num -> num -> num -> Prop) :
  forall i a, triples P a -> (i * 3 + 2 < List.length a)%nat ->
    P (get a (i * 3)) (get a (i * 3 + 1)) (get a (i * 3 + 2)).
Proof.
  induction i as [| i IH]; intros a Ha Hi;
    destruct a as [| x [| y [| z rest]]]; try contradiction;
    try (simpl in Hi; lia); destruct Ha as (Hx & Hrest).
  - exact Hx.
  - replace (S i * 3)%nat with (3 + i * 3)%nat by lia.
    change (P (get rest (i * 3)) (get rest (i * 3 + 1)) (get rest (i * 3 + 2))).
    apply IH; [exact Hrest | simpl in Hi; lia].
Qed.

Lemma exp_neg_le_1_over (c r : R) : 0 < c -> 0 <= r -> exp (- r / c) <= 1.
Proof.
  intros Hc Hr. rewrite <- exp_0.
  destruct (Req_dec_T r 0) as [-> | Hne].
  - right. f_equal. unfold Rdiv. ring.
  - left. apply exp_increasing.
    assert (0 < r / c) by (apply Rdiv_lt_0_compat; lra).
    unfold Rdiv in *. lra.
Qed.

Lemma dustParticle_pushes hexColor config acc rnd k :
  unitDraws rnd -> armCount config <> 0 -> 0 <= galaxyRadius config ->
  let out := ViewerSetup.dustParticle hexColor config acc rnd k in
  snd out = (k + 6)%nat
  /\ exists x y z r g b,
       ViewerSetup.dustPositions (fst out)
       = ViewerSetup.dustPositions acc ++ [x; y; z]
       /\ ViewerSetup.dustColors (fst out)
          = ViewerSetup.dustColors acc ++ [r; g; b]
       /\ dustParticleOk config x y z.
Proof.
  intros Hr Ha Hg out. subst out.
  cbv [ViewerSetup.dustParticle bind ret random fst snd
       ViewerSetup.dustPositions ViewerSetup.dustColors push3].
  split; [lia |].
  rewrite div_fin by assumption. cbn [JS.add JS.lift2 JS.cos JS.sin JS.lift1 JS.mul].
  do 6 eexists. split; [reflexivity |]. split; [reflexivity |].
  set (rad := Rmax 0 (rnd (S k) * galaxyRadius config * 1.2
                      + (rnd (S (S (S k))) - 0.5) * 20)).
  set (ang := _ + _ + _).
  assert (Hrad : 0 <= rad < galaxyRadius config * 1.2 + 10).
  { unfold rad. pose proof (Hr (S k)) as H2.
    pose proof (Hr (S (S (S k)))) as H4.
    split; [apply Rmax_l |]. apply Rmax_lub_lt; [lra | nra]. }
  pose proof (exp_neg_le_1_over 50 rad ltac:(lra) (proj1 Hrad)) as He.
  pose proof (exp_pos (- rad / 50)) as Hp.
  pose proof (Hr (S (S (S (S k))))) as H5.
  do 3 eexists. do 3 (split; [reflexivity |]).
  rewrite (axisDistance_polar ang rad (proj1 Hrad)).
  split; [apply Hrad |].
  assert (Habs : Rabs ((rnd (S (S (S (S k)))) - 0.5) * 15 * exp (- rad / 50))
                 <= 7.5 * exp (- rad / 50)).
  { apply Rabs_le. split; nra. }
  split; [exact Habs | lra].
Qed.

Lemma repeatDust_particles hexColor config rnd :
  unitDraws rnd -> armCount config <> 0 -> 0 <= galaxyRadius config ->
  forall n acc k,
    triples (dustParticleOk config) (ViewerSetup.dustPositions acc) ->
    let out := ViewerSetup.repeatDust n (ViewerSetup.dustParticle hexColor config)
                 acc rnd k in
    snd out = (k + 6 * n)%nat
    /\ List.length (ViewerSetup.dustPositions (fst out))
       = (List.length (ViewerSetup.dustPositions acc) + 3 * n)%nat
    /\ List.length (ViewerSetup.dustColors (fst out))
       = (List.length (ViewerSetup.dustColors acc) + 3 * n)%nat
    /\ triples (dustParticleOk config) (ViewerSetup.dustPositions (fst out)).
Proof.
  intros Hr Ha Hg. induction n as [| n IH]; intros acc k Hacc.
  - cbn. repeat split; try lia. exact Hacc.
  - cbn [ViewerSetup.repeatDust]. unfold bind.
    destruct (dustParticle_pushes hexColor config acc rnd k Hr Ha Hg)
      as (Hk & x & y & z & r & g & b & Ep & Ec & Hok).
    destruct (ViewerSetup.dustParticle hexColor config acc rnd k) as [acc1 k1].
    cbn [fst snd] in Hk, Ep, Ec. subst k1.
    assert (H1 : triples (dustParticleOk config) (ViewerSetup.dustPositions acc1)).
    { rewrite Ep. apply (triples_app _ [x; y; z]) with
        (n := List.length (ViewerSetup.dustPositions acc)).
      - cbn. auto.
      - lia.
      - exact Hacc. }
    destruct (IH acc1 (k + 6)%nat H1) as (Hk' & Lp & Lc & Ht).
    rewrite Ep, Ec, !length_app in *. cbn [List.length] in *.
    refine (conj _ (conj _ (conj _ Ht))); lia.
Qed.

Lemma floor_tenth (n : Z) : JS.floor (IZR n * 0.1) = (n / 10)%Z.
Proof.
  apply Zfloor_eq.
  pose proof (Z.div_mod n 10 ltac:(lia)) as Hdm.
  pose proof (Z.mod_pos_bound n 10 ltac:(lia)) as (Hlo & Hhi).
  assert (Hn : IZR n = 10 * IZR (n / 10) + IZR (n mod 10)).
  { rewrite <- mult_IZR, <- plus_IZR. now f_equal. }
  apply IZR_le in Hlo. apply IZR_lt in Hhi. lra.
Qed.

(** X23. The cosmic dust of the viewer has [floor(starCount / 10)] particles,
    each made from exactly six random numbers; with a nonzero [armCount] and
    a galaxy radius [R >= 0] every particle has real coordinates, lies less
    than [1.2 R + 10] from the vertical axis, and its height is at most
    [7.5 exp(-d / 50)] in absolute value, [d] being that distance, hence at
    most 7.5. *)
Theorem createCosmicDust_particles hexColor config rnd k :
  unitDraws rnd -> armCount config <> 0 -> 0 <= galaxyRadius config ->
  let out := ViewerSetup.createCosmicDust hexColor config rnd k in
  let dustCount := Z.to_nat (starCount config / 10) in
  snd out = (k + 6 * dustCount)%nat
  /\ List.length (ViewerSetup.dustPositions (fst out)) = (3 * dustCount)%nat
  /\ List.length (ViewerSetup.dustColors (fst out)) = (3 * dustCount)%nat
  /\ forall i, (i < dustCount)%nat ->
       dustParticleOk config
         (get (ViewerSetup.dustPositions (fst out)) (i * 3))
         (get (ViewerSetup.dustPositions (fst out)) (i * 3 + 1))
         (get (ViewerSetup.dustPositions (fst out)) (i * 3 + 2)).
Proof.
  intros Hr Ha Hg out dustCount. subst out.
  unfold ViewerSetup.createCosmicDust. rewrite floor_tenth. fold dustCount.
  destruct (repeatDust_particles hexColor config rnd Hr Ha Hg dustCount
              {| ViewerSetup.dustPositions := []; ViewerSetup.dustColors := [] |}
              k I) as (Hk & Lp & Lc & Ht).
  cbn [ViewerSetup.dustPositions ViewerSetup.dustColors List.length Nat.add]
    in Lp, Lc.
  refine (conj Hk (conj Lp (conj Lc _))).
  intros i Hi. apply triples_get; [exact Ht | lia].
Qed.

Lemma createCosmicDust_particles_witness :
  let config := withStarCount DEFAULT_GALAXY_CONFIG 25 in
  let out := ViewerSetup.createCosmicDust hexRGB config halves 0%nat in
  snd out = (0 + 6 * Z.to_nat (25 / 10))%nat
  /\ List.length (ViewerSetup.dustPositions (fst out))
     = (3 * Z.to_nat (25 / 10))%nat
  /\ List.length (ViewerSetup.dustColors (fst out))
     = (3 * Z.to_nat (25 / 10))%nat
  /\ forall i, (i < Z.to_nat (25 / 10))%nat ->
       dustParticleOk config
         (get (ViewerSetup.dustPositions (fst out)) (i * 3))
         (get (ViewerSetup.dustPositions (fst out)) (i * 3 + 1))
         (get (ViewerSetup.dustPositions (fst out)) (i * 3 + 2)).
Proof.
  intros config.
  apply (createCosmicDust_particles hexRGB config halves 0%nat).
  - exact halves_unit.
  - unfold config, withStarCount, DEFAULT_GALAXY_CONFIG, armCount. lra.
  - unfold config, withStarCount, DEFAULT_GALAXY_CONFIG, galaxyRadius. lra.
Defined.

(* ================================================================== *)
(** ** Device detection *)

(** X24. [detectDeviceCapabilities] changes nothing of the configuration but
    the star count, which it never raises, and the particle size, which it
    never lowers.  A mobile device is always rated low (the mobile test of
    the medium branch never decides); the high level is only given to a
    non-mobile device whose screen has between 1,000,000 and 2,073,600
    pixels, and leaves the configuration alone; the medium level caps the
    star count at 20000; the low level, when WebGL is available, caps it at
    10000 and raises the particle size to at least 0.15, so that the galaxy
    then generated has at most 15000 stars; without WebGL the level is low
    and the configuration is left alone. *)
Theorem detectDeviceCapabilities_caps (d : ViewerSetup.device)
    (config : GalaxyConfig) :
  let lv := fst (ViewerSetup.detectDeviceCapabilities d config) in
  let config' := snd (ViewerSetup.detectDeviceCapabilities d config) in
  (armCount config' = armCount config
   /\ galaxyRadius config' = galaxyRadius config
   /\ rotationSpeed config' = rotationSpeed config
   /\ coreSize config' = coreSize config
   /\ starColors config' = starColors config
   /\ brightness config' = brightness config)
  /\ (starCount config' <= starCount config)%Z
  /\ particleSize config <= particleSize config'
  /\ (ViewerSetup.isMobile d = true -> lv = ViewerLoop.low)
  /\ (lv = ViewerLoop.high ->
      config' = config /\ ViewerSetup.isMobile d = false
      /\ 1000000 <= ViewerSetup.screenWidth d * ViewerSetup.screenHeight d
         <= 2073600)
  /\ (lv = ViewerLoop.medium ->
      starCount config' = Z.min (starCount config) 20000
      /\ particleSize config' = particleSize config)
  /\ (ViewerSetup.hasWebGL d = true -> ViewerSetup.glContext d = true ->
      lv = ViewerLoop.low ->
      (starCount config' <= 10000)%Z /\ 0.15 <= particleSize config'
      /\ forall hexColor styleColor rnd k,
           (Z.of_nat
              (List.length (sizes (fst (ViewerGalaxy.createGalaxy hexColor
                                          styleColor config' rnd k))))
            <= 15000)%Z)
  /\ (ViewerSetup.hasWebGL d = false -> lv = ViewerLoop.low /\ config' = config).
Proof.
  intros lv config'. subst lv config'.
  unfold ViewerSetup.detectDeviceCapabilities.
  destruct (ViewerSetup.hasWebGL d), (ViewerSetup.glContext d);
    cbn [negb]; try (cbn [fst snd]; repeat split; try reflexivity;
                     try discriminate; try lia; try lra; fail).
  destruct (ViewerSetup.isMobile d); cbn [orb].
  - cbn [fst snd starCount armCount galaxyRadius rotationSpeed coreSize
         starColors particleSize brightness].
    pose proof (Rmax_l (particleSize config) 0.15).
    pose proof (Rmax_r (particleSize config) 0.15).
    refine (conj _ (conj _ (conj _ (conj _ (conj _ (conj _ (conj _ _)))))));
      try discriminate; try (repeat split; reflexivity); try lia; try lra.
    intros _ _ _. refine (conj _ (conj _ _)); [lia | lra |].
    intros hexColor styleColor rnd k.
    destruct (viewer_createGalaxy_lengths hexColor styleColor
                {| starCount := Z.min (starCount config) 10000;
                   armCount := armCount config;
                   galaxyRadius := galaxyRadius config;
                   rotationSpeed := rotationSpeed config;
                   coreSize := coreSize config;
                   starColors := starColors config;
                   particleSize := Rmax (particleSize config) 0.15;
                   brightness := brightness config |} rnd k)
      as (_ & _ & Ls & _).
    rewrite Ls. cbn [starCount]. lia.
  - destruct (ViewerSetup.memoryBelow (ViewerSetup.memory d) 2
              || ViewerSetup.includes (ViewerSetup.gpuInfo d) "Intel"
              || (if Rlt_dec (ViewerSetup.screenWidth d * ViewerSetup.screenHeight d)
                       1000000 then true else false)) eqn:Elow.
    + cbn [fst snd starCount armCount galaxyRadius rotationSpeed coreSize
           starColors particleSize brightness].
      pose proof (Rmax_l (particleSize config) 0.15).
      pose proof (Rmax_r (particleSize config) 0.15).
      refine (conj _ (conj _ (conj _ (conj _ (conj _ (conj _ (conj _ _)))))));
        try discriminate; try (repeat split; reflexivity); try lia; try lra.
      intros _ _ _. refine (conj _ (conj _ _)); [lia | lra |].
      intros hexColor styleColor rnd k.
      destruct (viewer_createGalaxy_lengths hexColor styleColor
                  {| starCount := Z.min (starCount config) 10000;
                     armCount := armCount config;
                     galaxyRadius := galaxyRadius config;
                     rotationSpeed := rotationSpeed config;
                     coreSize := coreSize config;
                     starColors := starColors config;
                     particleSize := Rmax (particleSize config) 0.15;
                     brightness := brightness config |} rnd k)
        as (_ & _ & Ls & _).
      rewrite Ls. cbn [starCount]. lia.
    + apply orb_false_iff in Elow. destruct Elow as (_ & Eres).
      destruct (Rlt_dec (ViewerSetup.screenWidth d * ViewerSetup.screenHeight d)
                  1000000) as [| Hres]; [discriminate |].
      destruct (Rlt_dec 2073600
                  (ViewerSetup.screenWidth d * ViewerSetup.screenHeight d))
        as [Hhi | Hhi];
        destruct (ViewerSetup.memoryBelow (ViewerSetup.memory d) 8);
        cbn [orb fst snd starCount armCount galaxyRadius rotationSpeed coreSize
             starColors particleSize brightness];
        refine (conj _ (conj _ (conj _ (conj _ (conj _ (conj _ (conj _ _)))))));
        try discriminate; try (repeat split; reflexivity); try lia; try lra;
        intros _; repeat split; try reflexivity; lra.
Qed.
